(** * The forwarding session of the OpenSearch tunnel (main.go)

    A shallow embedding of the tunnel set-up code ([expandPath],
    [prepareSSHConfig], [runTunnel], [startTunnel], [waitForTunnelReady])
    and of the goroutines of the forwarding session (accept loop, teardown
    goroutine, [handleConnection], [copyData], [setupSignalHandler]).
    The command line part ([getConfig], [loadConfig], [createNewConfig],
    [promptForInput], [getEnvironment], [fileExists], [openBrowser]) runs in
    a monad of its own, which also counts the lines read at the terminal.

    The sequential set-up code runs in a writer monad that records every call
    the program makes to the operating system and to the libraries; what
    those calls answer is given by a [Host] record.  The goroutines are a
    labelled transition system: a label names the goroutine that moves and
    what the outside world answers to it. *)

From Stdlib Require Import ZArith String Ascii List DecimalString Lia.
From stdpp Require Import base list strings gmap.

Set Default Proof Using "Type".

(** ** Go values used by the program *)

(** [error] values: an error of a library, or one wrapped by
    [fmt.Errorf(format + "%w", cause)]. *)
Inductive error : Type :=
| ErrExternal (msg : string)
| Errorf (format : string) (cause : error).

(** The [Error()] method. *)
Fixpoint error_string (e : error) : string :=
  match e with
  | ErrExternal msg => msg
  | Errorf format cause => format +:+ error_string cause
  end.

(** A Go pair [(value, err)] of which exactly one side is meaningful. *)
Inductive result (A : Type) : Type :=
| Ok (a : A)
| Err (e : error).
Arguments Ok {A} a.
Arguments Err {A} e.

Definition is_Err {A} (r : result A) : Prop :=
  match r with Err _ => True | Ok _ => False end.

(** [time.Duration] counts nanoseconds. *)
Definition Duration := Z.
Definition Millisecond : Duration := 1000000%Z.
Definition Second : Duration := (1000 * Millisecond)%Z.

(** [fmt.Sprintf("%d", n)]. *)
Definition itoa (n : Z) : string := NilZero.string_of_int (Z.to_int n).

(** [strings.Split(s, sep)] for a separator of one byte. *)
Fixpoint Split (s : string) (sep : ascii) : list string :=
  match s with
  | EmptyString => [EmptyString]
  | String c rest =>
      if Ascii.eqb c sep then EmptyString :: Split rest sep
      else match Split rest sep with
           | [] => [String c EmptyString]
           | piece :: pieces => String c piece :: pieces
           end
  end.

(** ** The ssh library's client configuration *)

Inductive Signer : Type := MkSigner (key : string).

Inductive AuthMethod : Type := PublicKeys (signers : list Signer).

(** A host key callback answers [nil] ([None]) to accept the key that the
    server at [hostname] presented. *)
Definition HostKeyCallbackT := string -> string -> option error.

(** [ssh.InsecureIgnoreHostKey()] accepts any host key. *)
Definition InsecureIgnoreHostKey : HostKeyCallbackT := fun _ _ => None.

Record ClientConfig : Type := {
  User : string;
  Auth : list AuthMethod;
  HostKeyCallback : HostKeyCallbackT;
  Timeout : Duration
}.

(** ** Configuration file contents *)

Record Environment : Type := { OpenSearchHost : string }.

Record Config : Type := {
  BastionHost : string;
  KeyPath : string;
  Environments : gmap string Environment
}.

(** The keys of the map; Go leaves their order unspecified, the model takes
    the order of the map's enumeration. *)
Definition getEnvironmentKeys (environments : gmap string Environment)
  : list string :=
  (map_to_list environments).*1.

(** [fmt]'s [%v] of a slice of strings. *)
Definition show_strings (l : list string) : string :=
  "[" +:+ String.concat " " l +:+ "]".

Definition localPort : Z := 5602.
Definition remotePort : Z := 443.

(** ** The outside world of the set-up code *)

(** What the operating system and the libraries answer.  [net_DialTimeout]
    is indexed by the number of the probing attempt. *)
Record Host : Type := {
  os_UserHomeDir : result string;
  filepath_Join : string -> string -> string;
  os_ReadFile : string -> result string;
  ssh_ParsePrivateKey : string -> result Signer;
  ssh_Dial : string -> string -> ClientConfig -> option error;
  net_Listen : string -> string -> option error;
  net_DialTimeout : nat -> string -> string -> Duration -> option error
}.

(** The calls the set-up code makes, in the order it makes them. *)
Inductive IOEvent : Type :=
| IoReadFile (path : string)
| IoParsePrivateKey (key : string)
| IoSSHDial (network addr : string) (cfg : ClientConfig)
| IoSignalNotify
| IoNetListen (network addr : string)
| IoGoAcceptLoop
| IoDialTimeout (network addr : string) (timeout : Duration)
| IoConnClose
| IoSleep (d : Duration)
| IoLog (msg : string)
| IoPrint (msg : string)
| IoOpenBrowser (url : string)
| IoExit (code : Z).

(** Writer monad: a value and the calls made to compute it. *)
Definition IO (A : Type) : Type := A * list IOEvent.

Definition ret {A} (a : A) : IO A := (a, []).

Definition bind {A B} (m : IO A) (k : A -> IO B) : IO B :=
  (fst (k (fst m)), snd m ++ snd (k (fst m))).

Definition emit (e : IOEvent) : IO unit := (tt, [e]).

Definition value {A} (m : IO A) : A := fst m.
Definition calls {A} (m : IO A) : list IOEvent := snd m.

Notation "'let*' x ':=' m 'in' k" := (bind m (fun x => k))
  (at level 10, x name, m at level 100, k at level 200).
Notation "m ';;;' k" := (bind m (fun _ => k))
  (at level 100, k at level 200, right associativity).

(** How a run of [runTunnel] ends its set-up: the process has exited with a
    status, or the tunnel is up and [runTunnel] waits for the cancellation. *)
Inductive Outcome : Type :=
| Exited (code : Z)
| Serving.

(** [log.Fatalf]: log the message, then [os.Exit(1)]. *)
Definition Fatalf (msg : string) : IO Outcome :=
  emit (IoLog msg) ;;; emit (IoExit 1) ;;; ret (Exited 1).

Section Setup.

Variable host : Host.

Definition expandPath (path : string) : IO string :=
  match path with
  | EmptyString => ret path
  | String c rest =>
      if negb (Ascii.eqb c "~") then ret path
      else match os_UserHomeDir host with
           | Err e =>
               emit (IoLog ("Error expanding home directory: " +:+ error_string e)) ;;;
               ret path
           | Ok home => ret (filepath_Join host home rest)
           end
  end.

Definition prepareSSHConfig (keyPath username : string)
  : IO (result ClientConfig) :=
  let* expandedKeyPath := expandPath keyPath in
  emit (IoReadFile expandedKeyPath) ;;;
  match os_ReadFile host expandedKeyPath with
  | Err e => ret (Err (Errorf "unable to read private key: " e))
  | Ok key =>
      emit (IoParsePrivateKey key) ;;;
      match ssh_ParsePrivateKey host key with
      | Err e => ret (Err (Errorf "unable to parse private key: " e))
      | Ok signer =>
          ret (Ok {| User := username;
                     Auth := [PublicKeys [signer]];
                     HostKeyCallback := InsecureIgnoreHostKey;
                     Timeout := (15 * Second)%Z |})
      end
  end.

(** The loop of [waitForTunnelReady]: [i] is the loop counter and [fuel]
    the number of iterations left before [i] reaches 5. *)
Fixpoint waitLoop (port : Z) (fuel i : nat) : IO (option error) :=
  match fuel with
  | O => ret None
  | S fuel' =>
      let addr := "localhost:" +:+ itoa port in
      emit (IoDialTimeout "tcp" addr Second) ;;;
      match net_DialTimeout host i "tcp" addr Second with
      | None => emit IoConnClose ;;; ret None
      | Some _ => emit (IoSleep (500 * Millisecond)%Z) ;;; waitLoop port fuel' (S i)
      end
  end.

Definition waitForTunnelReady (port : Z) : IO (option error) :=
  waitLoop port 5 0.

Definition startTunnel (remoteHost : string) (localPort remotePort : Z)
  : IO (option error) :=
  let addr := "localhost:" +:+ itoa localPort in
  emit (IoNetListen "tcp" addr) ;;;
  match net_Listen host "tcp" addr with
  | Some e => ret (Some (Errorf "failed to start local listener: " e))
  | None =>
      emit IoGoAcceptLoop ;;;
      waitForTunnelReady localPort
  end.

(** [runTunnel] from the point where the configuration is loaded and the
    environment chosen, up to the point where it waits for the
    cancellation. *)
Definition runTunnel (config : Config) (environment : string) : IO Outcome :=
  match Environments config !! environment with
  | None =>
      Fatalf ("Invalid environment: " +:+ environment
              +:+ ". Available environments: "
              +:+ show_strings (getEnvironmentKeys (Environments config)))
  | Some envConfig =>
      match Split (BastionHost config) "@" with
      | [username; hostname] =>
          let* r := prepareSSHConfig (KeyPath config) username in
          match r with
          | Err e =>
              Fatalf ("Failed to prepare SSH configuration: " +:+ error_string e)
          | Ok sshConfig =>
              emit (IoPrint ("Establishing SSH tunnel to " +:+ environment
                             +:+ " environment...")) ;;;
              emit (IoSSHDial "tcp" (hostname +:+ ":22") sshConfig) ;;;
              match ssh_Dial host "tcp" (hostname +:+ ":22") sshConfig with
              | Some e => Fatalf ("Failed to dial SSH server: " +:+ error_string e)
              | None =>
                  emit IoSignalNotify ;;;
                  let* err := startTunnel (OpenSearchHost envConfig)
                                          localPort remotePort in
                  match err with
                  | Some e =>
                      Fatalf ("Failed to start SSH tunnel: " +:+ error_string e)
                  | None =>
                      let url := "https://localhost:" +:+ itoa localPort
                                 +:+ "/_dashboards/" in
                      emit (IoPrint ("Opening browser to " +:+ url)) ;;;
                      emit (IoOpenBrowser url) ;;;
                      emit (IoPrint "SSH tunnel established. Press Ctrl+C to close the tunnel and exit") ;;;
                      ret Serving
                  end
              end
          end
      | _ => Fatalf "Invalid bastion host format. Expected format: username@hostname"
      end
  end.

End Setup.

(** ** The goroutines of the forwarding session *)

(** Local connections, numbered in the order [listener.Accept] returns
    them. *)
Abbreviation Conn := nat (only parsing).

(** The two calls of [copyData]: [copyData(localConn, remoteConn, done)]
    copies from the remote side to the local one, and
    [copyData(remoteConn, localConn, done)] the other way. *)
Inductive Dir : Type := RemoteToLocal | LocalToRemote.

Inductive Goroutine : Type :=
| GMain
| GSignal
| GAccept
| GTeardown
| GHandler (c : Conn).

(** The three [log.Printf] calls of the forwarding session. *)
Inductive LogSite : Type :=
| LogAcceptError
| LogDialFailed (c : Conn)
| LogCopyError (c : Conn) (d : Dir).

(** What the goroutines do to the shared objects and to the outside world. *)
Inductive Event : Type :=
| EvSignal
| EvCtxDone (g : Goroutine)
| EvPrint (msg : string)
| EvCancel (g : Goroutine)
| EvClientClose (g : Goroutine)
| EvListenerClose (g : Goroutine)
| EvConnsClose
| EvAccept (c : Conn)
| EvAcceptError
| EvAcceptLoopReturn
| EvLog (site : LogSite)
| EvRegister (c : Conn)
| EvDial (c : Conn) (ok : bool)
| EvGoCopy (c : Conn) (d : Dir)
| EvCopyEnd (c : Conn) (d : Dir) (failed : bool)
| EvCopyDone (c : Conn) (d : Dir)
| EvPairDone (c : Conn)
| EvRemoteClose (c : Conn)
| EvLocalClose (c : Conn) (g : Goroutine)
| EvDrain (c : Conn)
| EvDrainEnd
| EvPanic (c : Conn)
| EvExit.

#[global] Instance Dir_eq_dec : EqDecision Dir.
Proof. solve_decision. Defined.
#[global] Instance Goroutine_eq_dec : EqDecision Goroutine.
Proof. solve_decision. Defined.
#[global] Instance LogSite_eq_dec : EqDecision LogSite.
Proof. solve_decision. Defined.
#[global] Instance Event_eq_dec : EqDecision Event.
Proof. solve_decision. Defined.

(** Program counters.  The signal handler goroutine of
    [setupSignalHandler]: *)
Inductive SigPc : Type :=
| SigWait          (* <-c *)
| SigCancel        (* cancel() *)
| SigClientClose   (* client.Close() *)
| SigDone.

(** [runTunnel] once the tunnel is up. *)
Inductive MainPc : Type :=
| MainWait          (* <-ctx.Done() *)
| MainDeferCancel   (* deferred cancel() *)
| MainDeferClose    (* deferred client.Close() *)
| MainReturn.       (* main returns: the process exits *)

(** The goroutine started by [startTunnel]; its deferred calls run in the
    reverse order of their [defer] statements. *)
Inductive AcceptPc : Type :=
| AccAccept         (* listener.Accept() *)
| AccCheck          (* if ctx.Err() != nil *)
| AccDeferConns     (* deferred close(conns) *)
| AccDeferListener  (* deferred listener.Close() *)
| AccDone.

(** The goroutine that handles the cancellation. *)
Inductive TeardownPc : Type :=
| TearWait              (* <-ctx.Done() *)
| TearCloseListener     (* listener.Close() *)
| TearRange             (* for conn := range conns *)
| TearClose (c : Conn)  (* conn.Close() *)
| TearDone.

(** [handleConnection]. *)
Inductive HandlerPc : Type :=
| HSend          (* conns <- localConn *)
| HDial          (* client.Dial *)
| HLogFail       (* log.Printf, dial failed *)
| HFailClose     (* deferred localConn.Close(), dial failed *)
| HGo1           (* go copyData(localConn, remoteConn, done) *)
| HGo2           (* go copyData(remoteConn, localConn, done) *)
| HWait          (* <-done *)
| HCloseRemote   (* deferred remoteConn.Close() *)
| HCloseLocal    (* deferred localConn.Close() *)
| HDone.

(** [copyData]. *)
Inductive CopyPc : Type :=
| CNotStarted
| CCopying       (* io.Copy *)
| CLog           (* log.Printf *)
| CSend          (* done <- true *)
| CDone.

#[global] Instance HandlerPc_eq_dec : EqDecision HandlerPc.
Proof. solve_decision. Defined.
#[global] Instance CopyPc_eq_dec : EqDecision CopyPc.
Proof. solve_decision. Defined.

(** One accepted connection: its handler, its two copiers and the number of
    values waiting in its [done] channel (capacity 2). *)
Record Handler : Type := {
  hpc : HandlerPc;
  copy_r2l : CopyPc;
  copy_l2r : CopyPc;
  done_len : nat
}.

Definition copy_of (h : Handler) (d : Dir) : CopyPc :=
  match d with RemoteToLocal => copy_r2l h | LocalToRemote => copy_l2r h end.

Definition other (d : Dir) : Dir :=
  match d with RemoteToLocal => LocalToRemote | LocalToRemote => RemoteToLocal end.

Definition set_hpc (pc : HandlerPc) (h : Handler) : Handler :=
  {| hpc := pc; copy_r2l := copy_r2l h; copy_l2r := copy_l2r h;
     done_len := done_len h |}.

Definition set_copy (d : Dir) (pc : CopyPc) (h : Handler) : Handler :=
  match d with
  | RemoteToLocal =>
      {| hpc := hpc h; copy_r2l := pc; copy_l2r := copy_l2r h;
         done_len := done_len h |}
  | LocalToRemote =>
      {| hpc := hpc h; copy_r2l := copy_r2l h; copy_l2r := pc;
         done_len := done_len h |}
  end.

Definition set_done_len (n : nat) (h : Handler) : Handler :=
  {| hpc := hpc h; copy_r2l := copy_r2l h; copy_l2r := copy_l2r h;
     done_len := n |}.

Definition new_handler : Handler :=
  {| hpc := HSend; copy_r2l := CNotStarted; copy_l2r := CNotStarted;
     done_len := 0 |}.

Inductive Status : Type := Running | Panicked | ExitedMain.

(** Capacity of [conns]: [make(chan net.Conn, 10)]. *)
Definition conns_cap : nat := 10.

(** The process.  [log] has the newest event first. *)
Record State : Type := {
  status : Status;
  cancelled : bool;          (* ctx.Err() != nil *)
  listener_closed : bool;
  client_closed : bool;
  conns_buf : list Conn;     (* the values buffered in conns, oldest first *)
  conns_closed : bool;
  sig_pc : SigPc;
  main_pc : MainPc;
  acc_pc : AcceptPc;
  tear_pc : TeardownPc;
  handlers : list Handler;
  log : list Event
}.

Definition init : State :=
  {| status := Running; cancelled := false; listener_closed := false;
     client_closed := false; conns_buf := []; conns_closed := false;
     sig_pc := SigWait; main_pc := MainWait; acc_pc := AccAccept;
     tear_pc := TearWait; handlers := []; log := [] |}.

(** Field updates. *)
Definition record (e : Event) (s : State) : State :=
  {| status := status s; cancelled := cancelled s;
     listener_closed := listener_closed s; client_closed := client_closed s;
     conns_buf := conns_buf s; conns_closed := conns_closed s;
     sig_pc := sig_pc s; main_pc := main_pc s; acc_pc := acc_pc s;
     tear_pc := tear_pc s; handlers := handlers s; log := e :: log s |}.

Definition set_status (x : Status) (s : State) : State :=
  {| status := x; cancelled := cancelled s;
     listener_closed := listener_closed s; client_closed := client_closed s;
     conns_buf := conns_buf s; conns_closed := conns_closed s;
     sig_pc := sig_pc s; main_pc := main_pc s; acc_pc := acc_pc s;
     tear_pc := tear_pc s; handlers := handlers s; log := log s |}.

Definition set_cancelled (s : State) : State :=
  {| status := status s; cancelled := true;
     listener_closed := listener_closed s; client_closed := client_closed s;
     conns_buf := conns_buf s; conns_closed := conns_closed s;
     sig_pc := sig_pc s; main_pc := main_pc s; acc_pc := acc_pc s;
     tear_pc := tear_pc s; handlers := handlers s; log := log s |}.

Definition set_listener_closed (s : State) : State :=
  {| status := status s; cancelled := cancelled s;
     listener_closed := true; client_closed := client_closed s;
     conns_buf := conns_buf s; conns_closed := conns_closed s;
     sig_pc := sig_pc s; main_pc := main_pc s; acc_pc := acc_pc s;
     tear_pc := tear_pc s; handlers := handlers s; log := log s |}.

Definition set_client_closed (s : State) : State :=
  {| status := status s; cancelled := cancelled s;
     listener_closed := listener_closed s; client_closed := true;
     conns_buf := conns_buf s; conns_closed := conns_closed s;
     sig_pc := sig_pc s; main_pc := main_pc s; acc_pc := acc_pc s;
     tear_pc := tear_pc s; handlers := handlers s; log := log s |}.

Definition set_conns_buf (x : list Conn) (s : State) : State :=
  {| status := status s; cancelled := cancelled s;
     listener_closed := listener_closed s; client_closed := client_closed s;
     conns_buf := x; conns_closed := conns_closed s;
     sig_pc := sig_pc s; main_pc := main_pc s; acc_pc := acc_pc s;
     tear_pc := tear_pc s; handlers := handlers s; log := log s |}.

Definition set_conns_closed (s : State) : State :=
  {| status := status s; cancelled := cancelled s;
     listener_closed := listener_closed s; client_closed := client_closed s;
     conns_buf := conns_buf s; conns_closed := true;
     sig_pc := sig_pc s; main_pc := main_pc s; acc_pc := acc_pc s;
     tear_pc := tear_pc s; handlers := handlers s; log := log s |}.

Definition set_sig_pc (x : SigPc) (s : State) : State :=
  {| status := status s; cancelled := cancelled s;
     listener_closed := listener_closed s; client_closed := client_closed s;
     conns_buf := conns_buf s; conns_closed := conns_closed s;
     sig_pc := x; main_pc := main_pc s; acc_pc := acc_pc s;
     tear_pc := tear_pc s; handlers := handlers s; log := log s |}.

Definition set_main_pc (x : MainPc) (s : State) : State :=
  {| status := status s; cancelled := cancelled s;
     listener_closed := listener_closed s; client_closed := client_closed s;
     conns_buf := conns_buf s; conns_closed := conns_closed s;
     sig_pc := sig_pc s; main_pc := x; acc_pc := acc_pc s;
     tear_pc := tear_pc s; handlers := handlers s; log := log s |}.

Definition set_acc_pc (x : AcceptPc) (s : State) : State :=
  {| status := status s; cancelled := cancelled s;
     listener_closed := listener_closed s; client_closed := client_closed s;
     conns_buf := conns_buf s; conns_closed := conns_closed s;
     sig_pc := sig_pc s; main_pc := main_pc s; acc_pc := x;
     tear_pc := tear_pc s; handlers := handlers s; log := log s |}.

Definition set_tear_pc (x : TeardownPc) (s : State) : State :=
  {| status := status s; cancelled := cancelled s;
     listener_closed := listener_closed s; client_closed := client_closed s;
     conns_buf := conns_buf s; conns_closed := conns_closed s;
     sig_pc := sig_pc s; main_pc := main_pc s; acc_pc := acc_pc s;
     tear_pc := x; handlers := handlers s; log := log s |}.

Definition set_handlers (x : list Handler) (s : State) : State :=
  {| status := status s; cancelled := cancelled s;
     listener_closed := listener_closed s; client_closed := client_closed s;
     conns_buf := conns_buf s; conns_closed := conns_closed s;
     sig_pc := sig_pc s; main_pc := main_pc s; acc_pc := acc_pc s;
     tear_pc := tear_pc s; handlers := x; log := log s |}.

Definition set_handler (c : Conn) (h : Handler) (s : State) : State :=
  set_handlers (<[c := h]> (handlers s)) s.

(** ** Steps

    A label says which goroutine takes its next step, and, where the step is
    a call whose answer the program does not control ([Accept],
    [client.Dial], [io.Copy]), what the answer is. *)
Inductive Label : Type :=
| LSignal                    (* an interrupt arrives: <-c returns, the handler prints *)
| LSigCancel
| LSigClientClose
| LMainWake                  (* <-ctx.Done() returns, runTunnel prints and returns *)
| LMainCancel
| LMainClientClose
| LMainExit
| LAccept (ok : bool)        (* listener.Accept() returns a connection, or an error *)
| LAcceptCheck
| LAcceptCloseConns
| LAcceptCloseListener
| LTearWake
| LTearCloseListener
| LTearRecv
| LTearClose
| LHSend (c : Conn)
| LHDial (c : Conn) (ok : bool)   (* client.Dial returns a connection, or an error *)
| LHLog (c : Conn)
| LHFailClose (c : Conn)
| LHGo (c : Conn)
| LHWait (c : Conn)
| LHCloseRemote (c : Conn)
| LHCloseLocal (c : Conn)
| LCopyEnd (c : Conn) (d : Dir) (failed : bool)  (* io.Copy returns nil, or an error *)
| LCopyLog (c : Conn) (d : Dir)
| LCopyDone (c : Conn) (d : Dir).

(** The step of the signal handler goroutine and of [runTunnel]. *)
Definition step_control (s : State) (l : Label) : option State :=
  match l, sig_pc s, main_pc s with
  | LSignal, SigWait, _ => Some (record EvSignal (set_sig_pc SigCancel s))
  | LSigCancel, SigCancel, _ =>
      Some (record (EvCancel GSignal) (set_cancelled (set_sig_pc SigClientClose s)))
  | LSigClientClose, SigClientClose, _ =>
      Some (record (EvClientClose GSignal) (set_client_closed (set_sig_pc SigDone s)))
  | LMainWake, _, MainWait =>
      if cancelled s
      then Some (record (EvCtxDone GMain) (set_main_pc MainDeferCancel s))
      else None
  | LMainCancel, _, MainDeferCancel =>
      Some (record (EvCancel GMain) (set_cancelled (set_main_pc MainDeferClose s)))
  | LMainClientClose, _, MainDeferClose =>
      Some (record (EvClientClose GMain) (set_client_closed (set_main_pc MainReturn s)))
  | LMainExit, _, MainReturn => Some (record EvExit (set_status ExitedMain s))
  | _, _, _ => None
  end.

(** The step of the accept loop goroutine. *)
Definition step_accept (s : State) (l : Label) : option State :=
  match l, acc_pc s with
  | LAccept true, AccAccept =>
      if listener_closed s then None
      else Some (record (EvAccept (length (handlers s)))
                        (set_handlers (handlers s ++ [new_handler]) s))
  | LAccept false, AccAccept => Some (record EvAcceptError (set_acc_pc AccCheck s))
  | LAcceptCheck, AccCheck =>
      if cancelled s
      then Some (record EvAcceptLoopReturn (set_acc_pc AccDeferConns s))
      else Some (record (EvLog LogAcceptError) (set_acc_pc AccAccept s))
  | LAcceptCloseConns, AccDeferConns =>
      Some (record EvConnsClose (set_conns_closed (set_acc_pc AccDeferListener s)))
  | LAcceptCloseListener, AccDeferListener =>
      Some (record (EvListenerClose GAccept)
                   (set_listener_closed (set_acc_pc AccDone s)))
  | _, _ => None
  end.

(** The step of the teardown goroutine. *)
Definition step_teardown (s : State) (l : Label) : option State :=
  match l, tear_pc s with
  | LTearWake, TearWait =>
      if cancelled s
      then Some (record (EvCtxDone GTeardown) (set_tear_pc TearCloseListener s))
      else None
  | LTearCloseListener, TearCloseListener =>
      Some (record (EvListenerClose GTeardown)
                   (set_listener_closed (set_tear_pc TearRange s)))
  | LTearRecv, TearRange =>
      match conns_buf s with
      | c :: rest =>
          Some (record (EvDrain c) (set_conns_buf rest (set_tear_pc (TearClose c) s)))
      | [] =>
          if conns_closed s
          then Some (record EvDrainEnd (set_tear_pc TearDone s))
          else None
      end
  | LTearClose, TearClose c =>
      Some (record (EvLocalClose c GTeardown) (set_tear_pc TearRange s))
  | _, _ => None
  end.

(** The step of [handleConnection] for connection [c], whose state is [h]. *)
Definition step_handler (s : State) (c : Conn) (h : Handler) (l : Label)
  : option State :=
  match l, hpc h with
  | LHSend _, HSend =>
      if conns_closed s
      then Some (record (EvPanic c) (set_status Panicked s))
      else if decide (length (conns_buf s) < conns_cap)
      then Some (record (EvRegister c)
                   (set_conns_buf (conns_buf s ++ [c])
                      (set_handler c (set_hpc HDial h) s)))
      else None
  | LHDial _ true, HDial =>
      Some (record (EvDial c true) (set_handler c (set_hpc HGo1 h) s))
  | LHDial _ false, HDial =>
      Some (record (EvDial c false) (set_handler c (set_hpc HLogFail h) s))
  | LHLog _, HLogFail =>
      Some (record (EvLog (LogDialFailed c)) (set_handler c (set_hpc HFailClose h) s))
  | LHFailClose _, HFailClose =>
      Some (record (EvLocalClose c (GHandler c)) (set_handler c (set_hpc HDone h) s))
  | LHGo _, HGo1 =>
      Some (record (EvGoCopy c RemoteToLocal)
              (set_handler c (set_copy RemoteToLocal CCopying (set_hpc HGo2 h)) s))
  | LHGo _, HGo2 =>
      Some (record (EvGoCopy c LocalToRemote)
              (set_handler c (set_copy LocalToRemote CCopying (set_hpc HWait h)) s))
  | LHWait _, HWait =>
      match done_len h with
      | O => None
      | S n =>
          Some (record (EvPairDone c)
                  (set_handler c (set_done_len n (set_hpc HCloseRemote h)) s))
      end
  | LHCloseRemote _, HCloseRemote =>
      Some (record (EvRemoteClose c) (set_handler c (set_hpc HCloseLocal h) s))
  | LHCloseLocal _, HCloseLocal =>
      Some (record (EvLocalClose c (GHandler c)) (set_handler c (set_hpc HDone h) s))
  | _, _ => None
  end.

(** The step of [copyData] in direction [d] for connection [c]. *)
Definition step_copy (s : State) (c : Conn) (h : Handler) (d : Dir) (l : Label)
  : option State :=
  match l, copy_of h d with
  | LCopyEnd _ _ true, CCopying =>
      Some (record (EvCopyEnd c d true) (set_handler c (set_copy d CLog h) s))
  | LCopyEnd _ _ false, CCopying =>
      Some (record (EvCopyEnd c d false) (set_handler c (set_copy d CSend h) s))
  | LCopyLog _ _, CLog =>
      Some (record (EvLog (LogCopyError c d)) (set_handler c (set_copy d CSend h) s))
  | LCopyDone _ _, CSend =>
      Some (record (EvCopyDone c d)
              (set_handler c (set_done_len (S (done_len h)) (set_copy d CDone h)) s))
  | _, _ => None
  end.

(** The goroutine a label moves. *)
Inductive Owner : Type :=
| OwnControl
| OwnAccept
| OwnTeardown
| OwnHandler (c : Conn)
| OwnCopy (c : Conn) (d : Dir).

Definition owner (l : Label) : Owner :=
  match l with
  | LSignal | LSigCancel | LSigClientClose
  | LMainWake | LMainCancel | LMainClientClose | LMainExit => OwnControl
  | LAccept _ | LAcceptCheck | LAcceptCloseConns | LAcceptCloseListener => OwnAccept
  | LTearWake | LTearCloseListener | LTearRecv | LTearClose => OwnTeardown
  | LHSend c | LHDial c _ | LHLog c | LHFailClose c | LHGo c | LHWait c
  | LHCloseRemote c | LHCloseLocal c => OwnHandler c
  | LCopyEnd c d _ | LCopyLog c d | LCopyDone c d => OwnCopy c d
  end.

(** One step of the process: nothing moves once it has panicked or exited. *)
Definition step (s : State) (l : Label) : option State :=
  match status s with
  | Running =>
      match owner l with
      | OwnControl => step_control s l
      | OwnAccept => step_accept s l
      | OwnTeardown => step_teardown s l
      | OwnHandler c =>
          match handlers s !! c with
          | Some h => step_handler s c h l
          | None => None
          end
      | OwnCopy c d =>
          match handlers s !! c with
          | Some h => step_copy s c h d l
          | None => None
          end
      end
  | _ => None
  end.

Fixpoint run (s : State) (ls : list Label) : option State :=
  match ls with
  | [] => Some s
  | l :: ls' =>
      match step s l with
      | Some s' => run s' ls'
      | None => None
      end
  end.

Inductive reachable : State -> Prop :=
| reachable_init : reachable init
| reachable_step s l s' : reachable s -> step s l = Some s' -> reachable s'.


(** ** Reading the calls of the set-up code *)

Definition is_dial (e : IOEvent) : bool :=
  match e with IoDialTimeout _ _ _ => true | _ => false end.

Definition is_listen (e : IOEvent) : bool :=
  match e with IoNetListen _ _ => true | _ => false end.

(** The dials of the bastion among the calls. *)
Definition is_bastion_dial (e : IOEvent) : bool :=
  match e with IoSSHDial _ _ _ => true | _ => false end.

(** The calls that belong to a session: dialling the bastion, installing the
    signal handler, listening, starting the accept loop, probing, opening the
    browser. *)
Definition is_session_call (e : IOEvent) : bool :=
  match e with
  | IoSSHDial _ _ _ | IoSignalNotify | IoNetListen _ _ | IoGoAcceptLoop
  | IoDialTimeout _ _ _ | IoOpenBrowser _ => true
  | _ => false
  end.

Definition count_calls (p : IOEvent -> bool) (l : list IOEvent) : nat :=
  length (List.filter p l).

(** Whether the [i]-th probing dial to the local port succeeds. *)
Definition attempt_ok (host : Host) (port : Z) (i : nat) : bool :=
  match net_DialTimeout host i "tcp" ("localhost:" +:+ itoa port) Second with
  | None => true
  | Some _ => false
  end.

(** [k] failed probing attempts, each followed by its pause. *)
Fixpoint retries (port : Z) (k : nat) : list IOEvent :=
  match k with
  | O => []
  | S k' =>
      IoDialTimeout "tcp" ("localhost:" +:+ itoa port) Second
      :: IoSleep (500 * Millisecond)%Z :: retries port k'
  end.

(** A host on which everything succeeds, the listener answering the third
    probe. *)
Definition host_ok : Host :=
  {| os_UserHomeDir := Ok "/home/u";
     filepath_Join := fun a b => a +:+ b;
     os_ReadFile := fun p =>
       if String.eqb p "/home/u/.ssh/key.pem" then Ok "PEM"
       else Err (ErrExternal "no such file");
     ssh_ParsePrivateKey := fun k => Ok (MkSigner k);
     ssh_Dial := fun _ _ _ => None;
     net_Listen := fun _ _ => None;
     net_DialTimeout := fun i _ _ _ =>
       if Nat.ltb i 2 then Some (ErrExternal "connection refused") else None |}.

(** A host whose key file holds no private key. *)
Definition host_bad_key : Host :=
  {| os_UserHomeDir := Ok "/home/u";
     filepath_Join := fun a b => a +:+ b;
     os_ReadFile := fun _ => Ok "not a key";
     ssh_ParsePrivateKey := fun _ => Err (ErrExternal "ssh: no key found");
     ssh_Dial := fun _ _ _ => None;
     net_Listen := fun _ _ => None;
     net_DialTimeout := fun _ _ _ _ => None |}.

(** A host on which the local port is taken and never answers. *)
Definition host_port_in_use : Host :=
  {| os_UserHomeDir := Ok "/home/u";
     filepath_Join := fun a b => a +:+ b;
     os_ReadFile := fun _ => Ok "PEM";
     ssh_ParsePrivateKey := fun k => Ok (MkSigner k);
     ssh_Dial := fun _ _ _ => None;
     net_Listen := fun _ _ => Some (ErrExternal "bind: address already in use");
     net_DialTimeout := fun _ _ _ _ => Some (ErrExternal "connection refused") |}.

Definition config_ok : Config :=
  {| BastionHost := "ubuntu@12.34.56.78";
     KeyPath := "~/.ssh/key.pem";
     Environments := {[ "staging" := {| OpenSearchHost := "os.internal" |} ]} |}.

(** ** Reading the log of the goroutines *)

(** [e1] happened before every occurrence of [e2] in a log (newest first). *)
Definition precedes (e1 e2 : Event) (tr : list Event) : Prop :=
  forall newer older, tr = newer ++ e2 :: older -> In e1 older.

(** The number of occurrences of an event in a log. *)
Definition count_event (e : Event) (tr : list Event) : nat :=
  length (List.filter (fun x => bool_decide (x = e)) tr).
Arguments count_event : simpl never.

(** A connection the registry has not lost: it waits in [conns], or the
    teardown goroutine holds it and closes it next, or the teardown
    goroutine has closed it. *)
Definition tracked (s : State) (c : Conn) : Prop :=
  In c (conns_buf s) \/ tear_pc s = TearClose c \/
  In (EvLocalClose c GTeardown) (log s).

(** The cancellation comes first: the context is only ever cancelled by the
    signal handler before anyone else, and the goroutines that wait for it
    move on only once it is. *)
Definition inv_cancel (s : State) : Prop :=
  (cancelled s = true -> In (EvCancel GSignal) (log s)) /\
  match sig_pc s with
  | SigWait | SigCancel => True
  | _ => cancelled s = true
  end /\
  match main_pc s with MainWait => True | _ => cancelled s = true end /\
  match tear_pc s with
  | TearWait => True
  | TearCloseListener => cancelled s = true
  | _ => cancelled s = true /\ In (EvListenerClose GTeardown) (log s)
  end /\
  match acc_pc s with
  | AccAccept | AccCheck => True
  | _ => cancelled s = true
  end.

(** Registration: a handler is past its send on [conns] exactly when the
    log has its registration, which it then has once; and a registered
    connection is tracked. *)
Definition inv_reg (s : State) : Prop :=
  forall c,
    match handlers s !! c with
    | Some h =>
        (hpc h = HSend /\ ~ In (EvRegister c) (log s)) \/
        (hpc h <> HSend /\ count_event (EvRegister c) (log s) = 1 /\
         In (EvRegister c) (log s) /\ tracked s c)
    | None => ~ In (EvRegister c) (log s)
    end.


Definition is_done (pc : CopyPc) : nat :=
  match pc with CDone => 1 | _ => 0 end.

(** The number of copiers of a connection that have sent on [done]. *)
Definition ndone (h : Handler) : nat :=
  is_done (copy_r2l h) + is_done (copy_l2r h).

(** How the state of a handler hangs together: no copier runs before the
    handler starts it, both run while it waits, and [done] holds one value
    per finished copier, less the one the handler has received. *)
Definition hwf (h : Handler) : Prop :=
  match hpc h with
  | HSend | HDial | HLogFail | HFailClose | HGo1 =>
      copy_r2l h = CNotStarted /\ copy_l2r h = CNotStarted /\ done_len h = 0
  | HGo2 =>
      copy_r2l h <> CNotStarted /\ copy_l2r h = CNotStarted /\
      done_len h = ndone h
  | HWait =>
      copy_r2l h <> CNotStarted /\ copy_l2r h <> CNotStarted /\
      done_len h = ndone h
  | HCloseRemote | HCloseLocal =>
      copy_r2l h <> CNotStarted /\ copy_l2r h <> CNotStarted /\
      S (done_len h) = ndone h
  | HDone =>
      (copy_r2l h = CNotStarted /\ copy_l2r h = CNotStarted /\ done_len h = 0) \/
      (copy_r2l h <> CNotStarted /\ copy_l2r h <> CNotStarted /\
       S (done_len h) = ndone h)
  end.

Definition inv_hwf (s : State) : Prop :=
  forall c, match handlers s !! c with Some h => hwf h | None => True end.



(** The accept loop: an error is pending exactly while the loop checks the
    context, and the loop has returned exactly when the log says so. *)
Definition inv_acc (s : State) : Prop :=
  match acc_pc s with
  | AccAccept => ~ In EvAcceptLoopReturn (log s)
  | AccCheck => In EvAcceptError (log s) /\ ~ In EvAcceptLoopReturn (log s)
  | _ => In EvAcceptError (log s) /\ In EvAcceptLoopReturn (log s)
  end.

(** [conns] never holds more than its capacity, and only holds (and the
    teardown goroutine only receives) registered connections, whose handlers
    exist since their connection was accepted. *)
Definition inv_conns (s : State) : Prop :=
  length (conns_buf s) <= conns_cap /\
  (forall c, In c (conns_buf s) -> In (EvRegister c) (log s)) /\
  (forall c, tear_pc s = TearClose c -> In (EvRegister c) (log s)) /\
  (forall c, c < length (handlers s) -> In (EvAccept c) (log s)).


(** The state a run from [init] ends in. *)
Definition state_after (ls : list Label) : State :=
  match run init ls with Some s => s | None => init end.

(** One connection is being forwarded when the interrupt arrives; the signal
    handler cancels and closes the transport before the teardown goroutine
    has moved. *)
Definition interrupt_races_teardown : list Label :=
  [LAccept true; LHSend 0; LHDial 0 true; LHGo 0; LHGo 0;
   LSignal; LSigCancel; LSigClientClose].

(** The same interrupt with the teardown goroutine and the accept loop
    running to their ends afterwards. *)
Definition interrupt_then_teardown : list Label :=
  interrupt_races_teardown ++
  [LTearWake; LTearCloseListener; LTearRecv; LTearClose;
   LAccept false; LAcceptCheck; LAcceptCloseConns; LTearRecv;
   LAcceptCloseListener].

(** A connection whose remote dial is about to fail. *)
Definition one_registered : list Label := [LAccept true; LHSend 0].

(** A connection pair whose remote-to-local copier has finished while the
    local-to-remote one still copies. *)
Definition one_copier_done : list Label :=
  [LAccept true; LHSend 0; LHDial 0 true; LHGo 0; LHGo 0;
   LCopyEnd 0 RemoteToLocal false; LCopyDone 0 RemoteToLocal].

(** ** Further readings of the calls of the set-up code *)

(** The number of occurrences of a byte in a string. *)
Fixpoint count_char (c : ascii) (s : string) : nat :=
  match s with
  | EmptyString => 0
  | String c' rest => (if Ascii.eqb c' c then 1 else 0) + count_char c rest
  end.

(** The exit of the process among the calls. *)
Definition is_exit (e : IOEvent) : bool :=
  match e with IoExit _ => true | _ => false end.

(** A host behind which the bastion does not answer. *)
Definition host_unreachable : Host :=
  {| os_UserHomeDir := Ok "/home/u";
     filepath_Join := fun a b => a +:+ b;
     os_ReadFile := fun _ => Ok "PEM";
     ssh_ParsePrivateKey := fun k => Ok (MkSigner k);
     ssh_Dial := fun _ _ _ => Some (ErrExternal "dial tcp: i/o timeout");
     net_Listen := fun _ _ => None;
     net_DialTimeout := fun _ _ _ _ => None |}.


(** The reads of a file among the calls. *)
Definition is_read_file (e : IOEvent) : bool :=
  match e with IoReadFile _ => true | _ => false end.

(** A host on which the home directory of the user cannot be found. *)
Definition host_homeless : Host :=
  {| os_UserHomeDir := Err (ErrExternal "$HOME is not defined");
     filepath_Join := fun a b => a +:+ b;
     os_ReadFile := fun _ => Err (ErrExternal "no such file or directory");
     ssh_ParsePrivateKey := fun k => Ok (MkSigner k);
     ssh_Dial := fun _ _ _ => None;
     net_Listen := fun _ _ => None;
     net_DialTimeout := fun _ _ _ _ => None |}.

(** ** Further readings of the log of the goroutines *)

(** The connections whose registration, and the connections whose receipt by
    the teardown goroutine, a log holds. *)
Definition registered (tr : list Event) : list Conn :=
  omap (fun e => match e with EvRegister c => Some c | _ => None end) tr.

Definition drained (tr : list Event) : list Conn :=
  omap (fun e => match e with EvDrain c => Some c | _ => None end) tr.

(** Every registration takes a slot of [conns], and only the teardown
    goroutine, once it ranges over [conns], gives slots back. *)
Definition inv_cap (s : State) : Prop :=
  length (registered (log s)) = length (conns_buf s) + length (drained (log s)) /\
  match tear_pc s with
  | TearWait | TearCloseListener => drained (log s) = []
  | _ => True
  end.

(** Ten connections are registered and an eleventh is accepted. *)
Definition eleven_accepted : list Label :=
  flat_map (fun c => [LAccept true; LHSend c]) (seq 0 10) ++ [LAccept true].

(** The events of a shutdown: everything that cancels, closes the listener,
    the transport session or [conns], empties [conns], or ends the
    process. *)
Definition is_shutdown_event (e : Event) : bool :=
  match e with
  | EvCancel _ | EvCtxDone _ | EvClientClose _ | EvListenerClose _
  | EvConnsClose | EvAcceptLoopReturn | EvDrain _ | EvDrainEnd
  | EvLocalClose _ GTeardown | EvPanic _ | EvExit => true
  | _ => false
  end.

(** Whatever is closed or ended was closed or ended after the
    cancellation. *)
Definition inv_flags (s : State) : Prop :=
  (listener_closed s = true -> cancelled s = true) /\
  (client_closed s = true -> cancelled s = true) /\
  (conns_closed s = true -> cancelled s = true) /\
  (status s <> Running -> cancelled s = true).

(** The cancellation comes after an interrupt. *)
Definition inv_signal (s : State) : Prop :=
  (sig_pc s <> SigWait -> In EvSignal (log s)) /\
  (cancelled s = true -> In EvSignal (log s)).

(** The listener and [conns] are closed exactly when the log says so. *)
Definition inv_closed (s : State) : Prop :=
  (listener_closed s = false -> forall g, ~ In (EvListenerClose g) (log s)) /\
  (listener_closed s = true -> exists g, In (EvListenerClose g) (log s)) /\
  (conns_closed s = false -> ~ In EvConnsClose (log s)) /\
  (conns_closed s = true -> In EvConnsClose (log s)).

(** The process has panicked: the last thing it did was the send on the
    closed [conns] of a handler whose connection was accepted and never
    registered. *)
Definition inv_panic (s : State) : Prop :=
  status s = Panicked ->
  exists c older,
    log s = EvPanic c :: older /\ In EvConnsClose older /\
    In (EvAccept c) older /\ ~ In (EvRegister c) older.

(** The accept loop returns while the handler of connection 0 has not yet
    sent on [conns]. *)
Definition late_handler : list Label :=
  [LAccept true; LSignal; LSigCancel; LAccept false; LAcceptCheck;
   LAcceptCloseConns].

Arguments registered : simpl never.
Arguments drained : simpl never.

(** The events of a connection's handler that open or close a connection:
    the remote dial, the close of the remote connection and the handler's
    own close of the local one. *)
Definition concerns (c : Conn) (e : Event) : bool :=
  match e with
  | EvDial c' _ | EvRemoteClose c' => bool_decide (c' = c)
  | EvLocalClose c' (GHandler c'') => bool_decide (c' = c /\ c'' = c)
  | _ => false
  end.

(** What a log tells of the connections a handler opened and closed, newest
    first. *)
Definition lifecycle (c : Conn) (tr : list Event) : list Event :=
  List.filter (concerns c) tr.
Arguments lifecycle : simpl never.

(** The lifecycle of a connection, by the place its handler is at. *)
Definition inv_life (s : State) : Prop :=
  forall c,
    match handlers s !! c with
    | None => lifecycle c (log s) = []
    | Some h =>
        match hpc h with
        | HSend | HDial => lifecycle c (log s) = []
        | HLogFail | HFailClose => lifecycle c (log s) = [EvDial c false]
        | HGo1 | HGo2 | HWait | HCloseRemote =>
            lifecycle c (log s) = [EvDial c true]
        | HCloseLocal => lifecycle c (log s) = [EvRemoteClose c; EvDial c true]
        | HDone =>
            lifecycle c (log s) = [EvLocalClose c (GHandler c); EvDial c false] \/
            lifecycle c (log s) =
            [EvLocalClose c (GHandler c); EvRemoteClose c; EvDial c true]
        end
    end.

(** No interrupt: one connection whose dial fails, then an accept error. *)
Definition quiet_service : list Label :=
  [LAccept true; LHSend 0; LHDial 0 false; LHLog 0; LHFailClose 0;
   LAccept false; LAcceptCheck].

(** A pair whose handler has returned after the remote-to-local copier
    ended, and whose other copier then ends on an error and is about to
    send on [done]. *)
Definition loser_about_to_send : list Label :=
  [LAccept true; LHSend 0; LHDial 0 true; LHGo 0; LHGo 0;
   LCopyEnd 0 RemoteToLocal false; LCopyDone 0 RemoteToLocal;
   LHWait 0; LHCloseRemote 0; LHCloseLocal 0;
   LCopyEnd 0 LocalToRemote true; LCopyLog 0 LocalToRemote].

(** The signal handler and [runTunnel] alone can take the process from [s]
    to its exit in at most [k] steps, the context cancelled and the
    transport session closed. *)
Definition exits_within (k : nat) (s : State) : Prop :=
  exists ls s',
    run s ls = Some s' /\ status s' = ExitedMain /\
    Forall (fun l => owner l = OwnControl) ls /\ length ls <= k /\
    cancelled s' = true /\ client_closed s' = true.

(** Ten connections are registered, an eleventh is accepted and its handler
    is blocked in its send when the interrupt arrives. *)
Definition interrupt_at_full_registry : list Label :=
  eleven_accepted ++ [LSignal].

(** The events of one call of [copyData]: its start, the end of its
    [io.Copy], its log line and its send on [done]. *)
Definition concerns_copy (c : Conn) (d : Dir) (e : Event) : bool :=
  match e with
  | EvGoCopy c' d' | EvCopyEnd c' d' _ | EvCopyDone c' d'
  | EvLog (LogCopyError c' d') => bool_decide (c' = c /\ d' = d)
  | _ => false
  end.

(** What a log tells of one call of [copyData], newest first. *)
Definition copy_lifecycle (c : Conn) (d : Dir) (tr : list Event) : list Event :=
  List.filter (concerns_copy c d) tr.
Arguments copy_lifecycle : simpl never.


(** The connections the teardown goroutine has closed, by the log. *)
Definition torn (tr : list Event) : list Conn :=
  omap (fun e => match e with EvLocalClose c GTeardown => Some c | _ => None end) tr.
Arguments torn : simpl never.

(** [conns] is a queue: what was registered is, in the order of the
    registrations, what the teardown goroutine has received and then what
    waits in [conns]; no connection is registered twice; and the teardown
    goroutine has closed what it has received, but for the connection it
    holds. *)
Definition inv_fifo (s : State) : Prop :=
  rev (registered (log s)) = rev (drained (log s)) ++ conns_buf s /\
  match tear_pc s with
  | TearClose c => drained (log s) = c :: torn (log s)
  | _ => drained (log s) = torn (log s)
  end /\
  List.NoDup (registered (log s)).

(** Two connections are registered; after the interrupt the teardown
    goroutine has closed the first and holds the second. *)
Definition two_being_drained : list Label :=
  [LAccept true; LHSend 0; LAccept true; LHSend 1; LSignal; LSigCancel;
   LTearWake; LTearCloseListener; LTearRecv; LTearClose; LTearRecv].

(** ** The registry as the specification has it *)







(** ** The command line, the terminal and the configuration file *)

(** The string flags given on the command line, by name. *)
Record Command : Type := { Flags : gmap string string }.

(** [cmd.Flags().GetString(name)]: the value given, or the default of the
    flag, which is the empty string for each flag that [main] declares. *)
Definition GetString (cmd : Command) (name : string) : string :=
  default "" (Flags cmd !! name).

(** What the file system, the terminal and the desktop answer.
    [stdin_ReadString] is indexed by the number of reads of a line made
    before; [stdin_Scanln] is the value [fmt.Scanln(&choice)] leaves in
    [choice], which is 0 when it could scan nothing. *)
Record Machine : Type := {
  os_Stat : string -> option error;
  viper_ReadInConfig : string -> option error;
  viper_Unmarshal : string -> result Config;
  stdin_ReadString : nat -> string;
  stdin_Scanln : Z;
  strings_TrimSpace : string -> string;
  filepath_Dir : string -> string;
  os_MkdirAll : string -> Z -> option error;
  yaml_Marshal : Config -> result string;
  os_WriteFile : string -> string -> Z -> option error;
  runtime_GOOS : string;
  exec_Start : string -> list string -> option error
}.

(** The calls of the command: those of the set-up code ([CmdSys], the log
    lines and the exit among them), and those on the configuration file, the
    terminal and the desktop.  [CmdPrint] holds the bytes written to the
    standard output. *)
Inductive CmdEvent : Type :=
| CmdSys (e : IOEvent)
| CmdStat (path : string)
| CmdReadInConfig (path : string)
| CmdUnmarshal
| CmdPrint (text : string)
| CmdReadString
| CmdScanln
| CmdMkdirAll (path : string) (perm : Z)
| CmdMarshal (config : Config)
| CmdWriteFile (path data : string) (perm : Z)
| CmdExecStart (name : string) (args : list string)
| CmdIndexOutOfRange.

(** State and writer monad: the state is the number of lines read from the
    standard input so far. *)
Definition Cmd (A : Type) : Type := nat -> A * nat * list CmdEvent.

Definition cret {A} (a : A) : Cmd A := fun n => (a, n, []).

Definition cbind {A B} (m : Cmd A) (k : A -> Cmd B) : Cmd B :=
  fun n =>
    (fst (fst (k (fst (fst (m n))) (snd (fst (m n))))),
     snd (fst (k (fst (fst (m n))) (snd (fst (m n))))),
     snd (m n) ++ snd (k (fst (fst (m n))) (snd (fst (m n))))).

Definition cemit (e : CmdEvent) : Cmd unit := fun n => (tt, n, [e]).

(** The number of the next read, which is then made. *)
Definition nextRead : Cmd nat := fun n => (n, S n, [CmdReadString]).

(** A part of the set-up code run inside the command. *)
Definition sys {A} (m : IO A) : Cmd A :=
  fun n => (value m, n, map CmdSys (calls m)).

Definition cvalue {A} (m : Cmd A) (n : nat) : A := fst (fst (m n)).
Definition cnext {A} (m : Cmd A) (n : nat) : nat := snd (fst (m n)).
Definition ccalls {A} (m : Cmd A) (n : nat) : list CmdEvent := snd (m n).

Notation "'let+' x ':=' m 'in' k" := (cbind m (fun x => k))
  (at level 10, x name, m at level 100, k at level 200).
Notation "m ';;+' k" := (cbind m (fun _ => k))
  (at level 100, k at level 200, right associativity).

(** How a function that can call [log.Fatalf] ends: it returns, the process
    exits, or the function panics on an index out of range. *)
Inductive Ending (A : Type) : Type :=
| Returns (a : A)
| Exits (code : Z)
| Panics.
Arguments Returns {A} a.
Arguments Exits {A} code.
Arguments Panics {A}.

Definition fatal {A} (msg : string) : Cmd (Ending A) :=
  sys (Fatalf msg) ;;+ cret (Exits 1).

Definition newline : string := String "010"%char "".

Section CommandLine.

Variable m : Machine.
Variable host : Host.
Variable configPath : string.

Definition fileExists (path : string) : Cmd bool :=
  cemit (CmdStat path) ;;+
  cret (match os_Stat m path with None => true | Some _ => false end).

Definition loadConfig : Cmd (result Config) :=
  cemit (CmdReadInConfig configPath) ;;+
  match viper_ReadInConfig m configPath with
  | Some e => cret (Err (Errorf "error reading config file: " e))
  | None =>
      cemit CmdUnmarshal ;;+
      match viper_Unmarshal m configPath with
      | Err e => cret (Err (Errorf "error parsing config: " e))
      | Ok config => cret (Ok config)
      end
  end.

Definition promptForInput (prompt : string) : Cmd string :=
  cemit (CmdPrint prompt) ;;+
  let+ k := nextRead in
  cret (strings_TrimSpace m (stdin_ReadString m k)).

Definition createNewConfig (cmd : Command) : Cmd (result Config) :=
  cemit (CmdPrint ("Creating new configuration file..." +:+ newline)) ;;+
  let+ bastionHost :=
    (if decide (GetString cmd "bastion" = "")
     then promptForInput "Enter bastion host (e.g., ubuntu@12.34.56.78): "
     else cret (GetString cmd "bastion")) in
  let+ keyPath :=
    (if decide (GetString cmd "key" = "")
     then promptForInput "Enter SSH key path (e.g., ~/.ssh/key.pem): "
     else cret (GetString cmd "key")) in
  let+ stagingHost :=
    (if decide (GetString cmd "opensearch-staging" = "")
     then promptForInput "Enter OpenSearch host for staging environment: "
     else cret (GetString cmd "opensearch-staging")) in
  let+ productionHost :=
    (if decide (GetString cmd "opensearch-production" = "")
     then promptForInput "Enter OpenSearch host for production environment: "
     else cret (GetString cmd "opensearch-production")) in
  let config :=
    {| BastionHost := bastionHost;
       KeyPath := keyPath;
       Environments :=
         {[ "staging" := {| OpenSearchHost := stagingHost |};
            "production" := {| OpenSearchHost := productionHost |} ]} |} in
  let configDir := filepath_Dir m configPath in
  cemit (CmdMkdirAll configDir 493) ;;+
  match os_MkdirAll m configDir 493 with
  | Some e => cret (Err (Errorf "error creating config directory: " e))
  | None =>
      cemit (CmdMarshal config) ;;+
      match yaml_Marshal m config with
      | Err e => cret (Err (Errorf "error marshaling config: " e))
      | Ok yamlData =>
          cemit (CmdWriteFile configPath yamlData 420) ;;+
          match os_WriteFile m configPath yamlData 420 with
          | Some e => cret (Err (Errorf "error writing config file: " e))
          | None =>
              cemit (CmdPrint ("Configuration saved to " +:+ configPath
                               +:+ newline)) ;;+
              cret (Ok config)
          end
      end
  end.

Definition getConfig (cmd : Command) : Cmd (result Config) :=
  let+ configExists := fileExists configPath in
  if configExists then loadConfig else createNewConfig cmd.

(** The loop that prints the menu: [i] is the index of the first of
    [environments] in the slice. *)
Fixpoint printMenu (i : nat) (environments : list string) : Cmd unit :=
  match environments with
  | [] => cret tt
  | env :: rest =>
      cemit (CmdPrint (itoa (Z.of_nat (i + 1)) +:+ ". " +:+ env +:+ newline)) ;;+
      printMenu (S i) rest
  end.

Definition getEnvironment (cmd : Command) (config : Config)
  : Cmd (Ending string) :=
  let environment := GetString cmd "environment" in
  if decide (environment = "") then
    let environments := getEnvironmentKeys (Environments config) in
    if decide (length environments = 0) then
      fatal "No environments found in config file. Please recreate your config or specify parameters."
    else
      cemit (CmdPrint ("Available environments:" +:+ newline)) ;;+
      printMenu 0 environments ;;+
      cemit (CmdPrint "Select environment (enter number): ") ;;+
      cemit CmdScanln ;;+
      let choice := stdin_Scanln m in
      if decide (choice < 1 \/ choice > Z.of_nat (length environments))%Z then
        fatal "Invalid selection"
      else
        match environments !! Z.to_nat (choice - 1) with
        | Some env => cret (Returns env)
        | None => cemit CmdIndexOutOfRange ;;+ cret Panics
        end
  else cret (Returns environment).

Definition openBrowser (url : string) : Cmd unit :=
  let+ err :=
    (if decide (runtime_GOOS m = "linux") then
       cemit (CmdExecStart "xdg-open" [url]) ;;+
       cret (exec_Start m "xdg-open" [url])
     else if decide (runtime_GOOS m = "windows") then
       cemit (CmdExecStart "rundll32" ["url.dll,FileProtocolHandler"; url]) ;;+
       cret (exec_Start m "rundll32" ["url.dll,FileProtocolHandler"; url])
     else if decide (runtime_GOOS m = "darwin") then
       cemit (CmdExecStart "open" [url]) ;;+
       cret (exec_Start m "open" [url])
     else cret (Some (ErrExternal "unsupported platform"))) in
  match err with
  | Some e =>
      cemit (CmdSys (IoLog ("Failed to open browser: " +:+ error_string e))) ;;+
      cemit (CmdPrint ("Please manually open: " +:+ url +:+ newline))
  | None => cret tt
  end.

(** [runTunnel] from its first line: the configuration is loaded or
    created, the environment chosen, and the set-up code run with them.  An
    unrecovered panic ends the process with status 2. *)
Definition runTunnel_cmd (cmd : Command) : Cmd Outcome :=
  let+ r := getConfig cmd in
  match r with
  | Err e => sys (Fatalf ("Error with configuration: " +:+ error_string e))
  | Ok config =>
      let+ chosen := getEnvironment cmd config in
      match chosen with
      | Returns environment => sys (runTunnel host config environment)
      | Exits code => cret (Exited code)
      | Panics => cret (Exited 2)
      end
  end.

End CommandLine.

(** ** Reading the calls of the command *)

(** A setting of the new configuration: the flag [name] when it is given,
    else the line read [k]-th from the standard input, trimmed. *)
Definition setting (m : Machine) (cmd : Command) (name : string) (k : nat)
  : string :=
  if decide (GetString cmd name = "")
  then strings_TrimSpace m (stdin_ReadString m k)
  else GetString cmd name.

(** The number of lines (0 or 1) read for a setting. *)
Definition asked (cmd : Command) (name : string) : nat :=
  if decide (GetString cmd name = "") then 1 else 0.

(** The prompt and the read for a setting whose flag is not given. *)
Definition ask (cmd : Command) (name prompt : string) : list CmdEvent :=
  if decide (GetString cmd name = "") then [CmdPrint prompt; CmdReadString]
  else [].

Definition questions (cmd : Command) : list CmdEvent :=
  ask cmd "bastion" "Enter bastion host (e.g., ubuntu@12.34.56.78): "
  ++ ask cmd "key" "Enter SSH key path (e.g., ~/.ssh/key.pem): "
  ++ ask cmd "opensearch-staging" "Enter OpenSearch host for staging environment: "
  ++ ask cmd "opensearch-production"
       "Enter OpenSearch host for production environment: ".

(** The configuration made of the settings, the first line being read
    [n]-th. *)
Definition newConfig (m : Machine) (cmd : Command) (n : nat) : Config :=
  {| BastionHost := setting m cmd "bastion" n;
     KeyPath := setting m cmd "key" (n + asked cmd "bastion");
     Environments :=
       {[ "staging" :=
            {| OpenSearchHost :=
                 setting m cmd "opensearch-staging"
                   (n + asked cmd "bastion" + asked cmd "key") |};
          "production" :=
            {| OpenSearchHost :=
                 setting m cmd "opensearch-production"
                   (n + asked cmd "bastion" + asked cmd "key"
                    + asked cmd "opensearch-staging") |} ]} |}.

(** The reads of a line, and the calls that make the directory, marshal
    the configuration and write the file, among the calls. *)
Definition is_read (e : CmdEvent) : bool :=
  match e with CmdReadString => true | _ => false end.

Definition is_file_call (e : CmdEvent) : bool :=
  match e with
  | CmdMkdirAll _ _ | CmdMarshal _ | CmdWriteFile _ _ _ => true
  | _ => false
  end.

Definition count_cmd (p : CmdEvent -> bool) (l : list CmdEvent) : nat :=
  length (List.filter p l).

(** The command that opens a URL on an operating system, if the program
    knows one. *)
Definition browserCommand (goos url : string) : option (string * list string) :=
  if decide (goos = "linux") then Some ("xdg-open", [url])
  else if decide (goos = "windows")
       then Some ("rundll32", ["url.dll,FileProtocolHandler"; url])
  else if decide (goos = "darwin") then Some ("open", [url])
  else None.

(** The commands started among the calls. *)
Definition is_exec (e : CmdEvent) : bool :=
  match e with CmdExecStart _ _ => true | _ => false end.

(** A machine without a configuration file, at whose terminal the user
    names a bastion host without a user name. *)
Definition machine_fresh : Machine :=
  {| os_Stat := fun _ => Some (ErrExternal "no such file or directory");
     viper_ReadInConfig := fun _ => Some (ErrExternal "no such file or directory");
     viper_Unmarshal := fun _ => Err (ErrExternal "no configuration");
     stdin_ReadString := fun k =>
       match k with
       | 0 => "bastion.example.com"
       | 1 => "~/.ssh/key.pem"
       | 2 => "staging.internal"
       | _ => "production.internal"
       end;
     stdin_Scanln := 7;
     strings_TrimSpace := fun s => s;
     filepath_Dir := fun _ => "/home/u/.config/tf";
     os_MkdirAll := fun _ _ => None;
     yaml_Marshal := fun config => Ok ("bastion_host: " +:+ BastionHost config);
     os_WriteFile := fun _ _ _ => None;
     runtime_GOOS := "plan9";
     exec_Start := fun _ _ => None |}.

(** A machine with the configuration file [config_ok], whose user chooses
    the first environment of the menu. *)
Definition machine_configured : Machine :=
  {| os_Stat := fun _ => None;
     viper_ReadInConfig := fun _ => None;
     viper_Unmarshal := fun _ => Ok config_ok;
     stdin_ReadString := fun _ => "";
     stdin_Scanln := 1;
     strings_TrimSpace := fun s => s;
     filepath_Dir := fun _ => "/home/u/.config/tf";
     os_MkdirAll := fun _ _ => None;
     yaml_Marshal := fun _ => Ok "";
     os_WriteFile := fun _ _ _ => None;
     runtime_GOOS := "linux";
     exec_Start := fun _ _ => None |}.

(** Command lines: no flag; the environment only; the environment and a
    bastion host. *)
Definition cmd_plain : Command := {| Flags := ∅ |}.

Definition cmd_staging : Command :=
  {| Flags := {[ "environment" := "staging" ]} |}.

Definition cmd_staging_elsewhere : Command :=
  {| Flags := {[ "environment" := "staging"; "bastion" := "root@10.0.0.1" ]} |}.

(** The configuration path that [main] computes for the home directory
    /home/u. *)
Definition path_ok : string := "/home/u/.config/tf/opensearch.yaml".

(** The calls that end the process: an exit, and the panic of an index out
    of range. *)
Definition ends_process (e : CmdEvent) : bool :=
  match e with
  | CmdSys (IoExit _) | CmdIndexOutOfRange => true
  | _ => false
  end.

(** * Properties of the set-up code *)

Lemma value_bind {A B} (m : IO A) (k : A -> IO B) :
  value (bind m k) = value (k (value m)).
Proof. reflexivity. Qed.

Lemma calls_bind {A B} (m : IO A) (k : A -> IO B) :
  calls (bind m k) = calls m ++ calls (k (value m)).
Proof. reflexivity. Qed.

Lemma calls_Fatalf msg : calls (Fatalf msg) = [IoLog msg; IoExit 1].
Proof. reflexivity. Qed.

Lemma value_Fatalf msg : value (Fatalf msg) = Exited 1.
Proof. reflexivity. Qed.

Lemma count_calls_app p l1 l2 :
  count_calls p (l1 ++ l2) = count_calls p l1 + count_calls p l2.
Proof. unfold count_calls. rewrite List.filter_app, length_app. reflexivity. Qed.

Lemma count_calls_none (p : IOEvent -> bool) l :
  (forall e, In e l -> p e = false) -> count_calls p l = 0.
Proof.
  unfold count_calls. induction l as [|e l IH]; intros H; [reflexivity|].
  cbn [List.filter]. rewrite (H e (or_introl eq_refl)).
  apply IH. intros e' He'. apply H. by right.
Qed.

Section SetupFacts.

Variable host : Host.

(** [expandPath] makes no session call: it only logs. *)
Lemma expandPath_calls path e :
  In e (calls (expandPath host path)) -> is_session_call e = false.
Proof.
  unfold expandPath. destruct path as [|c rest]; simpl; [tauto|].
  destruct (negb _); simpl; [tauto|].
  destruct (os_UserHomeDir host); simpl; [tauto|].
  intros [<-|[]]. reflexivity.
Qed.

Lemma prepareSSHConfig_calls keyPath username e :
  In e (calls (prepareSSHConfig host keyPath username)) ->
  is_session_call e = false.
Proof.
  unfold prepareSSHConfig. rewrite calls_bind. intros H.
  apply in_app_or in H as [H|H]; [by eapply expandPath_calls|].
  revert H. rewrite calls_bind. simpl.
  destruct (os_ReadFile host _); simpl.
  - destruct (ssh_ParsePrivateKey host _); simpl;
      intros H; repeat destruct H as [<-|H]; try reflexivity; destruct H.
  - intros H; repeat destruct H as [<-|H]; try reflexivity; destruct H.
Qed.

(** What [prepareSSHConfig] returns, by the two calls that can fail. *)
Lemma prepareSSHConfig_value keyPath username :
  value (prepareSSHConfig host keyPath username) =
  match os_ReadFile host (value (expandPath host keyPath)) with
  | Err e => Err (Errorf "unable to read private key: " e)
  | Ok key =>
      match ssh_ParsePrivateKey host key with
      | Err e => Err (Errorf "unable to parse private key: " e)
      | Ok signer =>
          Ok {| User := username; Auth := [PublicKeys [signer]];
                HostKeyCallback := InsecureIgnoreHostKey;
                Timeout := (15 * Second)%Z |}
      end
  end.
Proof.
  unfold prepareSSHConfig. rewrite !value_bind. simpl.
  destruct (os_ReadFile host _); [|reflexivity].
  rewrite value_bind. simpl. destruct (ssh_ParsePrivateKey host _); reflexivity.
Qed.

(** The probing loop never returns an error, dials at most [fuel] times,
    stops at the first attempt that succeeds and pauses 500ms after every
    attempt that fails. *)
Lemma waitLoop_value port fuel i : value (waitLoop host port fuel i) = None.
Proof.
  revert i. induction fuel as [|fuel IH]; intros i; [reflexivity|].
  cbn [waitLoop]. rewrite value_bind.
  destruct (net_DialTimeout host i _ _ _); [|reflexivity].
  rewrite value_bind. apply IH.
Qed.

Lemma waitLoop_dials port fuel i :
  count_calls is_dial (calls (waitLoop host port fuel i)) <= fuel.
Proof.
  revert i. induction fuel as [|fuel IH]; intros i; [reflexivity|].
  cbn [waitLoop]. rewrite calls_bind, count_calls_app.
  destruct (net_DialTimeout host i _ _ _).
  - rewrite calls_bind, count_calls_app. specialize (IH (S i)).
    change (count_calls is_dial (calls (emit (IoDialTimeout "tcp"
      ("localhost:" +:+ itoa port) Second)))) with 1.
    change (count_calls is_dial (calls (emit (IoSleep (500 * Millisecond)%Z))))
      with 0.
    cbn [value fst emit]. lia.
  - cbv [count_calls calls bind emit ret fst snd app List.filter is_dial length].
    lia.
Qed.

Lemma waitLoop_first_success port fuel i k :
  k < fuel ->
  (forall j, j < k -> attempt_ok host port (i + j) = false) ->
  attempt_ok host port (i + k) = true ->
  calls (waitLoop host port fuel i) =
  retries port k
  ++ [IoDialTimeout "tcp" ("localhost:" +:+ itoa port) Second; IoConnClose].
Proof.
  revert i k. induction fuel as [|fuel IH]; intros i k Hk Hfail Hok; [lia|].
  cbn [waitLoop]. rewrite calls_bind. cbn [value fst emit]. destruct k as [|k].
  - unfold attempt_ok in Hok. rewrite Nat.add_0_r in Hok.
    destruct (net_DialTimeout host i _ _ _); [discriminate|reflexivity].
  - pose proof (Hfail 0 ltac:(lia)) as H0. unfold attempt_ok in H0.
    rewrite Nat.add_0_r in H0.
    destruct (net_DialTimeout host i _ _ _); [|discriminate].
    rewrite calls_bind. cbn [value fst emit calls snd retries app]. do 2 f_equal.
    apply IH; [lia| |].
    + intros j Hj. specialize (Hfail (S j) ltac:(lia)).
      by replace (S i + j) with (i + S j) by lia.
    + by replace (S i + k) with (i + S k) by lia.
Qed.

Lemma waitLoop_all_fail port fuel i :
  (forall j, j < fuel -> attempt_ok host port (i + j) = false) ->
  calls (waitLoop host port fuel i) = retries port fuel.
Proof.
  revert i. induction fuel as [|fuel IH]; intros i Hfail; [reflexivity|].
  cbn [waitLoop]. rewrite calls_bind. cbn [value fst emit].
  pose proof (Hfail 0 ltac:(lia)) as H0. unfold attempt_ok in H0.
  rewrite Nat.add_0_r in H0.
  destruct (net_DialTimeout host i _ _ _); [|discriminate].
  rewrite calls_bind. cbn [value fst emit calls snd retries app]. do 2 f_equal.
  apply IH.
  intros j Hj. specialize (Hfail (S j) ltac:(lia)).
  by replace (S i + j) with (i + S j) by lia.
Qed.

End SetupFacts.

Section SetupClaims.

Variable host : Host.

Lemma waitLoop_calls port fuel i e :
  In e (calls (waitLoop host port fuel i)) ->
  match e with
  | IoDialTimeout _ _ _ | IoConnClose | IoSleep _ => True
  | _ => False
  end.
Proof.
  revert i. induction fuel as [|fuel IH]; intros i; [intros []|].
  cbn [waitLoop]. rewrite calls_bind. cbn [value fst emit calls snd app].
  intros [<-|H]; [exact I|].
  destruct (net_DialTimeout host i _ _ _).
  - rewrite calls_bind in H. destruct H as [<-|H]; [exact I|]. by eapply IH.
  - destruct H as [<-|[]]. exact I.
Qed.

(** [startTunnel] listens first and exactly once; what follows is the
    start of the accept loop and the probing. *)
Lemma startTunnel_calls remoteHost lp rp :
  exists rest,
    calls (startTunnel host remoteHost lp rp) =
    IoNetListen "tcp" ("localhost:" +:+ itoa lp) :: rest
    /\ forall e, In e rest ->
         match e with
         | IoGoAcceptLoop | IoDialTimeout _ _ _ | IoConnClose | IoSleep _ => True
         | _ => False
         end.
Proof.
  unfold startTunnel. rewrite calls_bind. cbn [value fst emit calls snd app].
  destruct (net_Listen host _ _) as [err|].
  - exists []. split; [reflexivity|]. intros ev [].
  - eexists. split; [reflexivity|]. rewrite calls_bind.
    cbn [value fst emit calls snd app]. intros ev [<-|H]; [exact I|].
    apply waitLoop_calls in H. by destruct ev.
Qed.

(** The calls of [runTunnel] once the set-up has come to the dial of the
    bastion: those that prepare the configuration, the announcement, the
    dial itself, and then no other dial of the bastion. *)
Lemma runTunnel_dials config environment envConfig username hostname cfg :
  Environments config !! environment = Some envConfig ->
  Split (BastionHost config) "@" = [username; hostname] ->
  value (prepareSSHConfig host (KeyPath config) username) = Ok cfg ->
  exists rest,
    calls (runTunnel host config environment) =
    calls (prepareSSHConfig host (KeyPath config) username)
    ++ IoPrint ("Establishing SSH tunnel to " +:+ environment
                +:+ " environment...")
    :: IoSSHDial "tcp" (hostname +:+ ":22") cfg :: rest /\
    forall e, In e rest -> is_bastion_dial e = false.
Proof.
  intros Henv Hsplit Hcfg. unfold runTunnel. rewrite Henv, Hsplit.
  rewrite calls_bind, Hcfg, !calls_bind.
  cbn [value fst emit calls snd app]. eexists. split; [reflexivity|].
  intros e He.
  destruct (ssh_Dial host _ _ _);
    [by repeat destruct He as [<-|He]; try destruct He|].
  rewrite !calls_bind in He. cbn [value fst emit calls snd app] in He.
  destruct He as [<-|He]; [reflexivity|].
  apply in_app_or in He as [He|He].
  { destruct (startTunnel_calls (OpenSearchHost envConfig) localPort
                remotePort) as (rest & Hc & Hrest).
    rewrite Hc in He. destruct He as [<-|He]; [reflexivity|].
    apply Hrest in He. by destruct e. }
  destruct (value (startTunnel host _ _ _));
    by repeat destruct He as [<-|He]; try destruct He.
Qed.

(** C6: the configuration [prepareSSHConfig] returns has a timeout of 15
    seconds (15 000 000 000 ns) and a host key callback that accepts every
    key of every host.  [runTunnel], once the environment is found, the
    bastion setting taken apart at its [@] and that configuration prepared,
    dials the bastion: once, over tcp, on port 22 of the host named after
    the [@], with that configuration, right after the configuration is
    prepared and the dial announced; and it makes no other dial of a
    bastion, in this or in any other run. *)
Theorem C6_ssh_client_config :
  (forall keyPath username cfg,
      value (prepareSSHConfig host keyPath username) = Ok cfg ->
      User cfg = username /\
      Timeout cfg = (15 * Second)%Z /\ Timeout cfg = 15000000000%Z /\
      HostKeyCallback cfg = InsecureIgnoreHostKey /\
      forall hostname key, HostKeyCallback cfg hostname key = None)
  /\
  (forall config environment network addr cfg,
      In (IoSSHDial network addr cfg) (calls (runTunnel host config environment)) ->
      network = "tcp" /\
      (exists username hostname,
          Split (BastionHost config) "@" = [username; hostname] /\
          addr = hostname +:+ ":22" /\
          value (prepareSSHConfig host (KeyPath config) username) = Ok cfg))
  /\
  (forall config environment envConfig username hostname cfg,
      Environments config !! environment = Some envConfig ->
      Split (BastionHost config) "@" = [username; hostname] ->
      value (prepareSSHConfig host (KeyPath config) username) = Ok cfg ->
      In (IoSSHDial "tcp" (hostname +:+ ":22") cfg)
         (calls (runTunnel host config environment)) /\
      count_calls is_bastion_dial (calls (runTunnel host config environment)) = 1 /\
      (exists rest,
          calls (runTunnel host config environment) =
          calls (prepareSSHConfig host (KeyPath config) username)
          ++ IoPrint ("Establishing SSH tunnel to " +:+ environment
                      +:+ " environment...")
          :: IoSSHDial "tcp" (hostname +:+ ":22") cfg :: rest /\
          forall e, In e rest -> is_bastion_dial e = false) /\
      Timeout cfg = 15000000000%Z /\
      HostKeyCallback cfg = InsecureIgnoreHostKey).
Proof.
  split; [|split].
  - intros keyPath username cfg. rewrite prepareSSHConfig_value.
    destruct (os_ReadFile host _); [|discriminate].
    destruct (ssh_ParsePrivateKey host _); [|discriminate].
    intros [= <-]. repeat split.
  - intros config environment network addr cfg. unfold runTunnel.
    destruct (Environments config !! environment) as [envConfig|];
      [|intros H; repeat destruct H as [H|H]; discriminate || contradiction].
    destruct (Split (BastionHost config) "@") as [|username [|hostname [|]]];
      try (intros H; repeat destruct H as [H|H]; discriminate || contradiction).
    rewrite calls_bind. intros H. apply in_app_or in H as [H|H].
    { apply prepareSSHConfig_calls in H. discriminate. }
    destruct (value (prepareSSHConfig host (KeyPath config) username))
      as [sshConfig|e] eqn:Hcfg;
      [|repeat destruct H as [H|H]; discriminate || contradiction].
    rewrite !calls_bind in H. cbn [value fst emit calls snd app] in H.
    destruct H as [H|[H|H]]; [discriminate| |].
    { injection H as <- <- <-. split; [reflexivity|].
      exists username, hostname. done. }
    exfalso. destruct (ssh_Dial host _ _ _);
      [repeat destruct H as [H|H]; discriminate || contradiction|].
    rewrite !calls_bind in H. cbn [value fst emit calls snd app] in H.
    destruct H as [H|H]; [discriminate|].
    apply in_app_or in H as [H|H].
    { destruct (startTunnel_calls (OpenSearchHost envConfig) localPort remotePort)
        as (rest & Hc & Hrest).
      rewrite Hc in H. destruct H as [H|H]; [discriminate|].
      apply Hrest in H. exact H. }
    destruct (value (startTunnel host _ _ _));
      repeat destruct H as [H|H]; discriminate || contradiction.
  - intros config environment envConfig username hostname cfg Henv Hsplit Hcfg.
    destruct (runTunnel_dials _ _ _ _ _ _ Henv Hsplit Hcfg) as (rest & Hc & Hrest).
    split; [|split; [|split; [by exists rest|]]].
    + rewrite Hc. apply in_or_app. right. right. by left.
    + rewrite Hc, count_calls_app.
      rewrite (count_calls_none _ (calls (prepareSSHConfig host _ _))).
      * change (count_calls is_bastion_dial (?a :: ?b :: rest))
          with (S (count_calls is_bastion_dial rest)).
        by rewrite (count_calls_none _ rest Hrest).
      * intros e He. apply prepareSSHConfig_calls in He. by destruct e.
    + revert Hcfg. rewrite prepareSSHConfig_value.
      destruct (os_ReadFile host _); [|discriminate].
      destruct (ssh_ParsePrivateKey host _); [|discriminate].
      by intros [= <-].
Qed.

(** C7: when the key file cannot be read, or what it holds cannot be
    parsed into a signer, [prepareSSHConfig] returns an error and no
    configuration; [runTunnel] then logs it and exits with status 1 without
    having made one call of the session (no bastion dial, no listener, no
    accept loop, no browser). *)
Theorem C7_bad_key_is_fatal keyPath username :
  (is_Err (os_ReadFile host (value (expandPath host keyPath))) \/
   exists key, os_ReadFile host (value (expandPath host keyPath)) = Ok key /\
               is_Err (ssh_ParsePrivateKey host key)) ->
  exists e,
    value (prepareSSHConfig host keyPath username) = Err e /\
    forall config environment envConfig hostname,
      KeyPath config = keyPath ->
      Environments config !! environment = Some envConfig ->
      Split (BastionHost config) "@" = [username; hostname] ->
      value (runTunnel host config environment) = Exited 1 /\
      (forall ev, In ev (calls (runTunnel host config environment)) ->
                  is_session_call ev = false) /\
      exists pre,
        calls (runTunnel host config environment) =
        pre ++ [IoLog ("Failed to prepare SSH configuration: " +:+ error_string e);
                IoExit 1].
Proof.
  intros Hbad.
  assert (exists e, value (prepareSSHConfig host keyPath username) = Err e)
    as [e He].
  { rewrite prepareSSHConfig_value.
    destruct Hbad as [Hr|(key & -> & Hp)].
    - destruct (os_ReadFile host _); [destruct Hr|eauto].
    - destruct (ssh_ParsePrivateKey host key); [destruct Hp|eauto]. }
  exists e. split; [exact He|].
  intros config environment envConfig hostname <- Henv Hsplit.
  unfold runTunnel. rewrite Henv, Hsplit, value_bind, calls_bind, He.
  split; [reflexivity|]. split.
  - intros ev H. apply in_app_or in H as [H|H].
    + by eapply prepareSSHConfig_calls.
    + repeat destruct H as [<-|H]; try reflexivity. destruct H.
  - eexists. reflexivity.
Qed.

(** C8: the first call of [startTunnel] is [net.Listen] on tcp
    [localhost:<localPort>]; when that call fails, [startTunnel] returns
    the wrapped error having made no other call (no second [Listen], no
    accept loop, no probe), and a [runTunnel] that got as far as listening
    logs the error and exits with status 1 right after. *)
Theorem C8_bind_failure_is_fatal remoteHost lp rp :
  (exists rest,
      calls (startTunnel host remoteHost lp rp) =
      IoNetListen "tcp" ("localhost:" +:+ itoa lp) :: rest /\
      count_calls is_listen rest = 0) /\
  (forall e,
      net_Listen host "tcp" ("localhost:" +:+ itoa lp) = Some e ->
      startTunnel host remoteHost lp rp =
      (Some (Errorf "failed to start local listener: " e),
       [IoNetListen "tcp" ("localhost:" +:+ itoa lp)])) /\
  (forall e config environment network addr,
      net_Listen host "tcp" ("localhost:" +:+ itoa localPort) = Some e ->
      In (IoNetListen network addr) (calls (runTunnel host config environment)) ->
      value (runTunnel host config environment) = Exited 1 /\
      exists pre,
        calls (runTunnel host config environment) =
        pre ++ [IoNetListen "tcp" ("localhost:" +:+ itoa localPort);
                IoLog ("Failed to start SSH tunnel: failed to start local listener: "
                       +:+ error_string e);
                IoExit 1]).
Proof.
  split; [|split].
  - destruct (startTunnel_calls remoteHost lp rp) as (rest & Hc & Hrest).
    exists rest. split; [exact Hc|]. unfold count_calls.
    clear Hc. induction rest as [|ev rest IH]; [reflexivity|].
    cbn [List.filter]. pose proof (Hrest ev (or_introl eq_refl)) as Hev.
    destruct ev; try destruct Hev; cbn [is_listen];
      apply IH; intros ev' Hin; apply Hrest; by right.
  - intros e He. unfold startTunnel. rewrite He. reflexivity.
  - intros e config environment network addr He. unfold runTunnel.
    destruct (Environments config !! environment) as [envConfig|];
      [|intros H; repeat destruct H as [H|H]; discriminate || contradiction].
    destruct (Split (BastionHost config) "@") as [|username [|hostname [|]]];
      try (intros H; repeat destruct H as [H|H]; discriminate || contradiction).
    rewrite calls_bind, value_bind. intros H. apply in_app_or in H as [H|H].
    { apply prepareSSHConfig_calls in H. discriminate. }
    destruct (value (prepareSSHConfig host (KeyPath config) username))
      as [sshConfig|e'] eqn:Hcfg;
      [|repeat destruct H as [H|H]; discriminate || contradiction].
    revert H. rewrite !calls_bind, !value_bind.
    cbn [value fst emit calls snd app].
    destruct (ssh_Dial host _ _ _);
      [intros H; repeat destruct H as [H|H]; discriminate || contradiction|].
    intros _. rewrite !calls_bind, !value_bind.
    cbn [value fst emit calls snd app].
    assert (Hst : startTunnel host (OpenSearchHost envConfig) localPort remotePort
                  = (Some (Errorf "failed to start local listener: " e),
                     [IoNetListen "tcp" ("localhost:" +:+ itoa localPort)]))
      by (unfold startTunnel; rewrite He; reflexivity).
    rewrite Hst. cbn [value fst emit calls snd app ret].
    split; [reflexivity|].
    exists (calls (prepareSSHConfig host (KeyPath config) username)
            ++ [IoPrint ("Establishing SSH tunnel to " +:+ environment
                         +:+ " environment...");
                IoSSHDial "tcp" (hostname +:+ ":22") sshConfig;
                IoSignalNotify]).
    rewrite <- !app_assoc. reflexivity.
Qed.

(** C9: [waitForTunnelReady] never returns an error; it dials the local
    port at most 5 times; it stops at the first attempt that succeeds,
    closing the probing connection; every failed attempt is followed by a
    pause of 500ms; and a [startTunnel] whose listener is bound returns no
    error whatever the probes answer. *)
Theorem C9_readiness_probe port :
  value (waitForTunnelReady host port) = None /\
  count_calls is_dial (calls (waitForTunnelReady host port)) <= 5 /\
  (forall k, k < 5 ->
      (forall j, j < k -> attempt_ok host port j = false) ->
      attempt_ok host port k = true ->
      calls (waitForTunnelReady host port) =
      retries port k
      ++ [IoDialTimeout "tcp" ("localhost:" +:+ itoa port) Second; IoConnClose]) /\
  ((forall j, j < 5 -> attempt_ok host port j = false) ->
      calls (waitForTunnelReady host port) = retries port 5) /\
  (forall remoteHost rp,
      net_Listen host "tcp" ("localhost:" +:+ itoa port) = None ->
      value (startTunnel host remoteHost port rp) = None).
Proof.
  unfold waitForTunnelReady. repeat split.
  - apply waitLoop_value.
  - apply waitLoop_dials.
  - intros k Hk Hfail Hok. by apply waitLoop_first_success.
  - intros Hfail. by apply waitLoop_all_fail.
  - intros remoteHost rp Hl. unfold startTunnel. rewrite Hl.
    rewrite !value_bind. apply waitLoop_value.
Qed.

End SetupClaims.

(** The claims of the set-up code at concrete hosts. *)

Lemma C6_ssh_client_config_witness :
  In (IoSSHDial "tcp" "12.34.56.78:22"
        {| User := "ubuntu"; Auth := [PublicKeys [MkSigner "PEM"]];
           HostKeyCallback := InsecureIgnoreHostKey;
           Timeout := 15000000000%Z |})
     (calls (runTunnel host_ok config_ok "staging")) /\
  count_calls is_bastion_dial (calls (runTunnel host_ok config_ok "staging")) = 1.
Proof.
  destruct (proj2 (proj2 (C6_ssh_client_config host_ok)) config_ok "staging"
              {| OpenSearchHost := "os.internal" |} "ubuntu" "12.34.56.78"
              {| User := "ubuntu"; Auth := [PublicKeys [MkSigner "PEM"]];
                 HostKeyCallback := InsecureIgnoreHostKey;
                 Timeout := 15000000000%Z |})
    as (Hin & Hcount & _).
  - vm_compute. reflexivity.
  - vm_compute. reflexivity.
  - vm_compute. reflexivity.
  - split; [exact Hin | exact Hcount].
Defined.

Lemma C7_bad_key_is_fatal_witness :
  exists e,
    value (prepareSSHConfig host_bad_key "~/.ssh/key.pem" "ubuntu") = Err e /\
    value (runTunnel host_bad_key config_ok "staging") = Exited 1.
Proof.
  destruct (C7_bad_key_is_fatal host_bad_key "~/.ssh/key.pem" "ubuntu")
    as (e & He & Hrun).
  - right. exists "not a key". split; [reflexivity | exact I].
  - exists e. split; [exact He|].
    apply (Hrun config_ok "staging" {| OpenSearchHost := "os.internal" |}
                "12.34.56.78"); reflexivity.
Defined.

Lemma C8_bind_failure_is_fatal_witness :
  value (runTunnel host_port_in_use config_ok "staging") = Exited 1.
Proof.
  apply (proj2 (proj2 (C8_bind_failure_is_fatal host_port_in_use "os.internal"
                         localPort remotePort))
           (ErrExternal "bind: address already in use") config_ok "staging"
           "tcp" "localhost:5602").
  - reflexivity.
  - vm_compute. tauto.
Defined.

Lemma C9_readiness_probe_witness :
  calls (waitForTunnelReady host_ok 5602) =
  [IoDialTimeout "tcp" "localhost:5602" 1000000000%Z; IoSleep 500000000%Z;
   IoDialTimeout "tcp" "localhost:5602" 1000000000%Z; IoSleep 500000000%Z;
   IoDialTimeout "tcp" "localhost:5602" 1000000000%Z; IoConnClose]
  /\ calls (waitForTunnelReady host_port_in_use 5602) = retries 5602 5
  /\ value (waitForTunnelReady host_port_in_use 5602) = None.
Proof.
  split; [|split].
  - apply (proj1 (proj2 (proj2 (C9_readiness_probe host_ok 5602))) 2).
    + lia.
    + intros j Hj. destruct j as [|[|j]]; [reflexivity|reflexivity|lia].
    + reflexivity.
  - apply (proj1 (proj2 (proj2 (proj2 (C9_readiness_probe host_port_in_use 5602))))).
    intros j _. reflexivity.
  - apply (C9_readiness_probe host_port_in_use 5602).
Defined.

(** ** Properties of the goroutines *)

Lemma run_app s ls1 ls2 :
  run s (ls1 ++ ls2) =
  match run s ls1 with Some s' => run s' ls2 | None => None end.
Proof.
  revert s. induction ls1 as [|l ls1 IH]; intros s; [reflexivity|].
  cbn [run app]. destruct (step s l); [apply IH | reflexivity].
Qed.

Lemma run_reachable_from s ls s' :
  reachable s -> run s ls = Some s' -> reachable s'.
Proof.
  revert s. induction ls as [|l ls IH]; intros s Hs; cbn [run].
  - by intros [= <-].
  - destruct (step s l) as [s1|] eqn:Hstep; [|discriminate].
    apply IH. by eapply reachable_step.
Qed.

Lemma run_reachable ls s : run init ls = Some s -> reachable s.
Proof. apply run_reachable_from, reachable_init. Qed.

(** Case analysis on a step. *)
Ltac step_inv H :=
  unfold step in H;
  destruct (status _) eqn:?Hstatus in H; try discriminate H;
  match type of H with
  | context [owner ?l] => destruct l; cbn [owner] in H
  end;
  unfold step_control, step_accept, step_teardown, step_handler, step_copy in H;
  repeat (match type of H with
          | context [match ?x with _ => _ end] => destruct x eqn:?
          end; try discriminate H);
  injection H as <-.

(** Every step adds exactly one event to the log. *)
Lemma step_log s l s' :
  step s l = Some s' -> exists e, log s' = e :: log s.
Proof. intros H. step_inv H; cbn; eauto. Qed.

(** An event whose step needs [e1] in the log comes after [e1]. *)
Lemma precedes_intro (e1 e2 : Event) :
  (forall s l s', reachable s -> step s l = Some s' ->
                  log s' = e2 :: log s -> In e1 (log s)) ->
  forall s, reachable s -> precedes e1 e2 (log s).
Proof.
  intros Hguard s Hs. induction Hs as [|s l s' Hs IH Hstep].
  - intros [|? ?] older; discriminate.
  - destruct (step_log _ _ _ Hstep) as [e He].
    intros newer older Heq. rewrite He in Heq.
    destruct newer as [|e' newer]; cbn in Heq.
    + injection Heq as -> <-. by eapply Hguard.
    + injection Heq as _ Heq. by eapply IH.
Qed.

(** Case analysis on the program counters the goal still looks at. *)
Ltac goal_pcs :=
  repeat match goal with
         | |- context [match sig_pc ?s with _ => _ end] => destruct (sig_pc s) eqn:?
         | |- context [match main_pc ?s with _ => _ end] => destruct (main_pc s) eqn:?
         | |- context [match acc_pc ?s with _ => _ end] => destruct (acc_pc s) eqn:?
         | |- context [match tear_pc ?s with _ => _ end] => destruct (tear_pc s) eqn:?
         end.

Lemma inv_cancel_reachable s : reachable s -> inv_cancel s.
Proof.
  induction 1 as [|s l s' Hs IH Hstep].
  - repeat split; cbn; discriminate.
  - unfold inv_cancel in *. destruct IH as (I1 & I2 & I3 & I4 & I5).
    step_inv Hstep; cbn; repeat apply conj; goal_pcs;
      cbn in *; try tauto; try congruence; intuition congruence.
Qed.

Lemma count_event_cons e e' tr :
  count_event e (e' :: tr) =
  (if decide (e' = e) then 1 else 0) + count_event e tr.
Proof.
  unfold count_event. cbn [List.filter]. unfold bool_decide.
  destruct (decide_rel eq e' e); destruct (decide (e' = e)); try done.
Qed.

Lemma count_event_absent e tr : ~ In e tr -> count_event e tr = 0.
Proof.
  induction tr as [|e' tr IH]; [reflexivity|]. intros Hn.
  rewrite count_event_cons, IH by (intros ?; apply Hn; by right).
  destruct (decide (e' = e)) as [->|]; [|reflexivity].
  destruct Hn. by left.
Qed.

Lemma hpc_set_copy d pc h : hpc (set_copy d pc h) = hpc h.
Proof. by destruct d. Qed.

Lemma done_len_set_copy d pc h : done_len (set_copy d pc h) = done_len h.
Proof. by destruct d. Qed.

Lemma copy_of_set_copy d pc h d' :
  copy_of (set_copy d pc h) d' = if decide (d = d') then pc else copy_of h d'.
Proof. by destruct d, d'. Qed.

(** After a step, the handler table is the old one, the old one with the
    entry of the goroutine that moved replaced, or the old one with the
    handler of a new connection at its end. *)
Ltac lookup_cases IH c0 :=
  lazymatch goal with
  | |- context [<[?c := ?h]> (handlers ?s) !! c0] =>
      destruct (decide (c = c0)) as [<-|?];
      [ rewrite list_lookup_insert_eq by (eapply lookup_lt_Some; eassumption);
        specialize (IH c)
      | rewrite list_lookup_insert_ne by assumption; specialize (IH c0) ]
  | |- context [(handlers ?s ++ [new_handler]) !! c0] =>
      destruct (lt_eq_lt_dec c0 (length (handlers s))) as [[?| ->]|?];
      [ rewrite lookup_app_l by assumption; specialize (IH c0)
      | rewrite list_lookup_middle by reflexivity;
        specialize (IH (length (handlers s)));
        rewrite (lookup_ge_None_2 (handlers s) (length (handlers s))) in IH
          by reflexivity
      | rewrite (lookup_ge_None_2 (_ ++ _) c0)
          by (rewrite length_app; cbn; lia);
        specialize (IH c0);
        rewrite (lookup_ge_None_2 (handlers s) c0) in IH by lia ]
  | |- _ => specialize (IH c0)
  end;
  repeat match goal with
         | H : handlers ?s !! ?c = _ |- _ => rewrite H in IH
         end.

Lemma inv_reg_reachable s : reachable s -> inv_reg s.
Proof.
  induction 1 as [|s l s' Hs IH Hstep].
  - intros c. cbn. rewrite lookup_nil. intros [].
  - unfold inv_reg, tracked in *. step_inv Hstep; cbn; intros c0;
      lookup_cases IH c0; cbn in *;
      try match goal with
          | |- context [match handlers ?s !! ?c with _ => _ end] =>
              destruct (handlers s !! c) eqn:?
          end;
      rewrite ?count_event_cons; repeat case_decide; try discriminate;
      cbn in *; rewrite ?in_app_iff; cbn; try (intuition congruence).
    all: rewrite ?hpc_set_copy; try (intuition congruence).
    destruct IH as [[_ Hn]|[Hc _]]; [|congruence].
    rewrite (count_event_absent _ _ Hn). right. intuition (auto; congruence).
Qed.


Lemma inv_hwf_reachable s : reachable s -> inv_hwf s.
Proof.
  induction 1 as [|s l s' Hs IH Hstep].
  - intros c. cbn. by rewrite lookup_nil.
  - unfold inv_hwf in *. step_inv Hstep; cbn; intros c0;
      lookup_cases IH c0; cbn in *; try assumption; try exact I;
      try (unfold hwf in *; cbn; repeat split; congruence).
    all: unfold hwf, ndone in *.
    all: try match goal with d : Dir |- _ => destruct d end.
    all: cbn in *.
    all: match goal with
         | H : handlers _ !! _ = Some ?h |- _ =>
             destruct (hpc h); try discriminate;
             destruct (copy_r2l h); try discriminate;
             destruct (copy_l2r h); try discriminate
         end.
    all: cbn in *; intuition (try congruence; try lia).
Qed.


Lemma copy_of_set_done_len n h d : copy_of (set_done_len n h) d = copy_of h d.
Proof. by destruct d. Qed.





Lemma precedes_In e1 e2 tr : precedes e1 e2 tr -> In e2 tr -> In e1 tr.
Proof.
  intros Hp Hin. apply in_split in Hin as (newer & older & ->).
  apply in_or_app. right. right. by eapply Hp.
Qed.

(** The registration comes before the dial. *)
Lemma register_precedes_dial s c ok :
  reachable s -> precedes (EvRegister c) (EvDial c ok) (log s).
Proof.
  apply precedes_intro. clear s. intros s l s' Hs Hstep Hlog.
  pose proof (inv_reg_reachable s Hs) as Hreg.
  step_inv Hstep; cbn in Hlog; try discriminate Hlog;
    injection Hlog as -> ?; subst;
    match goal with
    | H : handlers s !! ?c = Some _ |- _ =>
        specialize (Hreg c); rewrite H in Hreg
    end;
    (destruct Hreg as [[? _]|(_ & _ & ? & _)]; [congruence | assumption]).
Qed.

Lemma registered_tracked s c :
  reachable s -> In (EvRegister c) (log s) -> tracked s c.
Proof.
  intros Hs Hin. pose proof (inv_reg_reachable s Hs c) as Hreg.
  destruct (handlers s !! c); [|done].
  destruct Hreg as [[_ ?]|(_ & _ & _ & ?)]; done.
Qed.




(** Case analysis on a step whose label is known. *)
Ltac step_inv_at H :=
  unfold step in H;
  destruct (status _) eqn:?Hstatus in H; try discriminate H;
  cbn [owner] in H;
  unfold step_control, step_accept, step_teardown, step_handler, step_copy in H;
  cbv beta iota in H;
  repeat (match type of H with
          | context [match ?x with _ => _ end] => destruct x eqn:?
          end; try discriminate H);
  injection H as <-.

Lemma lookup_set_handler s c h h0 e :
  handlers s !! c = Some h0 ->
  handlers (record e (set_handler c h s)) !! c = Some h.
Proof.
  intros Hl. cbn. apply list_lookup_insert_eq. by eapply lookup_lt_Some.
Qed.

Lemma step_handler_eq s c h l :
  status s = Running -> handlers s !! c = Some h -> owner l = OwnHandler c ->
  step s l = step_handler s c h l.
Proof. intros Hst Hl Hown. unfold step. by rewrite Hst, Hown, Hl. Qed.

Lemma step_copy_eq s c h d l :
  status s = Running -> handlers s !! c = Some h -> owner l = OwnCopy c d ->
  step s l = step_copy s c h d l.
Proof. intros Hst Hl Hown. unfold step. by rewrite Hst, Hown, Hl. Qed.



Lemma inv_acc_reachable s : reachable s -> inv_acc s.
Proof.
  induction 1 as [|s l s' Hs IH Hstep].
  - intros [].
  - unfold inv_acc in *. step_inv Hstep; cbn; goal_pcs; cbn in *;
      intuition congruence.
Qed.

Lemma inv_conns_reachable s : reachable s -> inv_conns s.
Proof.
  induction 1 as [|s l s' Hs IH Hstep].
  - repeat split; cbn; try lia; try tauto; try discriminate.
  - unfold inv_conns in *. destruct IH as (I1 & I2 & I3 & I4).
    step_inv Hstep; cbn; rewrite ?length_insert, ?length_app;
      (split; [|split; [|split]]); cbn; intros;
      try match goal with
          | H : In _ (_ ++ _) |- _ => apply in_app_or in H; cbn in H
          end;
      try match goal with
          | H : TearClose _ = TearClose _ |- _ => injection H as ?; subst
          end;
      try lia; try discriminate; eauto 6 using in_eq, in_cons.
    + destruct (decide (c = length (handlers s))) as [->|];
        [by left | right; apply I4; lia].
    + rewrite Heql. cbn. lia.
    + rewrite Heql in H. destruct H.
    + cbn in I1. lia.
    + destruct H as [H|[->|[]]]; [right; by apply I2 | by left].
Qed.


(** C10: in every run the registration of a connection comes before its
    dial, whatever the dial answers; so a connection that was dialled, with
    or without success, is tracked by the registry, as is every connection
    whose handler is past its send on [conns]. *)
Theorem C10_registered_before_dial ls s :
  run init ls = Some s ->
  (forall c ok, precedes (EvRegister c) (EvDial c ok) (log s)) /\
  (forall c ok, In (EvDial c ok) (log s) -> tracked s c) /\
  (forall c h, handlers s !! c = Some h -> hpc h <> HSend -> tracked s c).
Proof.
  intros Hrun. pose proof (run_reachable _ _ Hrun) as Hs. split; [|split].
  - intros c ok. by apply register_precedes_dial.
  - intros c ok Hin. apply registered_tracked; [done|].
    eapply precedes_In; [by apply register_precedes_dial | exact Hin].
  - intros c h Hl Hpc. pose proof (inv_reg_reachable s Hs c) as Hreg.
    rewrite Hl in Hreg. destruct Hreg as [[? _]|(_ & _ & _ & ?)]; done.
Qed.

(** C5: an accept error takes the loop to its check of the context and
    nowhere else; the check ends the loop without a log line when the
    context is cancelled, and otherwise logs the error and goes back to
    accepting; the loop never returns before the cancellation, nor without
    an accept error; and once it has returned it accepts no more. *)
Theorem C5_accept_error ls s :
  run init ls = Some s ->
  (forall s1,
      step s (LAccept false) = Some s1 ->
      acc_pc s1 = AccCheck /\ log s1 = EvAcceptError :: log s /\
      (forall l, owner l = OwnAccept -> is_Some (step s1 l) -> l = LAcceptCheck) /\
      exists s2,
        step s1 LAcceptCheck = Some s2 /\
        if cancelled s1
        then acc_pc s2 = AccDeferConns /\ log s2 = EvAcceptLoopReturn :: log s1
        else acc_pc s2 = AccAccept /\ log s2 = EvLog LogAcceptError :: log s1) /\
  precedes (EvCancel GSignal) EvAcceptLoopReturn (log s) /\
  precedes EvAcceptError EvAcceptLoopReturn (log s) /\
  precedes EvAcceptError (EvLog LogAcceptError) (log s) /\
  (In EvAcceptLoopReturn (log s) -> forall ok, step s (LAccept ok) = None).
Proof.
  intros Hrun. pose proof (run_reachable _ _ Hrun) as Hs.
  split; [|split; [|split; [|split]]].
  - intros s1 Hstep. step_inv_at Hstep. cbn.
    split; [reflexivity|]. split; [reflexivity|]. split.
    + intros l Hown [s' Hstep]. unfold step in Hstep. cbn in Hstep.
      rewrite Hstatus, Hown in Hstep. unfold step_accept in Hstep. cbn in Hstep.
      destruct l; try discriminate Hown; try discriminate Hstep; try reflexivity.
      destruct ok; discriminate Hstep.
    + unfold step. cbn. rewrite Hstatus. destruct (cancelled s); eauto.
  - clear Hrun. revert s Hs. apply precedes_intro. intros s l s' Hs Hstep Hlog.
    destruct (inv_cancel_reachable s Hs) as (Hc & _).
    step_inv Hstep; cbn in Hlog; try discriminate Hlog. by apply Hc.
  - clear Hrun. revert s Hs. apply precedes_intro. intros s l s' Hs Hstep Hlog.
    pose proof (inv_acc_reachable s Hs) as Ha. unfold inv_acc in Ha.
    step_inv Hstep; cbn in Hlog; try discriminate Hlog. tauto.
  - clear Hrun. revert s Hs. apply precedes_intro. intros s l s' Hs Hstep Hlog.
    pose proof (inv_acc_reachable s Hs) as Ha. unfold inv_acc in Ha.
    step_inv Hstep; cbn in Hlog; try discriminate Hlog. tauto.
  - intros Hin ok. pose proof (inv_acc_reachable s Hs) as Ha.
    unfold inv_acc in Ha. unfold step. destruct (status s); try reflexivity.
    cbn. unfold step_accept.
    destruct (acc_pc s); try tauto; by destruct ok.
Qed.



(** C2: after a successful dial the handler starts both copiers and then
    waits; a copier that ends, on EOF or on an error, sends on [done]
    without blocking; the waiting handler can go on exactly when one of the
    two copiers has sent; and it then closes the remote and the local
    connection and returns, whatever the other copier is doing. *)
Theorem C2_first_copy_wins ls s :
  run init ls = Some s ->
  (forall c s1,
      step s (LHDial c true) = Some s1 ->
      exists s2,
        run s1 [LHGo c; LHGo c] = Some s2 /\
        log s2 = EvGoCopy c LocalToRemote :: EvGoCopy c RemoteToLocal
                 :: EvDial c true :: log s /\
        exists h, handlers s2 !! c = Some h /\ hpc h = HWait /\
                  copy_r2l h = CCopying /\ copy_l2r h = CCopying /\
                  done_len h = 0) /\
  (forall c h d failed,
      status s = Running -> handlers s !! c = Some h ->
      copy_of h d = CCopying ->
      exists s',
        run s (LCopyEnd c d failed
               :: (if failed then [LCopyLog c d] else []) ++ [LCopyDone c d])
        = Some s' /\
        exists h', handlers s' !! c = Some h' /\ copy_of h' d = CDone /\
                   copy_of h' (other d) = copy_of h (other d) /\
                   hpc h' = hpc h /\ done_len h' = S (done_len h)) /\
  (forall c h,
      status s = Running -> handlers s !! c = Some h -> hpc h = HWait ->
      copy_r2l h <> CNotStarted /\ copy_l2r h <> CNotStarted /\
      (is_Some (step s (LHWait c)) <->
       copy_r2l h = CDone \/ copy_l2r h = CDone) /\
      (forall d,
          copy_of h d = CDone ->
          exists s',
            run s [LHWait c; LHCloseRemote c; LHCloseLocal c] = Some s' /\
            log s' = EvLocalClose c (GHandler c) :: EvRemoteClose c
                     :: EvPairDone c :: log s /\
            exists h', handlers s' !! c = Some h' /\ hpc h' = HDone /\
                       copy_of h' (other d) = copy_of h (other d))).
Proof.
  intros Hrun. pose proof (run_reachable _ _ Hrun) as Hs.
  pose proof (inv_hwf_reachable s Hs) as Hwf. split; [|split].
  - intros c s1 Hstep. step_inv_at Hstep.
    rename Heqo into Hl. rename Heqh0 into Hpc.
    specialize (Hwf c). rewrite Hl in Hwf. unfold hwf in Hwf.
    rewrite Hpc in Hwf. destruct Hwf as (Hr & Hlr & Hd).
    set (s1 := record (EvDial c true) (set_handler c (set_hpc HGo1 h) s)).
    set (h2 := set_copy RemoteToLocal CCopying (set_hpc HGo2 (set_hpc HGo1 h))).
    set (s2 := record (EvGoCopy c RemoteToLocal) (set_handler c h2 s1)).
    set (h3 := set_copy LocalToRemote CCopying (set_hpc HWait h2)).
    set (s3 := record (EvGoCopy c LocalToRemote) (set_handler c h3 s2)).
    assert (Hl1 : handlers s1 !! c = Some (set_hpc HGo1 h))
      by (by eapply lookup_set_handler).
    assert (Hl2 : handlers s2 !! c = Some h2)
      by (by eapply lookup_set_handler).
    assert (E1 : step s1 (LHGo c) = Some s2)
      by (by rewrite (step_handler_eq s1 c _ (LHGo c) Hstatus Hl1 eq_refl)).
    assert (E2 : step s2 (LHGo c) = Some s3)
      by (by rewrite (step_handler_eq s2 c _ (LHGo c) Hstatus Hl2 eq_refl)).
    exists s3. split; [cbn [run]; by rewrite E1, E2|]. split; [reflexivity|].
    exists h3. split; [by eapply lookup_set_handler|]. by repeat split.
  - intros c h d failed Hstatus Hl Hcopy.
    set (h1 := set_copy d (if failed then CLog else CSend) h).
    set (s1 := record (EvCopyEnd c d failed) (set_handler c h1 s)).
    set (h2 := set_copy d CSend h1).
    set (s2 := record (EvLog (LogCopyError c d)) (set_handler c h2 s1)).
    set (h3 := set_done_len (S (done_len h)) (set_copy d CDone h)).
    assert (E1 : step s (LCopyEnd c d failed) = Some s1).
    { rewrite (step_copy_eq s c h d (LCopyEnd c d failed) Hstatus Hl eq_refl).
      unfold step_copy. rewrite Hcopy. by destruct failed. }
    assert (Hl1 : handlers s1 !! c = Some h1) by (by eapply lookup_set_handler).
    assert (Hl2 : handlers s2 !! c = Some h2) by (by eapply lookup_set_handler).
    destruct failed; cbn [app run]; rewrite E1.
    + assert (E2 : step s1 (LCopyLog c d) = Some s2).
      { rewrite (step_copy_eq s1 c h1 d (LCopyLog c d) Hstatus Hl1 eq_refl).
        unfold step_copy, h1. rewrite copy_of_set_copy. by case_decide. }
      rewrite E2. rewrite (step_copy_eq s2 c h2 d (LCopyDone c d) Hstatus Hl2 eq_refl).
      unfold step_copy, h2. rewrite copy_of_set_copy. case_decide; [|done].
      eexists. split; [reflexivity|]. eexists.
      split; [by eapply lookup_set_handler|].
      rewrite !copy_of_set_done_len, !copy_of_set_copy, !done_len_set_copy.
      cbn. rewrite !hpc_set_copy.
      repeat case_decide; try done; repeat split; by destruct d.
    + rewrite (step_copy_eq s1 c h1 d (LCopyDone c d) Hstatus Hl1 eq_refl).
      unfold step_copy, h1. rewrite copy_of_set_copy. case_decide; [|done].
      eexists. split; [reflexivity|]. eexists.
      split; [by eapply lookup_set_handler|].
      rewrite !copy_of_set_done_len, !copy_of_set_copy, !done_len_set_copy.
      cbn. rewrite !hpc_set_copy.
      repeat case_decide; try done; repeat split; by destruct d.
  - intros c h Hstatus Hl Hpc. specialize (Hwf c). rewrite Hl in Hwf.
    unfold hwf, ndone in Hwf. rewrite Hpc in Hwf. destruct Hwf as (Hr & Hlr & Hd).
    split; [exact Hr|]. split; [exact Hlr|]. split.
    + rewrite (step_handler_eq s c h (LHWait c) Hstatus Hl eq_refl).
      unfold step_handler. rewrite Hpc.
      destruct (copy_r2l h), (copy_l2r h); cbn in Hd; rewrite Hd;
        split; intros H; try (by destruct H); try (by eauto);
        try (destruct H; discriminate).
    + intros d Hdone.
      assert (exists n, done_len h = S n) as [n Hn].
      { destruct d; cbn in Hdone; rewrite Hdone in Hd; cbn in Hd; eauto.
        rewrite Nat.add_1_r in Hd. eauto. }
      set (h1 := set_done_len n (set_hpc HCloseRemote h)).
      set (s1 := record (EvPairDone c) (set_handler c h1 s)).
      set (s2 := record (EvRemoteClose c) (set_handler c (set_hpc HCloseLocal h1) s1)).
      set (s3 := record (EvLocalClose c (GHandler c))
                   (set_handler c (set_hpc HDone (set_hpc HCloseLocal h1)) s2)).
      assert (Hl1 : handlers s1 !! c = Some h1) by (by eapply lookup_set_handler).
      assert (Hl2 : handlers s2 !! c = Some (set_hpc HCloseLocal h1))
        by (by eapply lookup_set_handler).
      assert (E1 : step s (LHWait c) = Some s1).
      { rewrite (step_handler_eq s c h (LHWait c) Hstatus Hl eq_refl).
        unfold step_handler. by rewrite Hpc, Hn. }
      assert (E2 : step s1 (LHCloseRemote c) = Some s2)
        by (by rewrite (step_handler_eq s1 c _ (LHCloseRemote c) Hstatus Hl1 eq_refl)).
      assert (E3 : step s2 (LHCloseLocal c) = Some s3)
        by (by rewrite (step_handler_eq s2 c _ (LHCloseLocal c) Hstatus Hl2 eq_refl)).
      exists s3. split; [cbn [run]; by rewrite E1, E2, E3|].
      split; [reflexivity|]. eexists.
      split; [by eapply lookup_set_handler|]. split; [reflexivity|].
      by destruct d.
Qed.

(** The claims on the goroutines, at concrete runs. *)

Lemma C2_first_copy_wins_witness :
  exists s',
    run (state_after one_copier_done)
        [LHWait 0; LHCloseRemote 0; LHCloseLocal 0] = Some s' /\
    exists h', handlers s' !! 0 = Some h' /\ hpc h' = HDone /\
               copy_l2r h' = CCopying.
Proof.
  destruct (C2_first_copy_wins one_copier_done (state_after one_copier_done))
    as (_ & _ & H); [vm_compute; reflexivity|].
  destruct (H 0 {| hpc := HWait; copy_r2l := CDone; copy_l2r := CCopying;
                   done_len := 1 |})
    as (_ & _ & _ & Hret); [vm_compute; reflexivity ..|].
  destruct (Hret RemoteToLocal eq_refl) as (s' & Hr & _ & h' & Hl & Hpc & Hc).
  exists s'. split; [exact Hr|]. exists h'. repeat split; assumption.
Defined.


Lemma C5_accept_error_witness :
  acc_pc (state_after [LSignal; LSigCancel; LAccept false]) = AccCheck /\
  exists s2,
    step (state_after [LSignal; LSigCancel; LAccept false]) LAcceptCheck
    = Some s2 /\
    acc_pc s2 = AccDeferConns /\
    log s2 = [EvAcceptLoopReturn; EvAcceptError; EvCancel GSignal; EvSignal].
Proof.
  destruct (C5_accept_error [LSignal; LSigCancel]
              (state_after [LSignal; LSigCancel]))
    as (H & _); [vm_compute; reflexivity|].
  destruct (H (state_after [LSignal; LSigCancel; LAccept false]))
    as (Hpc & _ & _ & s2 & Hstep & Hs2); [vm_compute; reflexivity|].
  split; [exact Hpc|]. exists s2. split; [exact Hstep|].
  change (cancelled (state_after [LSignal; LSigCancel; LAccept false]))
    with true in Hs2.
  destruct Hs2 as [Ha Hl]. split; [exact Ha|]. rewrite Hl. vm_compute.
  reflexivity.
Defined.

Lemma C10_registered_before_dial_witness :
  precedes (EvRegister 0) (EvDial 0 false)
           (log (state_after (one_registered ++ [LHDial 0 false]))) /\
  tracked (state_after (one_registered ++ [LHDial 0 false])) 0.
Proof.
  destruct (C10_registered_before_dial (one_registered ++ [LHDial 0 false])
              (state_after (one_registered ++ [LHDial 0 false])))
    as (Hp & Ht & _); [vm_compute; reflexivity|].
  split; [apply Hp|]. apply (Ht 0 false). vm_compute. tauto.
Defined.

(** * Further properties of the set-up code *)

Lemma Split_nonempty s sep : Split s sep <> [].
Proof.
  destruct s as [|c rest]; cbn; [done|].
  destruct (Ascii.eqb c sep); [done|]. by destruct (Split rest sep).
Qed.

Lemma Split_length s sep : length (Split s sep) = S (count_char sep s).
Proof.
  induction s as [|c rest IH]; cbn; [reflexivity|].
  destruct (Ascii.eqb c sep); cbn; [by rewrite IH|].
  destruct (Split rest sep) eqn:E; [by destruct (Split_nonempty rest sep)|].
  exact IH.
Qed.




Section SetupExtras.

Variable host : Host.

Lemma expandPath_log path :
  calls (expandPath host path) = [] \/
  exists msg, calls (expandPath host path) = [IoLog msg].
Proof.
  unfold expandPath. destruct path as [|c rest]; [by left|].
  destruct (negb _); [by left|].
  destruct (os_UserHomeDir host); [by left|]. right. by eexists.
Qed.

(** The calls of [prepareSSHConfig], in their order. *)
Lemma prepareSSHConfig_run keyPath username :
  calls (prepareSSHConfig host keyPath username) =
  calls (expandPath host keyPath)
  ++ IoReadFile (value (expandPath host keyPath))
  :: match os_ReadFile host (value (expandPath host keyPath)) with
     | Ok key => [IoParsePrivateKey key]
     | Err _ => []
     end.
Proof.
  unfold prepareSSHConfig. rewrite !calls_bind. f_equal.
  cbn [emit calls snd value fst app]. f_equal.
  destruct (os_ReadFile host _); [|reflexivity].
  rewrite calls_bind. cbn [emit calls snd value fst app].
  by destruct (ssh_ParsePrivateKey host _).
Qed.

(** What [prepareSSHConfig] calls is a log line, the read of the key file
    and the parsing of the key, and nothing else. *)
Lemma prepareSSHConfig_quiet keyPath username e :
  In e (calls (prepareSSHConfig host keyPath username)) ->
  match e with
  | IoLog _ | IoReadFile _ | IoParsePrivateKey _ => True
  | _ => False
  end.
Proof.
  rewrite prepareSSHConfig_run. intros H. apply in_app_or in H as [H|H].
  - destruct (expandPath_log keyPath) as [E|[msg E]]; rewrite E in H.
    + destruct H.
    + by destruct H as [<-|[]].
  - destruct H as [<-|H]; [done|].
    destruct (os_ReadFile host _); [|destruct H]. by destruct H as [<-|[]].
Qed.

(** [startTunnel] by the answer of [net.Listen]. *)
Lemma startTunnel_run remoteHost lp rp :
  startTunnel host remoteHost lp rp =
  match net_Listen host "tcp" ("localhost:" +:+ itoa lp) with
  | Some e =>
      (Some (Errorf "failed to start local listener: " e),
       [IoNetListen "tcp" ("localhost:" +:+ itoa lp)])
  | None =>
      (None,
       IoNetListen "tcp" ("localhost:" +:+ itoa lp) :: IoGoAcceptLoop
       :: calls (waitForTunnelReady host lp))
  end.
Proof.
  unfold startTunnel. destruct (net_Listen host _ _); [reflexivity|].
  rewrite (surjective_pairing (bind _ _)).
  change (fst (bind ?m ?k)) with (value (bind m k)).
  change (snd (bind ?m ?k)) with (calls (bind m k)).
  rewrite !value_bind, !calls_bind. cbn [value calls emit fst snd app].
  unfold waitForTunnelReady at 1. by rewrite waitLoop_value.
Qed.

(** A run of [runTunnel] whose environment and bastion host are well
    formed, by the first call that fails. *)
Lemma runTunnel_run config environment envConfig username hostname :
  Environments config !! environment = Some envConfig ->
  Split (BastionHost config) "@" = [username; hostname] ->
  runTunnel host config environment =
  match value (prepareSSHConfig host (KeyPath config) username) with
  | Err e =>
      (Exited 1,
       calls (prepareSSHConfig host (KeyPath config) username)
       ++ [IoLog ("Failed to prepare SSH configuration: " +:+ error_string e);
           IoExit 1])
  | Ok sshConfig =>
      match ssh_Dial host "tcp" (hostname +:+ ":22") sshConfig with
      | Some e =>
          (Exited 1,
           calls (prepareSSHConfig host (KeyPath config) username)
           ++ [IoPrint ("Establishing SSH tunnel to " +:+ environment
                        +:+ " environment...");
               IoSSHDial "tcp" (hostname +:+ ":22") sshConfig;
               IoLog ("Failed to dial SSH server: " +:+ error_string e);
               IoExit 1])
      | None =>
          match net_Listen host "tcp" "localhost:5602" with
          | Some e =>
              (Exited 1,
               calls (prepareSSHConfig host (KeyPath config) username)
               ++ [IoPrint ("Establishing SSH tunnel to " +:+ environment
                            +:+ " environment...");
                   IoSSHDial "tcp" (hostname +:+ ":22") sshConfig;
                   IoSignalNotify;
                   IoNetListen "tcp" "localhost:5602";
                   IoLog ("Failed to start SSH tunnel: failed to start local listener: "
                          +:+ error_string e);
                   IoExit 1])
          | None =>
              (Serving,
               calls (prepareSSHConfig host (KeyPath config) username)
               ++ [IoPrint ("Establishing SSH tunnel to " +:+ environment
                            +:+ " environment...");
                   IoSSHDial "tcp" (hostname +:+ ":22") sshConfig;
                   IoSignalNotify;
                   IoNetListen "tcp" "localhost:5602";
                   IoGoAcceptLoop]
               ++ calls (waitForTunnelReady host localPort)
               ++ [IoPrint "Opening browser to https://localhost:5602/_dashboards/";
                   IoOpenBrowser "https://localhost:5602/_dashboards/";
                   IoPrint "SSH tunnel established. Press Ctrl+C to close the tunnel and exit"])
          end
      end
  end.
Proof.
  intros Henv Hsplit. unfold runTunnel. rewrite Henv, Hsplit.
  rewrite (surjective_pairing (bind _ _)).
  change (fst (bind ?m ?k)) with (value (bind m k)).
  change (snd (bind ?m ?k)) with (calls (bind m k)).
  rewrite value_bind, calls_bind.
  destruct (value (prepareSSHConfig host (KeyPath config) username))
    as [sshConfig|e]; [|reflexivity].
  rewrite !value_bind, !calls_bind. cbn [value calls emit fst snd app].
  destruct (ssh_Dial host "tcp" (hostname +:+ ":22") sshConfig) as [e|];
    [reflexivity|].
  rewrite !value_bind, !calls_bind. cbn [value calls emit fst snd app].
  rewrite startTunnel_run.
  change ("localhost:" +:+ itoa localPort) with "localhost:5602".
  destruct (net_Listen host "tcp" "localhost:5602") as [e|]; [reflexivity|].
  cbn [value calls fst snd app]. rewrite !calls_bind.
  cbn [value calls emit ret fst snd app]. by f_equal.
Qed.

Lemma exit_is_last pre0 msg pre code post :
  (forall e, In e pre0 -> is_exit e = false) ->
  pre0 ++ [IoLog msg; IoExit 1] = pre ++ IoExit code :: post ->
  post = [] /\ code = 1%Z /\ pre = pre0 ++ [IoLog msg].
Proof.
  revert pre. induction pre0 as [|x pre0 IH]; intros pre Hno Heq.
  - destruct pre as [|a [|b pre]]; cbn in Heq; try discriminate Heq.
    + injection Heq as <- <- <-. done.
    + injection Heq as _ _ Heq. by destruct pre.
  - destruct pre as [|a pre]; cbn in Heq.
    + injection Heq as -> _. by specialize (Hno _ (or_introl eq_refl)).
    + injection Heq as <- Heq.
      destruct (IH pre) as (? & ? & ->); [|done|done].
      intros e He. apply Hno. by right.
Qed.

Lemma prepareSSHConfig_no_exit keyPath username e :
  In e (calls (prepareSSHConfig host keyPath username)) -> is_exit e = false.
Proof. intros H. apply prepareSSHConfig_quiet in H. by destruct e. Qed.

Lemma waitForTunnelReady_no_exit port e :
  In e (calls (waitForTunnelReady host port)) -> is_exit e = false.
Proof. intros H. apply waitLoop_calls in H. by destruct e. Qed.

(** A run of [runTunnel] ends in one of two ways: a log line and the exit
    with status 1 as its last two calls, or the tunnel in service and no
    exit at all. *)
Lemma runTunnel_shape config environment :
  (exists pre msg,
      runTunnel host config environment = (Exited 1, pre ++ [IoLog msg; IoExit 1]) /\
      forall e, In e pre -> is_exit e = false) \/
  (exists l,
      runTunnel host config environment = (Serving, l) /\
      forall e, In e l -> is_exit e = false).
Proof.
  destruct (Environments config !! environment) as [envConfig|] eqn:Henv;
    [|left; exists []; eexists; unfold runTunnel; rewrite Henv; by split].
  destruct (Split (BastionHost config) "@") as [|username [|hostname [|]]] eqn:Hs;
    try (left; exists []; eexists; unfold runTunnel; rewrite Henv, Hs; by split).
  rewrite (runTunnel_run _ _ _ _ _ Henv Hs).
  destruct (value (prepareSSHConfig host (KeyPath config) username))
    as [sshConfig|e].
  2:{ left. do 2 eexists. split; [reflexivity|]. apply prepareSSHConfig_no_exit. }
  destruct (ssh_Dial host _ _ _) as [e|].
  { left. eexists (_ ++ [_; _]), _. rewrite <- app_assoc. split; [reflexivity|].
    intros ev H. apply in_app_or in H as [H|H];
      [by eapply prepareSSHConfig_no_exit|].
    repeat destruct H as [<-|H]; try reflexivity. destruct H. }
  destruct (net_Listen host _ _) as [e|].
  { left. eexists (_ ++ [_; _; _; _]), _. rewrite <- app_assoc.
    split; [reflexivity|].
    intros ev H. apply in_app_or in H as [H|H];
      [by eapply prepareSSHConfig_no_exit|].
    repeat destruct H as [<-|H]; try reflexivity. destruct H. }
  right. eexists. split; [reflexivity|].
  intros ev H. apply in_app_or in H as [H|H];
    [by eapply prepareSSHConfig_no_exit|].
  apply in_app_or in H as [H|H].
  { repeat destruct H as [<-|H]; try reflexivity. destruct H. }
  apply in_app_or in H as [H|H]; [by eapply waitForTunnelReady_no_exit|].
  repeat destruct H as [<-|H]; try reflexivity. destruct H.
Qed.

(** A bastion host that does not hold exactly one [@] ends the run. *)
Lemma runTunnel_bad_format config environment envConfig :
  Environments config !! environment = Some envConfig ->
  count_char "@" (BastionHost config) <> 1 ->
  runTunnel host config environment =
  Fatalf "Invalid bastion host format. Expected format: username@hostname".
Proof.
  intros Henv Hc. pose proof (Split_length (BastionHost config) "@") as Hlen.
  unfold runTunnel. rewrite Henv.
  destruct (Split (BastionHost config) "@") as [|a [|b [|]]]; try reflexivity.
  cbn in Hlen. lia.
Qed.


(** X2: [runTunnel] ends with the tunnel in service exactly when the
    environment is one of the configuration, the bastion host has the form
    user@host, the key is read and parsed, the bastion answers the dial and
    the local port 5602 can be listened on; what the readiness probes
    answer does not matter.  In every other case the process exits with
    status 1. *)
Theorem X2_serving_iff config environment :
  (value (runTunnel host config environment) = Serving <->
   exists envConfig username hostname sshConfig,
     Environments config !! environment = Some envConfig /\
     Split (BastionHost config) "@" = [username; hostname] /\
     value (prepareSSHConfig host (KeyPath config) username) = Ok sshConfig /\
     ssh_Dial host "tcp" (hostname +:+ ":22") sshConfig = None /\
     net_Listen host "tcp" "localhost:5602" = None) /\
  (value (runTunnel host config environment) = Serving \/
   value (runTunnel host config environment) = Exited 1).
Proof.
  split.
  - split.
    + destruct (Environments config !! environment) as [envConfig|] eqn:Henv;
        [|unfold runTunnel; rewrite Henv; discriminate].
      destruct (Split (BastionHost config) "@") as [|username [|hostname [|]]] eqn:Hs;
        try (unfold runTunnel; rewrite Henv, Hs; discriminate).
      rewrite (runTunnel_run _ _ _ _ _ Henv Hs).
      destruct (value (prepareSSHConfig host (KeyPath config) username))
        as [sshConfig|e] eqn:Hp; [|discriminate].
      destruct (ssh_Dial host _ _ _) as [e|] eqn:Hd; [discriminate|].
      destruct (net_Listen host _ _) as [e|] eqn:Hl; [discriminate|].
      intros _. by exists envConfig, username, hostname, sshConfig.
    + intros (envConfig & username & hostname & sshConfig & Henv & Hs & Hp & Hd & Hl).
      by rewrite (runTunnel_run _ _ _ _ _ Henv Hs), Hp, Hd, Hl.
  - destruct (runTunnel_shape config environment)
      as [(pre & msg & -> & _)|(l & -> & _)]; [by right | by left].
Qed.

(** X3: when the dial of the bastion fails, [runTunnel] logs the failure
    and exits with status 1 right after the dial: no signal handler is
    installed, no listener bound, no accept loop started, no probe made and
    no browser opened. *)
Theorem X3_dial_failure_is_fatal config environment network addr cfg e :
  In (IoSSHDial network addr cfg) (calls (runTunnel host config environment)) ->
  ssh_Dial host network addr cfg = Some e ->
  value (runTunnel host config environment) = Exited 1 /\
  (exists pre,
      calls (runTunnel host config environment) =
      pre ++ [IoSSHDial network addr cfg;
              IoLog ("Failed to dial SSH server: " +:+ error_string e);
              IoExit 1]) /\
  forall ev, In ev (calls (runTunnel host config environment)) ->
    match ev with
    | IoSignalNotify | IoNetListen _ _ | IoGoAcceptLoop | IoDialTimeout _ _ _
    | IoOpenBrowser _ => False
    | _ => True
    end.
Proof.
  destruct (Environments config !! environment) as [envConfig|] eqn:Henv;
    [|unfold runTunnel; rewrite Henv; intros H;
      repeat destruct H as [H|H]; discriminate || contradiction].
  destruct (Split (BastionHost config) "@") as [|username [|hostname [|]]] eqn:Hs;
    try (unfold runTunnel; rewrite Henv, Hs; intros H;
         repeat destruct H as [H|H]; discriminate || contradiction).
  rewrite (runTunnel_run _ _ _ _ _ Henv Hs).
  assert (Hprep : forall ev,
             In ev (calls (prepareSSHConfig host (KeyPath config) username)) ->
             match ev with
             | IoLog _ | IoReadFile _ | IoParsePrivateKey _ => True
             | _ => False
             end) by (intros ev; apply prepareSSHConfig_quiet).
  destruct (value (prepareSSHConfig host (KeyPath config) username))
    as [sshConfig|e'].
  2:{ intros H. apply in_app_or in H as [H|H]; [by apply Hprep in H|].
      repeat destruct H as [H|H]; discriminate || contradiction. }
  assert (Hfound : forall tail,
             In (IoSSHDial network addr cfg)
                (calls (prepareSSHConfig host (KeyPath config) username)
                 ++ IoPrint ("Establishing SSH tunnel to " +:+ environment
                             +:+ " environment...")
                 :: IoSSHDial "tcp" (hostname +:+ ":22") sshConfig :: tail) ->
             (forall ev, In ev tail -> ev <> IoSSHDial network addr cfg) ->
             network = "tcp" /\ addr = hostname +:+ ":22" /\ cfg = sshConfig).
  { intros tail H Htail. apply in_app_or in H as [H|H]; [by apply Hprep in H|].
    destruct H as [H|[H|H]]; [discriminate| |].
    - by injection H as <- <- <-.
    - by destruct (Htail _ H). }
  destruct (ssh_Dial host "tcp" (hostname +:+ ":22") sshConfig) as [e'|] eqn:Hd.
  - intros H Hfail. cbn [value calls fst snd].
    destruct (Hfound _ H) as (-> & -> & ->).
    { intros ev Hev. repeat destruct Hev as [<-|Hev]; try discriminate. destruct Hev. }
    rewrite Hd in Hfail. injection Hfail as ->.
    split; [reflexivity|]. split.
    + eexists (_ ++ [_]). by rewrite <- app_assoc.
    + intros ev Hev. apply in_app_or in Hev as [Hev|Hev].
      * apply Hprep in Hev. by destruct ev.
      * repeat destruct Hev as [<-|Hev]; try exact I. destruct Hev.
  - intros H Hfail. exfalso.
    assert (network = "tcp" /\ addr = hostname +:+ ":22" /\ cfg = sshConfig)
      as (-> & -> & ->); [|congruence].
    destruct (net_Listen host _ _); cbn [calls snd] in H.
    + apply (Hfound _ H). intros ev Hev.
      repeat destruct Hev as [<-|Hev]; try discriminate. destruct Hev.
    + cbn [app] in H. apply (Hfound _ H). intros ev Hev.
      destruct Hev as [<-|[<-|[<-|Hev]]]; try discriminate.
      apply in_app_or in Hev as [Hev|Hev].
      * apply waitLoop_calls in Hev. by destruct ev.
      * repeat destruct Hev as [<-|Hev]; try discriminate. destruct Hev.
Qed.

(** X4: the calls of a [runTunnel] that ends with the tunnel in service,
    in their order: the key is read and parsed, the bastion dialled on port
    22, the signal handler installed, the local port 5602 listened on, the
    accept loop started and the port probed; only then is the browser
    opened, on https://localhost:5602/_dashboards/. *)
Theorem X4_startup_sequence config environment :
  value (runTunnel host config environment) = Serving ->
  exists username hostname sshConfig,
    Split (BastionHost config) "@" = [username; hostname] /\
    value (prepareSSHConfig host (KeyPath config) username) = Ok sshConfig /\
    calls (runTunnel host config environment) =
    calls (prepareSSHConfig host (KeyPath config) username)
    ++ [IoPrint ("Establishing SSH tunnel to " +:+ environment +:+ " environment...");
        IoSSHDial "tcp" (hostname +:+ ":22") sshConfig;
        IoSignalNotify;
        IoNetListen "tcp" "localhost:5602";
        IoGoAcceptLoop]
    ++ calls (waitForTunnelReady host 5602)
    ++ [IoPrint "Opening browser to https://localhost:5602/_dashboards/";
        IoOpenBrowser "https://localhost:5602/_dashboards/";
        IoPrint "SSH tunnel established. Press Ctrl+C to close the tunnel and exit"].
Proof.
  destruct (Environments config !! environment) as [envConfig|] eqn:Henv;
    [|unfold runTunnel; rewrite Henv; discriminate].
  destruct (Split (BastionHost config) "@") as [|username [|hostname [|]]] eqn:Hs;
    try (unfold runTunnel; rewrite Henv, Hs; discriminate).
  rewrite (runTunnel_run _ _ _ _ _ Henv Hs).
  destruct (value (prepareSSHConfig host (KeyPath config) username))
    as [sshConfig|e] eqn:Hp; [|discriminate].
  destruct (ssh_Dial host _ _ _) as [e|]; [discriminate|].
  destruct (net_Listen host _ _) as [e|]; [discriminate|].
  intros _. by exists username, hostname, sshConfig.
Qed.

(** X5: an exit is the last call of [runTunnel]: nothing is called after
    it, its status is 1, and the call before it is the log line that says
    why; and a run whose outcome is an exit ends with these two calls. *)
Theorem X5_fatal_exit_is_last config environment :
  (forall pre code post,
      calls (runTunnel host config environment) = pre ++ IoExit code :: post ->
      post = [] /\ code = 1%Z /\
      value (runTunnel host config environment) = Exited 1 /\
      exists pre' msg, pre = pre' ++ [IoLog msg]) /\
  (forall code,
      value (runTunnel host config environment) = Exited code ->
      code = 1%Z /\
      exists pre msg,
        calls (runTunnel host config environment) = pre ++ [IoLog msg; IoExit 1]).
Proof.
  destruct (runTunnel_shape config environment)
    as [(pre0 & msg & -> & Hno)|(l & -> & Hno)]; cbn [value calls fst snd].
  - split.
    + intros pre code post Heq.
      destruct (exit_is_last _ _ _ _ _ Hno Heq) as (-> & -> & ->). eauto 6.
    + intros code [= <-]. eauto.
  - split.
    + intros pre code post Heq.
      assert (Hin : In (IoExit code) l) by (rewrite Heq; apply in_elt).
      by apply Hno in Hin.
    + discriminate.
Qed.

(** X6: [prepareSSHConfig] reads exactly one file, the key path as
    [expandPath] expands it, and parses exactly what that read returned.
    [expandPath] leaves the empty path and a path that does not start with
    [~] as they are; it replaces a leading [~], and that byte only, by the
    home directory; and when the home directory cannot be found it logs
    that and leaves the path as it is. *)
Theorem X6_key_file_read keyPath username :
  count_calls is_read_file (calls (prepareSSHConfig host keyPath username)) = 1 /\
  In (IoReadFile (value (expandPath host keyPath)))
     (calls (prepareSSHConfig host keyPath username)) /\
  (forall key,
      In (IoParsePrivateKey key) (calls (prepareSSHConfig host keyPath username)) <->
      os_ReadFile host (value (expandPath host keyPath)) = Ok key) /\
  (keyPath = "" -> expandPath host keyPath = ("", [])) /\
  (forall c rest,
      keyPath = String c rest -> c <> "~"%char ->
      expandPath host keyPath = (keyPath, [])) /\
  (forall rest home,
      keyPath = String "~" rest -> os_UserHomeDir host = Ok home ->
      expandPath host keyPath = (filepath_Join host home rest, [])) /\
  (forall rest e,
      keyPath = String "~" rest -> os_UserHomeDir host = Err e ->
      expandPath host keyPath =
      (keyPath, [IoLog ("Error expanding home directory: " +:+ error_string e)])).
Proof.
  rewrite prepareSSHConfig_run.
  split; [|split; [|split; [|split; [|split; [|split]]]]].
  - rewrite count_calls_app.
    assert (count_calls is_read_file (calls (expandPath host keyPath)) = 0) as ->
      by (by destruct (expandPath_log keyPath) as [->|[msg ->]]).
    by destruct (os_ReadFile host _).
  - apply in_or_app. right. by left.
  - intros key. split.
    + intros H. apply in_app_or in H as [H|H].
      * by destruct (expandPath_log keyPath) as [E|[msg E]]; rewrite E in H;
          repeat destruct H as [H|H].
      * destruct H as [H|H]; [discriminate|].
        destruct (os_ReadFile host _); [|destruct H].
        destruct H as [[= ->]|[]]. reflexivity.
    + intros ->. apply in_or_app. right. right. by left.
  - by intros ->.
  - intros c rest -> Hc. unfold expandPath.
    destruct (Ascii.eqb_spec c "~"); [done | reflexivity].
  - intros rest home -> Hhome. unfold expandPath. by rewrite Hhome.
  - intros rest e -> Hhome. unfold expandPath. by rewrite Hhome.
Qed.

End SetupExtras.

(** The properties of the set-up code at concrete hosts. *)


Lemma X2_serving_iff_witness :
  value (runTunnel host_ok config_ok "staging") = Serving.
Proof.
  apply (proj1 (X2_serving_iff host_ok config_ok "staging")).
  exists {| OpenSearchHost := "os.internal" |}, "ubuntu", "12.34.56.78",
    {| User := "ubuntu"; Auth := [PublicKeys [MkSigner "PEM"]];
       HostKeyCallback := InsecureIgnoreHostKey; Timeout := (15 * Second)%Z |}.
  repeat split.
Defined.

Lemma X3_dial_failure_is_fatal_witness :
  value (runTunnel host_unreachable config_ok "staging") = Exited 1.
Proof.
  apply (X3_dial_failure_is_fatal host_unreachable config_ok "staging" "tcp"
           "12.34.56.78:22"
           {| User := "ubuntu"; Auth := [PublicKeys [MkSigner "PEM"]];
              HostKeyCallback := InsecureIgnoreHostKey;
              Timeout := (15 * Second)%Z |}
           (ErrExternal "dial tcp: i/o timeout")).
  - vm_compute. tauto.
  - reflexivity.
Defined.

Lemma X4_startup_sequence_witness :
  exists username hostname sshConfig,
    Split (BastionHost config_ok) "@" = [username; hostname] /\
    value (prepareSSHConfig host_ok (KeyPath config_ok) username) = Ok sshConfig /\
    calls (runTunnel host_ok config_ok "staging") =
    calls (prepareSSHConfig host_ok (KeyPath config_ok) username)
    ++ [IoPrint "Establishing SSH tunnel to staging environment...";
        IoSSHDial "tcp" (hostname +:+ ":22") sshConfig;
        IoSignalNotify;
        IoNetListen "tcp" "localhost:5602";
        IoGoAcceptLoop]
    ++ calls (waitForTunnelReady host_ok 5602)
    ++ [IoPrint "Opening browser to https://localhost:5602/_dashboards/";
        IoOpenBrowser "https://localhost:5602/_dashboards/";
        IoPrint "SSH tunnel established. Press Ctrl+C to close the tunnel and exit"].
Proof.
  apply (X4_startup_sequence host_ok config_ok "staging"). reflexivity.
Defined.

Lemma X5_fatal_exit_is_last_witness :
  exists pre msg,
    calls (runTunnel host_port_in_use config_ok "staging") =
    pre ++ [IoLog msg; IoExit 1].
Proof.
  apply (proj2 (X5_fatal_exit_is_last host_port_in_use config_ok "staging") 1%Z).
  reflexivity.
Defined.

Lemma X6_key_file_read_witness :
  expandPath host_ok "~/.ssh/key.pem" = ("/home/u/.ssh/key.pem", []) /\
  expandPath host_homeless "~/.ssh/key.pem" =
  ("~/.ssh/key.pem", [IoLog "Error expanding home directory: $HOME is not defined"]) /\
  expandPath host_ok "key.pem" = ("key.pem", []).
Proof.
  split; [|split].
  - apply (proj1 (proj2 (proj2 (proj2 (proj2 (proj2
             (X6_key_file_read host_ok "~/.ssh/key.pem" "ubuntu"))))))
             "/.ssh/key.pem" "/home/u"); reflexivity.
  - apply (proj2 (proj2 (proj2 (proj2 (proj2 (proj2
             (X6_key_file_read host_homeless "~/.ssh/key.pem" "ubuntu"))))))
             "/.ssh/key.pem" (ErrExternal "$HOME is not defined")); reflexivity.
  - apply (proj1 (proj2 (proj2 (proj2 (proj2
             (X6_key_file_read host_ok "key.pem" "ubuntu")))))
             "k"%char "ey.pem"); [reflexivity | discriminate].
Defined.

(** * Further properties of the goroutines *)

Lemma registered_cons e tr :
  registered (e :: tr) =
  match e with EvRegister c => c :: registered tr | _ => registered tr end.
Proof. by destruct e. Qed.

Lemma drained_cons e tr :
  drained (e :: tr) =
  match e with EvDrain c => c :: drained tr | _ => drained tr end.
Proof. by destruct e. Qed.

Lemma inv_cap_reachable s : reachable s -> inv_cap s.
Proof.
  induction 1 as [|s l s' Hs IH Hstep]; [done|].
  unfold inv_cap in *. destruct IH as [I1 I2].
  step_inv Hstep; cbn [log record set_sig_pc set_main_pc set_acc_pc set_tear_pc
                       set_handlers set_handler set_conns_buf set_conns_closed
                       set_cancelled set_listener_closed set_client_closed
                       set_status conns_buf tear_pc];
    rewrite registered_cons, drained_cons, ?length_app; cbn [length];
    try match goal with H : tear_pc _ = _ |- _ => rewrite H in I2 end;
    try match goal with H : conns_buf _ = _ |- _ => rewrite H in I1 end;
    cbn [length] in I1; (split; [try lia|]); try done.
  all: goal_pcs; try done.
  rewrite Heql. exact I1.
Qed.

Lemma registered_In c tr : In (EvRegister c) tr -> In c (registered tr).
Proof.
  induction tr as [|e tr IH]; [done|]. rewrite registered_cons.
  intros [->|H]; [by left|]. destruct e; auto. right. auto.
Qed.

(** X7: every registration takes one of the 10 slots of [conns], and only
    the teardown goroutine gives slots back.  So until the context is
    cancelled at most 10 connections are registered, and at most 10 are ever
    dialled; and while [conns] is full and open, the handler of a further
    connection cannot get past its send. *)
Theorem X7_registry_capacity ls s :
  run init ls = Some s ->
  length (registered (log s)) = length (conns_buf s) + length (drained (log s)) /\
  (cancelled s = false ->
   length (registered (log s)) <= 10 /\
   forall l, List.NoDup l ->
             (forall c, In c l -> exists ok, In (EvDial c ok) (log s)) ->
             length l <= 10) /\
  (length (conns_buf s) = 10 -> conns_closed s = false ->
   forall c, step s (LHSend c) = None).
Proof.
  intros Hrun. pose proof (run_reachable _ _ Hrun) as Hs.
  destruct (inv_cap_reachable s Hs) as [Hlen Hdr].
  destruct (inv_conns_reachable s Hs) as (Hcap & _).
  split; [exact Hlen|]. split.
  - intros Hc.
    assert (Hreg : length (registered (log s)) <= 10).
    { destruct (inv_cancel_reachable s Hs) as (_ & _ & _ & Ht & _).
      destruct (tear_pc s); try (rewrite Hdr in Hlen; cbn in Hlen;
                                  unfold conns_cap in Hcap; lia);
        try (destruct Ht; congruence); congruence. }
    split; [exact Hreg|]. intros l Hnd Hdial.
    etransitivity; [|exact Hreg]. apply NoDup_incl_length; [exact Hnd|].
    intros c Hc'. destruct (Hdial c Hc') as [ok Hin].
    apply registered_In.
    eapply precedes_In; [by apply register_precedes_dial | exact Hin].
  - intros Hfull Hopen c. unfold step. destruct (status s); try reflexivity.
    cbn [owner]. destruct (handlers s !! c) as [h|]; [|reflexivity].
    unfold step_handler. destruct (hpc h); try reflexivity.
    rewrite Hopen. case_decide; [|reflexivity]. unfold conns_cap in *. lia.
Qed.


(** Brings what [inv_cancel] says of the program counters of a step to the
    counters the step is at. *)
Ltac use_pcs C2 C3 C4 C5 :=
  try match goal with H : sig_pc _ = _ |- _ => rewrite H in C2 end;
  try match goal with H : main_pc _ = _ |- _ => rewrite H in C3 end;
  try match goal with H : tear_pc _ = _ |- _ => rewrite H in C4 end;
  try match goal with H : acc_pc _ = _ |- _ => rewrite H in C5 end.

Lemma inv_flags_reachable s : reachable s -> inv_flags s.
Proof.
  induction 1 as [|s l s' Hs IH Hstep].
  - repeat split; cbn; congruence.
  - pose proof (inv_cancel_reachable s Hs) as (C1 & C2 & C3 & C4 & C5).
    unfold inv_flags in *. destruct IH as (I1 & I2 & I3 & I4).
    step_inv Hstep; cbn; use_pcs C2 C3 C4 C5;
      repeat apply conj; intros; try tauto; try congruence;
      intuition congruence.
Qed.

Lemma inv_signal_reachable s : reachable s -> inv_signal s.
Proof.
  induction 1 as [|s l s' Hs IH Hstep].
  - split; cbn; congruence.
  - pose proof (inv_cancel_reachable s Hs) as (C1 & C2 & C3 & C4 & C5).
    unfold inv_signal in *. destruct IH as (I1 & I2).
    step_inv Hstep; cbn; use_pcs C2 C3 C4 C5;
      split; intros; try tauto; try (right; auto; fail);
      try (right; apply I1; congruence).
Qed.

Lemma inv_closed_reachable s : reachable s -> inv_closed s.
Proof.
  induction 1 as [|s l s' Hs IH Hstep].
  - repeat split; cbn; try congruence; tauto.
  - unfold inv_closed in *. destruct IH as (I1 & I2 & I3 & I4).
    step_inv Hstep; cbn; repeat apply conj; intros; try done;
      try (intros [?|?]; [discriminate | first [by eapply I1 | by eapply I3]]);
      try (destruct I2 as [g' ?]; [assumption | exists g'; by right]);
      try (right; by apply I4); eauto using in_eq; congruence.
Qed.

(** Where an event of the log comes from: the step that added it. *)
Lemma event_origin s e :
  reachable s -> In e (log s) ->
  exists s0 l s1 newer,
    reachable s0 /\ step s0 l = Some s1 /\ log s1 = e :: log s0 /\
    log s = newer ++ e :: log s0.
Proof.
  induction 1 as [|s l s' Hs IH Hstep]; [intros []|].
  destruct (step_log _ _ _ Hstep) as [e' He']. rewrite He'. intros [->|Hin].
  - exists s, l, s', []. by rewrite He'.
  - destruct (IH Hin) as (s0 & l0 & s1 & newer & H0 & H1 & H2 & H3).
    exists s0, l0, s1, (e' :: newer). rewrite H3. done.
Qed.

(** What holds of the log whenever [e] is added holds of the log before
    every [e]. *)
Lemma guarded_intro (P : list Event -> Prop) (e : Event) :
  (forall s l s', reachable s -> step s l = Some s' ->
                  log s' = e :: log s -> P (log s)) ->
  forall s, reachable s ->
  forall newer older, log s = newer ++ e :: older -> P older.
Proof.
  intros Hguard s Hs. induction Hs as [|s l s' Hs IH Hstep].
  - intros [|? ?] older; discriminate.
  - destruct (step_log _ _ _ Hstep) as [e' He'].
    intros newer older Heq. rewrite He' in Heq.
    destruct newer as [|e'' newer]; cbn in Heq.
    + injection Heq as -> <-. by eapply Hguard.
    + injection Heq as _ Heq. by eapply IH.
Qed.

(** An event whose step needs [e1] absent from the log never comes after
    [e1]. *)
Lemma never_after_intro (e1 e2 : Event) :
  (forall s l s', reachable s -> step s l = Some s' ->
                  log s' = e2 :: log s -> ~ In e1 (log s)) ->
  forall s, reachable s ->
  forall newer older, log s = newer ++ e1 :: older -> ~ In e2 newer.
Proof.
  intros Hguard s Hs. induction Hs as [|s l s' Hs IH Hstep].
  - intros [|? ?] older; discriminate.
  - destruct (step_log _ _ _ Hstep) as [e' He'].
    intros newer older Heq. rewrite He' in Heq.
    destruct newer as [|e'' newer]; cbn in Heq; [intros []|].
    injection Heq as <- Heq. intros [->|Hin].
    + apply (Hguard _ _ _ Hs Hstep He'). rewrite Heq. apply in_elt.
    + by eapply IH.
Qed.

Lemma shutdown_step s l s' e :
  reachable s -> step s l = Some s' -> log s' = e :: log s ->
  is_shutdown_event e = true -> In EvSignal (log s).
Proof.
  intros Hs Hstep Hlog He.
  pose proof (inv_cancel_reachable s Hs) as (C1 & C2 & C3 & C4 & C5).
  destruct (inv_signal_reachable s Hs) as (S1 & S2).
  destruct (inv_flags_reachable s Hs) as (F1 & F2 & F3 & F4).
  step_inv Hstep; cbn in Hlog; injection Hlog as <-; try discriminate He;
    use_pcs C2 C3 C4 C5; try (apply S2; tauto); try (apply S1; congruence).
  all: apply S2; auto.
Qed.

(** X12: as long as no interrupt has arrived nothing of a shutdown
    happens, whatever the network does: the process runs, the context is
    not cancelled, the listener, the transport session and [conns] are
    open, [runTunnel] and the teardown goroutine wait, the accept loop
    accepts or checks an error, the log holds no event of a shutdown, and a
    connection that arrives is accepted. *)
Theorem X12_only_an_interrupt_stops_the_tunnel ls s :
  run init ls = Some s -> ~ In EvSignal (log s) ->
  status s = Running /\ cancelled s = false /\ listener_closed s = false /\
  client_closed s = false /\ conns_closed s = false /\
  main_pc s = MainWait /\ tear_pc s = TearWait /\
  (acc_pc s = AccAccept \/ acc_pc s = AccCheck) /\
  (forall e, In e (log s) -> is_shutdown_event e = false) /\
  (acc_pc s = AccAccept -> is_Some (step s (LAccept true))).
Proof.
  intros Hrun Hno. pose proof (run_reachable _ _ Hrun) as Hs.
  pose proof (inv_cancel_reachable s Hs) as (C1 & C2 & C3 & C4 & C5).
  destruct (inv_signal_reachable s Hs) as (S1 & S2).
  destruct (inv_flags_reachable s Hs) as (F1 & F2 & F3 & F4).
  assert (Hc : cancelled s = false)
    by (destruct (cancelled s); [by destruct Hno; apply S2 | done]).
  rewrite Hc in *.
  assert (Hst : status s = Running).
  { destruct (status s); [done| |]; by discriminate F4. }
  assert (Hl : listener_closed s = false)
    by (destruct (listener_closed s); [by discriminate F1 | done]).
  repeat apply conj; try done.
  - destruct (client_closed s); [by discriminate F2 | done].
  - destruct (conns_closed s); [by discriminate F3 | done].
  - destruct (main_pc s); done.
  - destruct (tear_pc s); try done; by destruct C4.
  - destruct (acc_pc s); auto; discriminate.
  - intros e Hin. destruct (is_shutdown_event e) eqn:He; [|done].
    destruct Hno.
    destruct (event_origin s e Hs Hin) as (s0 & l & s1 & newer & H0 & H1 & H2 & H3).
    rewrite H3. apply in_or_app. right. right.
    by eapply shutdown_step.
  - intros Ha. unfold step. rewrite Hst. cbn. unfold step_accept.
    rewrite Ha, Hl. eauto.
Qed.

Lemma inv_panic_reachable s : reachable s -> inv_panic s.
Proof.
  induction 1 as [|s l s' Hs IH Hstep]; [discriminate|].
  pose proof (inv_closed_reachable s Hs) as (_ & _ & _ & Hcl).
  pose proof (inv_conns_reachable s Hs) as (_ & _ & _ & Hacc).
  pose proof (inv_reg_reachable s Hs) as Hreg.
  unfold inv_panic. step_inv Hstep; cbn; try congruence.
  intros _. exists c, (log s). split; [done|]. split; [by apply Hcl|].
  split; [apply Hacc; by eapply lookup_lt_Some|].
  specialize (Hreg c).
  match goal with H : handlers s !! c = Some _ |- _ => rewrite H in Hreg end.
  destruct Hreg as [[_ ?]|[? _]]; [assumption | congruence].
Qed.

(** X8: a handler that reaches its send on [conns] when the accept loop
    has closed [conns] panics, and the process stops there: no goroutine
    takes another step.  The process panics in no other way: a panic is the
    send of an accepted connection that was never registered, and comes
    after the cancellation and the close of [conns]. *)
Theorem X8_send_on_closed_registry_panics ls s :
  run init ls = Some s ->
  (forall c h,
      status s = Running -> handlers s !! c = Some h -> hpc h = HSend ->
      conns_closed s = true ->
      exists s',
        step s (LHSend c) = Some s' /\ status s' = Panicked /\
        log s' = EvPanic c :: log s /\ forall l, step s' l = None) /\
  (status s = Panicked ->
   exists c older,
     log s = EvPanic c :: older /\ In EvConnsClose older /\
     In (EvAccept c) older /\ ~ In (EvRegister c) older) /\
  (forall c, precedes EvConnsClose (EvPanic c) (log s)) /\
  (forall c, precedes (EvCancel GSignal) (EvPanic c) (log s)).
Proof.
  intros Hrun. pose proof (run_reachable _ _ Hrun) as Hs.
  split; [|split; [|split]].
  - intros c h Hst Hl Hpc Hcl. eexists. split.
    + rewrite (step_handler_eq s c h (LHSend c) Hst Hl eq_refl).
      unfold step_handler. rewrite Hpc, Hcl. reflexivity.
    + split; [reflexivity|]. split; [reflexivity|]. intros l. reflexivity.
  - apply (inv_panic_reachable s Hs).
  - intros c. clear Hrun. revert s Hs. apply precedes_intro.
    intros s l s' Hs Hstep Hlog.
    pose proof (inv_closed_reachable s Hs) as (_ & _ & _ & Hcl).
    step_inv Hstep; cbn in Hlog; try discriminate Hlog. by apply Hcl.
  - intros c. clear Hrun. revert s Hs. apply precedes_intro.
    intros s l s' Hs Hstep Hlog.
    destruct (inv_cancel_reachable s Hs) as (Hc & _).
    destruct (inv_flags_reachable s Hs) as (_ & _ & F3 & _).
    step_inv Hstep; cbn in Hlog; try discriminate Hlog. auto.
Qed.

(** X10: once the listener has been closed, by the teardown goroutine or
    by the deferred call of the accept loop, no connection is accepted any
    more; the listener is closed exactly when the log holds a close of it;
    and it is never closed before the cancellation. *)
Theorem X10_no_accept_after_listener_close ls s :
  run init ls = Some s ->
  (forall newer g older c,
      log s = newer ++ EvListenerClose g :: older -> ~ In (EvAccept c) newer) /\
  (listener_closed s = true <-> exists g, In (EvListenerClose g) (log s)) /\
  (listener_closed s = true -> step s (LAccept true) = None) /\
  (forall g, precedes (EvCancel GSignal) (EvListenerClose g) (log s)).
Proof.
  intros Hrun. pose proof (run_reachable _ _ Hrun) as Hs.
  split; [|split; [|split]].
  - intros newer g older c. revert newer older. clear Hrun. revert s Hs.
    apply never_after_intro. intros s l s' Hs Hstep Hlog.
    destruct (inv_closed_reachable s Hs) as (Hopen & _).
    step_inv Hstep; cbn in Hlog; try discriminate Hlog. by apply Hopen.
  - destruct (inv_closed_reachable s Hs) as (Hopen & Hclosed & _).
    split; [exact Hclosed|]. intros [g Hin].
    destruct (listener_closed s); [done|]. by destruct (Hopen eq_refl g).
  - intros Hcl. unfold step. destruct (status s); try reflexivity.
    cbn. unfold step_accept. destruct (acc_pc s); try reflexivity.
    by rewrite Hcl.
  - intros g. clear Hrun. revert s Hs. apply precedes_intro.
    intros s l s' Hs Hstep Hlog.
    destruct (inv_cancel_reachable s Hs) as (Hc & C2 & C3 & C4 & C5).
    step_inv Hstep; cbn in Hlog; try discriminate Hlog;
      use_pcs C2 C3 C4 C5; auto.
Qed.

(** X9: [done] never holds more than its two values, and a copier that is
    about to send finds a free slot: the send that ends [copyData] never
    blocks, also when the handler has returned and nobody receives any
    more. *)
Theorem X9_done_channel_never_blocks ls s c h :
  run init ls = Some s -> handlers s !! c = Some h ->
  done_len h <= 2 /\
  (forall d, copy_of h d = CSend -> done_len h < 2) /\
  (forall d, status s = Running -> copy_of h d = CSend ->
             exists s' h', step s (LCopyDone c d) = Some s' /\
                           handlers s' !! c = Some h' /\
                           copy_of h' d = CDone /\
                           done_len h' = S (done_len h) /\ done_len h' <= 2).
Proof.
  intros Hrun Hl. pose proof (run_reachable _ _ Hrun) as Hs.
  pose proof (inv_hwf_reachable s Hs c) as Hwf. rewrite Hl in Hwf.
  assert (Hle : done_len h <= ndone h).
  { unfold hwf in Hwf. destruct (hpc h); lia. }
  assert (Hsend : forall d, copy_of h d = CSend -> done_len h < 2).
  { intros d Hd. unfold ndone in Hle.
    destruct d; cbn in Hd; rewrite Hd in Hle; cbn in Hle;
      [destruct (copy_l2r h) | destruct (copy_r2l h)]; cbn in Hle; lia. }
  split; [|split; [exact Hsend|]].
  - unfold ndone in Hle. destruct (copy_r2l h), (copy_l2r h); cbn in Hle; lia.
  - intros d Hst Hd. specialize (Hsend d Hd). eexists _, _.
    rewrite (step_copy_eq s c h d (LCopyDone c d) Hst Hl eq_refl).
    unfold step_copy. rewrite Hd. split; [reflexivity|].
    split; [by eapply lookup_set_handler|].
    rewrite copy_of_set_done_len, copy_of_set_copy. cbn.
    case_decide; [|done]. repeat split; lia.
Qed.

Lemma lifecycle_cons c e tr :
  lifecycle c (e :: tr) =
  if concerns c e then e :: lifecycle c tr else lifecycle c tr.
Proof. reflexivity. Qed.

Lemma lifecycle_app c tr1 tr2 :
  lifecycle c (tr1 ++ tr2) = lifecycle c tr1 ++ lifecycle c tr2.
Proof. apply List.filter_app. Qed.

Lemma inv_life_reachable s : reachable s -> inv_life s.
Proof.
  induction 1 as [|s l s' Hs IH Hstep].
  - intros c. cbn. by rewrite lookup_nil.
  - unfold inv_life in *. step_inv Hstep; cbn; intros c0;
      rewrite lifecycle_cons; cbn [concerns];
      lookup_cases IH c0; cbn [hpc set_hpc set_done_len new_handler];
      rewrite ?hpc_set_copy;
      rewrite ?bool_decide_eq_true_2 by done;
      rewrite ?bool_decide_eq_false_2 by (first [done | intros [? ?]; congruence]);
      try exact IH;
      repeat match goal with
             | H : hpc _ = _ |- _ => rewrite H in IH
             end;
      try (by rewrite IH); try (left; by rewrite IH); try (right; by rewrite IH).
Qed.

Lemma lifecycle_In c e tr :
  In e (lifecycle c tr) <-> In e tr /\ concerns c e = true.
Proof. apply List.filter_In. Qed.

Lemma lifecycle_count c e tr :
  concerns c e = true ->
  count_event e (lifecycle c tr) = count_event e tr.
Proof.
  intros He. induction tr as [|e' tr IH]; [done|].
  rewrite lifecycle_cons, (count_event_cons e e' tr).
  destruct (concerns c e') eqn:He'.
  - by rewrite count_event_cons, IH.
  - rewrite IH. case_decide; [congruence | done].
Qed.

Lemma lifecycle_precedes c e1 e2 tr :
  concerns c e2 = true ->
  precedes e1 e2 (lifecycle c tr) -> precedes e1 e2 tr.
Proof.
  intros He2 Hp newer older ->.
  rewrite lifecycle_app, lifecycle_cons, He2 in Hp.
  specialize (Hp _ _ eq_refl). by apply lifecycle_In in Hp as [? _].
Qed.

Lemma concerns_dial c ok : concerns c (EvDial c ok) = true.
Proof. cbn. by apply bool_decide_eq_true_2. Qed.

Lemma concerns_remote_close c : concerns c (EvRemoteClose c) = true.
Proof. cbn. by apply bool_decide_eq_true_2. Qed.

Lemma concerns_local_close c : concerns c (EvLocalClose c (GHandler c)) = true.
Proof. cbn. by apply bool_decide_eq_true_2. Qed.

(** The six lifecycles a connection can have. *)
Lemma lifecycle_cases s c :
  reachable s ->
  lifecycle c (log s) = [] \/
  lifecycle c (log s) = [EvDial c false] \/
  lifecycle c (log s) = [EvLocalClose c (GHandler c); EvDial c false] \/
  lifecycle c (log s) = [EvDial c true] \/
  lifecycle c (log s) = [EvRemoteClose c; EvDial c true] \/
  lifecycle c (log s) =
  [EvLocalClose c (GHandler c); EvRemoteClose c; EvDial c true].
Proof.
  intros Hs. pose proof (inv_life_reachable s Hs c) as H.
  destruct (handlers s !! c) as [h|]; [|tauto].
  destruct (hpc h); tauto.
Qed.

(** X11: what a handler opens and closes.  For each connection the dial,
    the close of the remote connection and the handler's close of the local
    one occur in one of six ways: nothing yet; a failed dial; a failed
    dial, then the local close; a successful dial; a successful dial, then
    the remote close; a successful dial, the remote close, then the local
    close.  A handler that has returned has one of the two complete ones.
    So a connection is dialled at most once, each close happens at most
    once, and the remote connection is closed only after a successful dial
    and before the local one. *)
Theorem X11_handler_lifecycle ls s c :
  run init ls = Some s ->
  (lifecycle c (log s) = [] \/
   lifecycle c (log s) = [EvDial c false] \/
   lifecycle c (log s) = [EvLocalClose c (GHandler c); EvDial c false] \/
   lifecycle c (log s) = [EvDial c true] \/
   lifecycle c (log s) = [EvRemoteClose c; EvDial c true] \/
   lifecycle c (log s) =
   [EvLocalClose c (GHandler c); EvRemoteClose c; EvDial c true]) /\
  (forall h,
      handlers s !! c = Some h -> hpc h = HDone ->
      lifecycle c (log s) = [EvLocalClose c (GHandler c); EvDial c false] \/
      lifecycle c (log s) =
      [EvLocalClose c (GHandler c); EvRemoteClose c; EvDial c true]) /\
  count_event (EvLocalClose c (GHandler c)) (log s) <= 1 /\
  count_event (EvRemoteClose c) (log s) <= 1 /\
  count_event (EvDial c true) (log s) + count_event (EvDial c false) (log s) <= 1 /\
  precedes (EvDial c true) (EvRemoteClose c) (log s) /\
  (In (EvDial c true) (log s) ->
   precedes (EvRemoteClose c) (EvLocalClose c (GHandler c)) (log s)).
Proof.
  intros Hrun. pose proof (run_reachable _ _ Hrun) as Hs.
  pose proof (lifecycle_cases s c Hs) as Hcases.
  split; [exact Hcases|]. split.
  { intros h Hl Hpc. pose proof (inv_life_reachable s Hs c) as H.
    by rewrite Hl, Hpc in H. }
  rewrite <- (lifecycle_count c (EvLocalClose c (GHandler c)) (log s))
    by apply concerns_local_close.
  rewrite <- (lifecycle_count c (EvRemoteClose c) (log s))
    by apply concerns_remote_close.
  rewrite <- (lifecycle_count c (EvDial c true) (log s)) by apply concerns_dial.
  rewrite <- (lifecycle_count c (EvDial c false) (log s)) by apply concerns_dial.
  assert (Hin : In (EvDial c true) (log s) ->
                In (EvDial c true) (lifecycle c (log s))).
  { intros H. apply lifecycle_In. split; [exact H | apply concerns_dial]. }
  assert (Hp1 : precedes (EvDial c true) (EvRemoteClose c) (lifecycle c (log s)) ->
                precedes (EvDial c true) (EvRemoteClose c) (log s))
    by (apply lifecycle_precedes, concerns_remote_close).
  assert (Hp2 : precedes (EvRemoteClose c) (EvLocalClose c (GHandler c))
                  (lifecycle c (log s)) ->
                precedes (EvRemoteClose c) (EvLocalClose c (GHandler c)) (log s))
    by (apply lifecycle_precedes, concerns_local_close).
  destruct Hcases as [E|[E|[E|[E|[E|E]]]]]; rewrite E in Hin, Hp1, Hp2 |- *;
    unfold count_event; cbn [List.filter];
    repeat (rewrite ?bool_decide_eq_true_2 by done;
            rewrite ?bool_decide_eq_false_2 by done);
    cbn [length];
    (split; [lia|]); (split; [lia|]); (split; [lia|]);
    (split; [apply Hp1 | intros Hd; apply Hin in Hd; apply Hp2; revert Hd]);
    clear; try (cbn; intuition discriminate);
    intros; intros newer older Heq;
    repeat (destruct newer as [|? newer]; cbn in Heq; try discriminate Heq);
    injection Heq as <-; subst; cbn; tauto.
Qed.

(** The properties of the goroutines at concrete runs. *)

Lemma X7_registry_capacity_witness :
  length (registered (log (state_after eleven_accepted))) = 10 /\
  step (state_after eleven_accepted) (LHSend 10) = None.
Proof.
  destruct (X7_registry_capacity eleven_accepted (state_after eleven_accepted))
    as (Hlen & _ & Hfull); [vm_compute; reflexivity|].
  split.
  - rewrite Hlen. vm_compute. reflexivity.
  - apply Hfull; vm_compute; reflexivity.
Defined.

Lemma X12_only_an_interrupt_stops_the_tunnel_witness :
  listener_closed (state_after quiet_service) = false /\
  is_Some (step (state_after quiet_service) (LAccept true)).
Proof.
  destruct (X12_only_an_interrupt_stops_the_tunnel quiet_service
              (state_after quiet_service))
    as (_ & _ & Hl & _ & _ & _ & _ & _ & _ & Hacc).
  - vm_compute. reflexivity.
  - vm_compute. intuition discriminate.
  - split; [exact Hl|]. apply Hacc. vm_compute. reflexivity.
Defined.

Lemma X8_send_on_closed_registry_panics_witness :
  exists s',
    step (state_after late_handler) (LHSend 0) = Some s' /\
    status s' = Panicked /\
    log s' = [EvPanic 0; EvConnsClose; EvAcceptLoopReturn; EvAcceptError;
              EvCancel GSignal; EvSignal; EvAccept 0].
Proof.
  destruct (X8_send_on_closed_registry_panics late_handler
              (state_after late_handler)) as (H & _);
    [vm_compute; reflexivity|].
  destruct (H 0 new_handler) as (s' & Hstep & Hst & Hlog & _);
    try (vm_compute; reflexivity).
  exists s'. split; [exact Hstep|]. split; [exact Hst|].
  rewrite Hlog. vm_compute. reflexivity.
Defined.

Lemma X10_no_accept_after_listener_close_witness :
  step (state_after interrupt_then_teardown) (LAccept true) = None.
Proof.
  destruct (X10_no_accept_after_listener_close interrupt_then_teardown
              (state_after interrupt_then_teardown)) as (_ & _ & H & _);
    [vm_compute; reflexivity|].
  apply H. vm_compute. reflexivity.
Defined.

Lemma X9_done_channel_never_blocks_witness :
  exists s' h',
    step (state_after loser_about_to_send) (LCopyDone 0 LocalToRemote) = Some s' /\
    handlers s' !! 0 = Some h' /\ done_len h' = 1.
Proof.
  destruct (X9_done_channel_never_blocks loser_about_to_send
              (state_after loser_about_to_send) 0
              {| hpc := HDone; copy_r2l := CDone; copy_l2r := CSend;
                 done_len := 0 |}) as (_ & _ & H);
    try (vm_compute; reflexivity).
  destruct (H LocalToRemote) as (s' & h' & Hstep & Hl & _ & Hd & _);
    try (vm_compute; reflexivity).
  exists s', h'. split; [exact Hstep|]. split; [exact Hl|]. exact Hd.
Defined.

Lemma X11_handler_lifecycle_witness :
  precedes (EvRemoteClose 0) (EvLocalClose 0 (GHandler 0))
           (log (state_after loser_about_to_send)) /\
  count_event (EvLocalClose 0 (GHandler 0))
              (log (state_after loser_about_to_send)) <= 1.
Proof.
  destruct (X11_handler_lifecycle loser_about_to_send
              (state_after loser_about_to_send) 0)
    as (_ & _ & Hc & _ & _ & _ & Hp); [vm_compute; reflexivity|].
  split; [|exact Hc]. apply Hp. vm_compute. tauto.
Defined.

Lemma signal_not_waiting s :
  reachable s -> In EvSignal (log s) -> sig_pc s <> SigWait.
Proof.
  induction 1 as [|s l s' Hs IH Hstep]; [intros []|].
  step_inv Hstep; cbn; intros [?|?]; try discriminate; try congruence;
    try (by apply IH).
Qed.

Lemma main_return_closed s :
  reachable s -> main_pc s = MainReturn -> client_closed s = true.
Proof.
  induction 1 as [|s l s' Hs IH Hstep]; [discriminate|].
  step_inv Hstep; cbn; try done; try congruence; auto.
Qed.

Lemma exits_within_step k s l s1 :
  step s l = Some s1 -> owner l = OwnControl ->
  exits_within k s1 -> exits_within (S k) s.
Proof.
  intros Hstep Hown (ls & s' & Hrun & Hst & Hall & Hlen & Hc & Hcl).
  exists (l :: ls), s'. cbn [run]. rewrite Hstep.
  repeat split; try done; [by constructor | cbn; lia].
Qed.

Lemma exits_within_mono k k' s : k <= k' -> exits_within k s -> exits_within k' s.
Proof.
  intros Hk (ls & s' & Hrun & Hst & Hall & Hlen & Hc & Hcl).
  exists ls, s'. repeat split; try done. lia.
Qed.

(** [runTunnel] returns once the context is cancelled, whatever the other
    goroutines are doing. *)
Lemma main_returns s :
  reachable s -> status s = Running -> cancelled s = true -> exits_within 4 s.
Proof.
  intros Hs Hst Hc.
  assert (Hret : forall s0, status s0 = Running -> main_pc s0 = MainReturn ->
                            cancelled s0 = true -> client_closed s0 = true ->
                            exits_within 1 s0).
  { intros s0 H1 H2 H3 H4. exists [LMainExit]. eexists. cbn [run].
    unfold step. rewrite H1. cbn [owner]. unfold step_control. rewrite H2.
    destruct (sig_pc s0); (split; [reflexivity|]); cbn;
      repeat split; try done; repeat constructor. }
  assert (Hclose : forall s0, status s0 = Running -> main_pc s0 = MainDeferClose ->
                              cancelled s0 = true -> exits_within 2 s0).
  { intros s0 H1 H2 H3.
    apply (exits_within_step _ _ LMainClientClose
             (record (EvClientClose GMain)
                (set_client_closed (set_main_pc MainReturn s0)))); [|done|].
    - unfold step. rewrite H1. cbn [owner]. unfold step_control. rewrite H2.
      by destruct (sig_pc s0).
    - by apply Hret. }
  assert (Hcancel : forall s0, status s0 = Running -> main_pc s0 = MainDeferCancel ->
                               exits_within 3 s0).
  { intros s0 H1 H2.
    apply (exits_within_step _ _ LMainCancel
             (record (EvCancel GMain)
                (set_cancelled (set_main_pc MainDeferClose s0)))); [|done|].
    - unfold step. rewrite H1. cbn [owner]. unfold step_control. rewrite H2.
      by destruct (sig_pc s0).
    - by apply Hclose. }
  destruct (main_pc s) eqn:Hm.
  - apply (exits_within_step _ _ LMainWake
             (record (EvCtxDone GMain) (set_main_pc MainDeferCancel s)));
      [|done|by apply Hcancel].
    unfold step. rewrite Hst. cbn [owner]. unfold step_control.
    rewrite Hm, Hc. by destruct (sig_pc s).
  - eapply exits_within_mono; [|by apply Hcancel]. lia.
  - eapply exits_within_mono; [|by apply Hclose]. lia.
  - eapply exits_within_mono; [|apply Hret; try done]. lia.
    by apply main_return_closed.
Qed.

(** X13: once an interrupt has arrived, the signal handler and
    [runTunnel] can take the running process to its exit by themselves, in
    at most five steps, with the context cancelled and the transport
    session closed, whatever the other goroutines are doing (a handler
    blocked in its send, the teardown goroutine at any point). *)
Theorem X13_interrupt_always_exits ls s :
  run init ls = Some s -> status s = Running -> In EvSignal (log s) ->
  exits_within 5 s.
Proof.
  intros Hrun Hst Hsig. pose proof (run_reachable _ _ Hrun) as Hs.
  pose proof (signal_not_waiting s Hs Hsig) as Hpc.
  destruct (inv_cancel_reachable s Hs) as (_ & C2 & _).
  destruct (sig_pc s) eqn:Hsp; [done| | |].
  - apply (exits_within_step _ _ LSigCancel
             (record (EvCancel GSignal)
                (set_cancelled (set_sig_pc SigClientClose s)))); [|done|].
    + unfold step. rewrite Hst. cbn [owner]. unfold step_control. by rewrite Hsp.
    + apply main_returns; [|done|done].
      apply (reachable_step s LSigCancel); [exact Hs|].
      unfold step. rewrite Hst. cbn [owner]. unfold step_control. by rewrite Hsp.
  - eapply exits_within_mono; [|by apply main_returns]. lia.
  - eapply exits_within_mono; [|by apply main_returns]. lia.
Qed.

Lemma X13_interrupt_always_exits_witness :
  exits_within 5 (state_after interrupt_at_full_registry).
Proof.
  apply (X13_interrupt_always_exits interrupt_at_full_registry).
  - vm_compute. reflexivity.
  - vm_compute. reflexivity.
  - vm_compute. tauto.
Defined.


Lemma copy_lifecycle_app c d tr1 tr2 :
  copy_lifecycle c d (tr1 ++ tr2) = copy_lifecycle c d tr1 ++ copy_lifecycle c d tr2.
Proof. apply List.filter_app. Qed.








Lemma torn_cons e tr :
  torn (e :: tr) =
  match e with EvLocalClose c GTeardown => c :: torn tr | _ => torn tr end.
Proof. destruct e; try reflexivity. by destruct g. Qed.

Lemma registered_In_inv c tr : In c (registered tr) -> In (EvRegister c) tr.
Proof.
  induction tr as [|e tr IH]; [done|]. rewrite registered_cons.
  destruct e; try (intros H; right; by apply IH).
  intros [->|H]; [by left | right; by apply IH].
Qed.

Lemma inv_fifo_reachable s : reachable s -> inv_fifo s.
Proof.
  induction 1 as [|s l s' Hs IH Hstep].
  - repeat split. constructor.
  - pose proof (inv_reg_reachable s Hs) as Hreg.
    unfold inv_fifo in *. destruct IH as (I1 & I2 & I3).
    step_inv Hstep;
      cbn [log record set_sig_pc set_main_pc set_acc_pc set_tear_pc
           set_handlers set_handler set_conns_buf set_conns_closed
           set_cancelled set_listener_closed set_client_closed
           set_status conns_buf tear_pc];
      rewrite registered_cons, drained_cons, torn_cons;
      try match goal with H : tear_pc _ = _ |- _ => rewrite H in I2 end;
      try match goal with H : conns_buf _ = _ |- _ => rewrite H in I1 end;
      try (split; [exact I1 | split; [exact I2 | exact I3]]).
    + rewrite Heql. by split.
    + split; [|split; [by rewrite I2 | exact I3]].
      cbn [rev]. by rewrite I1, <- app_assoc.
    + split; [|split].
      * cbn [rev]. by rewrite I1, app_assoc.
      * destruct (tear_pc s); exact I2.
      * constructor; [|exact I3]. intros Hin. apply registered_In_inv in Hin.
        specialize (Hreg c).
        match goal with H : handlers s !! c = Some _ |- _ => rewrite H in Hreg end.
        destruct Hreg as [[_ Hn]|[Hc _]]; [by apply Hn | congruence].
Qed.

Lemma count_torn c tr :
  count_event (EvLocalClose c GTeardown) tr =
  length (List.filter (fun c' => bool_decide (c' = c)) (torn tr)).
Proof.
  induction tr as [|e tr IH]; [done|].
  rewrite count_event_cons, torn_cons, IH.
  destruct e; try (by case_decide).
  destruct g; try (case_decide; [congruence | done]).
  cbn [List.filter]. unfold bool_decide.
  case_decide as H1; destruct (decide_rel eq c0 c) as [H2|H2]; try done.
  - injection H1 as ->. done.
  - subst. done.
Qed.

Lemma NoDup_count (c : nat) (l : list nat) :
  List.NoDup l -> length (List.filter (fun c' => bool_decide (c' = c)) l) <= 1.
Proof.
  induction 1 as [|x l Hx Hnd IH]; [cbn; lia|].
  cbn [List.filter]. unfold bool_decide at 1.
  destruct (decide_rel eq x c) as [->|Hne]; [|exact IH].
  cbn [length].
  assert (List.filter (fun c' => bool_decide (c' = c)) l = []) as ->; [|cbn; lia].
  clear IH Hnd. induction l as [|y l IHl]; [done|].
  cbn [List.filter]. unfold bool_decide at 1.
  destruct (decide_rel eq y c) as [->|Hne].
  - destruct Hx. by left.
  - apply IHl. intros H. apply Hx. by right.
Qed.

(** X22: [conns] is a queue.  The connections registered are, in the order
    of their registration, those the teardown goroutine has received
    followed by those that wait in [conns]; no connection is registered
    twice; the teardown goroutine has closed every connection it has
    received but the one it holds; it closes no connection twice, and none
    that it has not received. *)
Theorem X22_teardown_drains_in_order ls s :
  run init ls = Some s ->
  rev (registered (log s)) = rev (drained (log s)) ++ conns_buf s /\
  List.NoDup (registered (log s)) /\
  (drained (log s) = torn (log s) \/
   exists c, tear_pc s = TearClose c /\ drained (log s) = c :: torn (log s)) /\
  (forall c, count_event (EvLocalClose c GTeardown) (log s) <= 1) /\
  (forall c, precedes (EvDrain c) (EvLocalClose c GTeardown) (log s)).
Proof.
  intros Hrun. pose proof (run_reachable _ _ Hrun) as Hs.
  destruct (inv_fifo_reachable s Hs) as (Hq & Ht & Hnd).
  assert (Hdr : List.NoDup (drained (log s))).
  { apply NoDup_rev in Hnd. rewrite Hq in Hnd.
    apply NoDup_app_remove_r in Hnd. apply NoDup_rev in Hnd.
    by rewrite rev_involutive in Hnd. }
  assert (Htorn : List.NoDup (torn (log s))).
  { destruct (tear_pc s); rewrite Ht in Hdr; try exact Hdr.
    by inversion Hdr. }
  split; [exact Hq|]. split; [exact Hnd|]. split; [|split].
  - destruct (tear_pc s); eauto.
  - intros c. rewrite count_torn. by apply NoDup_count.
  - intros c. apply precedes_intro; [|exact Hs].
    intros s0 l s' Hs0 Hstep Hlog.
    destruct (inv_fifo_reachable s0 Hs0) as (_ & Ht0 & _).
    step_inv Hstep; cbn in Hlog; try discriminate Hlog.
    injection Hlog as ->.
    try match goal with H : tear_pc s0 = _ |- _ => rewrite H in Ht0 end.
    assert (Hin : In c (drained (log s0))) by (rewrite Ht0; by left).
    clear -Hin. induction (log s0) as [|e tr IH]; [done|].
    rewrite drained_cons in Hin. destruct e; try (right; by apply IH).
    destruct Hin as [->|Hin]; [by left | right; by apply IH].
Qed.

Lemma X22_teardown_drains_in_order_witness :
  rev (registered (log (state_after two_being_drained))) = [0; 1] /\
  tear_pc (state_after two_being_drained) = TearClose 1 /\
  torn (log (state_after two_being_drained)) = [0].
Proof.
  destruct (X22_teardown_drains_in_order two_being_drained
              (state_after two_being_drained))
    as (Hq & _ & Hheld & _); [vm_compute; reflexivity|].
  split; [rewrite Hq; vm_compute; reflexivity|].
  destruct Hheld as [Hd|(c & Hpc & Hd)].
  - exfalso. revert Hd. vm_compute. discriminate.
  - split; [vm_compute; reflexivity|]. vm_compute. reflexivity.
Defined.

(** * The registry and the service of the connections *)















(** * Properties of the command line *)

Lemma cvalue_bind {A B} (c : Cmd A) (k : A -> Cmd B) n :
  cvalue (cbind c k) n = cvalue (k (cvalue c n)) (cnext c n).
Proof. reflexivity. Qed.

Lemma cnext_bind {A B} (c : Cmd A) (k : A -> Cmd B) n :
  cnext (cbind c k) n = cnext (k (cvalue c n)) (cnext c n).
Proof. reflexivity. Qed.

Lemma ccalls_bind {A B} (c : Cmd A) (k : A -> Cmd B) n :
  ccalls (cbind c k) n = ccalls c n ++ ccalls (k (cvalue c n)) (cnext c n).
Proof. reflexivity. Qed.

Lemma Cmd_eta {A} (c : Cmd A) n : c n = (cvalue c n, cnext c n, ccalls c n).
Proof. unfold cvalue, cnext, ccalls. by destruct (c n) as [[? ?] ?]. Qed.

Section CommandLineFacts.

Variable m : Machine.
Variable host : Host.
Variable configPath : string.

(** The menu: one line for each environment, numbered from [i + 1] on, and
    nothing read. *)
Lemma printMenu_next i environments n : cnext (printMenu i environments) n = n.
Proof.
  revert i. induction environments as [|env rest IH]; intros i; [done|].
  cbn [printMenu]. rewrite cnext_bind. apply IH.
Qed.


Lemma printMenu_calls i environments n k :
  ccalls (printMenu i environments) n !! k =
  (fun env => CmdPrint (itoa (Z.of_nat (i + k + 1)) +:+ ". " +:+ env +:+ newline))
    <$> environments !! k.
Proof.
  revert i k. induction environments as [|env rest IH]; intros i k; [done|].
  cbn [printMenu]. rewrite ccalls_bind.
  change (ccalls (cemit ?e) n) with [e]. cbn [app].
  destruct k as [|k].
  - cbn. by rewrite Nat.add_0_r.
  - change (cnext (cemit ?e) n) with n.
    change ((?e :: ?l) !! S k) with (l !! k). rewrite IH.
    by replace (S i + k + 1) with (i + S k + 1) by lia.
Qed.

Lemma printMenu_length i environments n :
  length (ccalls (printMenu i environments) n) = length environments.
Proof.
  revert i. induction environments as [|env rest IH]; intros i; [done|].
  cbn [printMenu]. rewrite ccalls_bind, length_app. cbn. by rewrite IH.
Qed.

Lemma getEnvironmentKeys_length (environments : gmap string Environment) :
  length (getEnvironmentKeys environments) = size environments.
Proof.
  unfold getEnvironmentKeys. by rewrite length_fmap, length_map_to_list.
Qed.

Lemma getEnvironmentKeys_lookup (environments : gmap string Environment) k env :
  getEnvironmentKeys environments !! k = Some env ->
  is_Some (environments !! env).
Proof.
  unfold getEnvironmentKeys. rewrite list_lookup_fmap. intros H.
  destruct (map_to_list environments !! k) as [[key v]|] eqn:E; [|done].
  injection H as <-. exists v. apply elem_of_map_to_list.
  by eapply list_elem_of_lookup_2.
Qed.

(** The run of [getEnvironment] that shows the menu. *)
Lemma getEnvironment_menu cmd config n :
  GetString cmd "environment" = "" ->
  getEnvironmentKeys (Environments config) <> [] ->
  getEnvironment m cmd config n =
  let environments := getEnvironmentKeys (Environments config) in
  let shown :=
    CmdPrint ("Available environments:" +:+ newline)
    :: ccalls (printMenu 0 environments) n
    ++ [CmdPrint "Select environment (enter number): "; CmdScanln] in
  if decide (stdin_Scanln m < 1 \/
             stdin_Scanln m > Z.of_nat (length environments))%Z
  then (Exits 1, n,
        shown ++ [CmdSys (IoLog "Invalid selection"); CmdSys (IoExit 1)])
  else match environments !! Z.to_nat (stdin_Scanln m - 1) with
       | Some env => (Returns env, n, shown)
       | None => (Panics, n, shown ++ [CmdIndexOutOfRange])
       end.
Proof.
  intros Hflag Hkeys. unfold getEnvironment. rewrite Hflag.
  destruct (decide ("" = "")) as [_|]; [|done].
  destruct (decide (length (getEnvironmentKeys (Environments config)) = 0))
    as [Hz|_]; [by apply nil_length_inv in Hz|].
  cbv zeta. rewrite Cmd_eta.
  rewrite !cvalue_bind, !cnext_bind, !ccalls_bind.
  change (cnext (cemit ?e) ?k) with k.
  rewrite !printMenu_next.
  change (ccalls (cemit ?e) ?k) with [e]. cbn [app].
  destruct (decide _) as [Hbad|Hgood].
  - cbn. by rewrite <- app_assoc.
  - destruct (_ !! _); cbn; [reflexivity|]. by rewrite <- app_assoc.
Qed.

Lemma getEnvironment_empty cmd config n :
  GetString cmd "environment" = "" ->
  getEnvironmentKeys (Environments config) = [] ->
  getEnvironment m cmd config n =
  (Exits 1, n,
   [CmdSys (IoLog "No environments found in config file. Please recreate your config or specify parameters.");
    CmdSys (IoExit 1)]).
Proof.
  intros Hflag Hkeys. unfold getEnvironment. rewrite Hflag, Hkeys.
  destruct (decide ("" = "")) as [_|]; [|done]. reflexivity.
Qed.

Lemma getEnvironmentKeys_nil (environments : gmap string Environment) :
  getEnvironmentKeys environments = [] <-> environments = ∅.
Proof.
  unfold getEnvironmentKeys. rewrite <- (map_to_list_empty_iff environments).
  split; [apply fmap_nil_inv | by intros ->].
Qed.

(** X14: the menu of [getEnvironment].  When no environment flag is given,
    the line numbered k+1 shows the k-th environment and the answer k+1
    selects that environment; an environment the menu returns is a key of
    the environments of the configuration and was selected by its number;
    the index into the environments is always in range; and no line is read
    from the terminal. *)
Theorem X14_menu_selects_what_it_shows cmd config n :
  GetString cmd "environment" = "" ->
  (forall k env,
      getEnvironmentKeys (Environments config) !! k = Some env ->
      ccalls (getEnvironment m cmd config) n !! S k =
      Some (CmdPrint (itoa (Z.of_nat (k + 1)) +:+ ". " +:+ env +:+ newline)) /\
      (stdin_Scanln m = Z.of_nat (k + 1) ->
       cvalue (getEnvironment m cmd config) n = Returns env)) /\
  (forall env,
      cvalue (getEnvironment m cmd config) n = Returns env ->
      is_Some (Environments config !! env) /\
      exists k, getEnvironmentKeys (Environments config) !! k = Some env /\
                stdin_Scanln m = Z.of_nat (k + 1)) /\
  cvalue (getEnvironment m cmd config) n <> Panics /\
  cnext (getEnvironment m cmd config) n = n.
Proof.
  intros Hflag.
  destruct (decide (getEnvironmentKeys (Environments config) = [])) as [Hkeys|Hne].
  { unfold cvalue, cnext. rewrite (getEnvironment_empty _ _ _ Hflag Hkeys).
    rewrite Hkeys. repeat split; try done. }
  unfold cvalue, cnext, ccalls.
  rewrite (getEnvironment_menu _ _ _ Hflag Hne). cbv zeta.
  remember (getEnvironmentKeys (Environments config)) as keys eqn:Hkeys.
  split; [|split; [|split]].
  - intros k env Hk. pose proof (lookup_lt_Some _ _ _ Hk) as Hlt. split.
    + assert (Hline : (CmdPrint ("Available environments:" +:+ newline)
                       :: ccalls (printMenu 0 keys) n
                       ++ [CmdPrint "Select environment (enter number): ";
                           CmdScanln]) !! S k =
                      Some (CmdPrint (itoa (Z.of_nat (k + 1)) +:+ ". " +:+ env
                                      +:+ newline))).
      { change ((?e :: ?l) !! S k) with (l !! k).
        rewrite lookup_app_l by (by rewrite printMenu_length).
        by rewrite printMenu_calls, Hk. }
      assert (Hlen : S k < length
                (CmdPrint ("Available environments:" +:+ newline)
                 :: ccalls (printMenu 0 keys) n
                 ++ [CmdPrint "Select environment (enter number): ";
                     CmdScanln])).
      { cbn [length]. rewrite length_app, printMenu_length. lia. }
      destruct (decide _);
        [|destruct (keys !! Z.to_nat (stdin_Scanln m - 1))]; cbn [snd];
        rewrite ?lookup_app_l by exact Hlen; exact Hline.
    + intros Hchoice. rewrite Hchoice.
      destruct (decide _) as [Hbad|_]; [lia|].
      replace (Z.to_nat (Z.of_nat (k + 1) - 1)) with k by lia.
      by rewrite Hk.
  - intros env. destruct (decide _) as [Hbad|Hgood]; [discriminate|].
    destruct (keys !! Z.to_nat (stdin_Scanln m - 1)) as [env'|] eqn:Hk;
      [|discriminate].
    cbn. intros [= <-]. split.
    + apply (getEnvironmentKeys_lookup _ (Z.to_nat (stdin_Scanln m - 1))).
      by rewrite <- Hkeys.
    + exists (Z.to_nat (stdin_Scanln m - 1)). split; [exact Hk | lia].
  - destruct (decide _) as [Hbad|Hgood]; [discriminate|].
    destruct (keys !! Z.to_nat (stdin_Scanln m - 1)) as [env'|] eqn:Hk;
      [discriminate|].
    apply lookup_ge_None_1 in Hk. lia.
  - destruct (decide _); [|destruct (keys !! _)]; reflexivity.
Qed.

(** X15: when no environment flag is given, [getEnvironment] ends the
    process exactly when the configuration has no environment, or the number
    scanned is below 1 or above the number of environments (0, which an
    answer that is no number leaves, included); with no environment the
    menu is not shown and nothing is scanned; and the exit has status 1 and
    is the last call, after its log line. *)
Theorem X15_menu_rejects cmd config n :
  GetString cmd "environment" = "" ->
  (cvalue (getEnvironment m cmd config) n = Exits 1 <->
   Environments config = ∅ \/ (stdin_Scanln m < 1)%Z \/
   (stdin_Scanln m > Z.of_nat (size (Environments config)))%Z) /\
  (Environments config = ∅ ->
   ccalls (getEnvironment m cmd config) n =
   [CmdSys (IoLog "No environments found in config file. Please recreate your config or specify parameters.");
    CmdSys (IoExit 1)]) /\
  (forall code,
      cvalue (getEnvironment m cmd config) n = Exits code ->
      code = 1%Z /\
      exists pre msg,
        ccalls (getEnvironment m cmd config) n =
        pre ++ [CmdSys (IoLog msg); CmdSys (IoExit 1)]).
Proof.
  intros Hflag.
  destruct (decide (getEnvironmentKeys (Environments config) = [])) as [Hkeys|Hne].
  { pose proof (proj1 (getEnvironmentKeys_nil _) Hkeys) as Hempty.
    unfold cvalue, ccalls. rewrite (getEnvironment_empty _ _ _ Hflag Hkeys).
    cbn [fst snd]. split; [by split; auto|]. split; [done|].
    intros code [= <-]. split; [done|]. by eexists [], _. }
  assert (Hnonempty : Environments config <> ∅).
  { intros He. by apply getEnvironmentKeys_nil in He. }
  pose proof (getEnvironmentKeys_length (Environments config)) as Hlen.
  unfold cvalue, ccalls.
  rewrite (getEnvironment_menu _ _ _ Hflag Hne). cbv zeta. rewrite <- Hlen.
  destruct (decide _) as [Hbad|Hgood]; cbn [fst snd].
  - split; [split; [tauto | done]|]. split; [done|].
    intros code [= <-]. split; [done|]. eexists _, _. reflexivity.
  - destruct (_ !! _); cbn [fst snd];
      (split; [split; [discriminate | tauto]|]); (split; [done|]); discriminate.
Qed.

(** A setting is its flag, or is asked for. *)
Lemma flag_or_prompt cmd name prompt n :
  (if decide (GetString cmd name = "")
   then promptForInput m prompt
   else cret (GetString cmd name)) n =
  (setting m cmd name n, n + asked cmd name, ask cmd name prompt).
Proof.
  unfold setting, asked, ask. destruct (decide _).
  - by rewrite Nat.add_1_r.
  - by rewrite Nat.add_0_r.
Qed.

Lemma cvalue_flag_or_prompt cmd name prompt n :
  cvalue (if decide (GetString cmd name = "")
          then promptForInput m prompt
          else cret (GetString cmd name)) n = setting m cmd name n.
Proof. unfold cvalue. by rewrite flag_or_prompt. Qed.

Lemma cnext_flag_or_prompt cmd name prompt n :
  cnext (if decide (GetString cmd name = "")
         then promptForInput m prompt
         else cret (GetString cmd name)) n = n + asked cmd name.
Proof. unfold cnext. by rewrite flag_or_prompt. Qed.

Lemma ccalls_flag_or_prompt cmd name prompt n :
  ccalls (if decide (GetString cmd name = "")
          then promptForInput m prompt
          else cret (GetString cmd name)) n = ask cmd name prompt.
Proof. unfold ccalls. by rewrite flag_or_prompt. Qed.

(** The run of [createNewConfig], by the first call that fails. *)
Lemma createNewConfig_run cmd n :
  createNewConfig m configPath cmd n =
  let config := newConfig m cmd n in
  let next := n + asked cmd "bastion" + asked cmd "key"
              + asked cmd "opensearch-staging"
              + asked cmd "opensearch-production" in
  let asking :=
    CmdPrint ("Creating new configuration file..." +:+ newline)
    :: questions cmd ++ [CmdMkdirAll (filepath_Dir m configPath) 493] in
  match os_MkdirAll m (filepath_Dir m configPath) 493 with
  | Some e =>
      (Err (Errorf "error creating config directory: " e), next, asking)
  | None =>
      match yaml_Marshal m config with
      | Err e =>
          (Err (Errorf "error marshaling config: " e), next,
           asking ++ [CmdMarshal config])
      | Ok yamlData =>
          match os_WriteFile m configPath yamlData 420 with
          | Some e =>
              (Err (Errorf "error writing config file: " e), next,
               asking ++ [CmdMarshal config;
                          CmdWriteFile configPath yamlData 420])
          | None =>
              (Ok config, next,
               asking ++ [CmdMarshal config;
                          CmdWriteFile configPath yamlData 420;
                          CmdPrint ("Configuration saved to " +:+ configPath
                                    +:+ newline)])
          end
      end
  end.
Proof.
  unfold createNewConfig. rewrite Cmd_eta.
  rewrite !cvalue_bind, !cnext_bind, !ccalls_bind.
  change (cnext (cemit ?e) ?k) with k.
  change (ccalls (cemit ?e) ?k) with [e].
  rewrite !cvalue_flag_or_prompt, !cnext_flag_or_prompt, !ccalls_flag_or_prompt.
  cbv zeta. fold (newConfig m cmd n). unfold questions.
  destruct (os_MkdirAll m _ _).
  { cbn. by rewrite <- !app_assoc. }
  rewrite !cvalue_bind, !cnext_bind, !ccalls_bind.
  change (cnext (cemit ?e) ?k) with k.
  change (ccalls (cemit ?e) ?k) with [e].
  destruct (yaml_Marshal m _).
  2:{ cbn. by rewrite <- !app_assoc. }
  rewrite !cvalue_bind, !cnext_bind, !ccalls_bind.
  change (cnext (cemit ?e) ?k) with k.
  change (ccalls (cemit ?e) ?k) with [e].
  destruct (os_WriteFile m _ _ _); cbn; by rewrite <- !app_assoc.
Qed.

Lemma count_cmd_app p l1 l2 :
  count_cmd p (l1 ++ l2) = count_cmd p l1 + count_cmd p l2.
Proof. unfold count_cmd. by rewrite List.filter_app, length_app. Qed.

Lemma count_read_ask cmd name prompt :
  count_cmd is_read (ask cmd name prompt) = asked cmd name.
Proof. unfold ask, asked. by destruct (decide _). Qed.

Lemma count_read_questions cmd :
  count_cmd is_read (questions cmd) =
  asked cmd "bastion" + asked cmd "key" + asked cmd "opensearch-staging"
  + asked cmd "opensearch-production".
Proof.
  unfold questions. rewrite !count_cmd_app, !count_read_ask. lia.
Qed.

(** The questions are prompts and reads. *)
Lemma questions_In cmd e :
  In e (questions cmd) ->
  e = CmdReadString \/
  exists name prompt,
    e = CmdPrint prompt /\ GetString cmd name = "" /\
    In (name, prompt)
       [("bastion", "Enter bastion host (e.g., ubuntu@12.34.56.78): ");
        ("key", "Enter SSH key path (e.g., ~/.ssh/key.pem): ");
        ("opensearch-staging", "Enter OpenSearch host for staging environment: ");
        ("opensearch-production",
         "Enter OpenSearch host for production environment: ")].
Proof.
  unfold questions, ask. intros H.
  repeat (apply in_app_or in H as [H|H]);
    (destruct (decide _) as [Hflag|_]; [|destruct H]);
    (destruct H as [<-|[<-|[]]]; [|by left]);
    right; do 2 eexists; (split; [reflexivity|]); (split; [exact Hflag|]);
    cbn; tauto.
Qed.

(** X16: the configuration [createNewConfig] builds.  Each setting is its
    flag when the flag is given, and else the trimmed line read at the
    terminal, the lines being read in the order bastion host, key path,
    staging host, production host; the environments are staging and
    production and no other; and one line is read for each flag that is not
    given, no more. *)
Theorem X16_new_config_settings cmd n :
  (forall config,
      In (CmdMarshal config) (ccalls (createNewConfig m configPath cmd) n) \/
      cvalue (createNewConfig m configPath cmd) n = Ok config ->
      BastionHost config = setting m cmd "bastion" n /\
      KeyPath config = setting m cmd "key" (n + asked cmd "bastion") /\
      Environments config !! "staging" =
      Some {| OpenSearchHost :=
                setting m cmd "opensearch-staging"
                  (n + asked cmd "bastion" + asked cmd "key") |} /\
      Environments config !! "production" =
      Some {| OpenSearchHost :=
                setting m cmd "opensearch-production"
                  (n + asked cmd "bastion" + asked cmd "key"
                   + asked cmd "opensearch-staging") |} /\
      forall name, name <> "staging" -> name <> "production" ->
                   Environments config !! name = None) /\
  cnext (createNewConfig m configPath cmd) n =
  n + asked cmd "bastion" + asked cmd "key" + asked cmd "opensearch-staging"
  + asked cmd "opensearch-production" /\
  count_cmd is_read (ccalls (createNewConfig m configPath cmd) n) =
  asked cmd "bastion" + asked cmd "key" + asked cmd "opensearch-staging"
  + asked cmd "opensearch-production".
Proof.
  assert (Hnew : forall config,
             In (CmdMarshal config) (ccalls (createNewConfig m configPath cmd) n) \/
             cvalue (createNewConfig m configPath cmd) n = Ok config ->
             config = newConfig m cmd n).
  { intros config. unfold ccalls, cvalue. rewrite createNewConfig_run. cbv zeta.
    assert (Hq : ~ In (CmdMarshal config) (questions cmd)).
    { intros H. apply questions_In in H as [H|(? & ? & H & _)]; discriminate. }
    revert Hq. generalize (questions cmd). intros qs Hq.
    destruct (os_MkdirAll m _ _); [|destruct (yaml_Marshal m _);
                                     [destruct (os_WriteFile m _ _ _)|]];
      cbn [fst snd]; (intros [H|H]; [|congruence]);
      repeat (apply in_app_or in H as [H|H] || destruct H as [H|H]);
      try discriminate H; try contradiction; congruence. }
  split; [|split].
  - intros config H. rewrite (Hnew config H). cbn.
    repeat split.
    intros name Hs Hp. rewrite lookup_insert_ne by done.
    by rewrite lookup_singleton_ne.
  - unfold cnext. rewrite createNewConfig_run. cbv zeta.
    destruct (os_MkdirAll m _ _); [|destruct (yaml_Marshal m _);
                                     [destruct (os_WriteFile m _ _ _)|]];
      reflexivity.
  - unfold ccalls. rewrite createNewConfig_run. cbv zeta.
    destruct (os_MkdirAll m _ _); [|destruct (yaml_Marshal m _);
                                     [destruct (os_WriteFile m _ _ _)|]];
      cbn [fst snd];
      change (?e :: ?l ++ ?l') with ([e] ++ l ++ l');
      rewrite !count_cmd_app, count_read_questions; cbn; lia.
Qed.

(** X17: [createNewConfig] writes the file only at the configuration path
    and with mode 0644, only once the directory has been made, and what it
    writes is what marshalling the configuration returned.  When it returns
    a configuration, its last four calls made the directory, marshalled that
    configuration, wrote the file and reported it as saved.  When it returns
    an error, the file is not reported as saved, the error wraps the cause
    of the call that failed, and no call of a later stage was made. *)
Theorem X17_new_config_is_saved_or_reported cmd n :
  (forall path data perm,
      In (CmdWriteFile path data perm)
         (ccalls (createNewConfig m configPath cmd) n) ->
      path = configPath /\ perm = 420%Z /\
      os_MkdirAll m (filepath_Dir m configPath) 493 = None /\
      exists config,
        In (CmdMarshal config) (ccalls (createNewConfig m configPath cmd) n) /\
        yaml_Marshal m config = Ok data) /\
  (forall config,
      cvalue (createNewConfig m configPath cmd) n = Ok config ->
      exists data pre,
        os_MkdirAll m (filepath_Dir m configPath) 493 = None /\
        yaml_Marshal m config = Ok data /\
        os_WriteFile m configPath data 420 = None /\
        ccalls (createNewConfig m configPath cmd) n =
        pre ++ [CmdMkdirAll (filepath_Dir m configPath) 493;
                CmdMarshal config;
                CmdWriteFile configPath data 420;
                CmdPrint ("Configuration saved to " +:+ configPath +:+ newline)]) /\
  (forall e,
      cvalue (createNewConfig m configPath cmd) n = Err e ->
      ~ In (CmdPrint ("Configuration saved to " +:+ configPath +:+ newline))
           (ccalls (createNewConfig m configPath cmd) n) /\
      ((exists cause,
           os_MkdirAll m (filepath_Dir m configPath) 493 = Some cause /\
           e = Errorf "error creating config directory: " cause /\
           count_cmd is_file_call (ccalls (createNewConfig m configPath cmd) n) = 1) \/
       (exists cause config,
           yaml_Marshal m config = Err cause /\
           e = Errorf "error marshaling config: " cause /\
           count_cmd is_file_call (ccalls (createNewConfig m configPath cmd) n) = 2 /\
           forall path data perm,
             ~ In (CmdWriteFile path data perm)
                  (ccalls (createNewConfig m configPath cmd) n)) \/
       (exists cause data,
           os_WriteFile m configPath data 420 = Some cause /\
           e = Errorf "error writing config file: " cause))).
Proof.
  unfold ccalls, cvalue. rewrite createNewConfig_run. cbv zeta.
  assert (Hq : forall e, In e (questions cmd) ->
                         is_file_call e = false /\
                         e <> CmdPrint ("Configuration saved to " +:+ configPath
                                        +:+ newline)).
  { intros e H. apply questions_In in H as [->|(name & prompt & -> & _ & H)];
      [by split|]. split; [done|].
    repeat destruct H as [H|H]; try (injection H as <- <-; discriminate).
    destruct H. }
  assert (Hcount : count_cmd is_file_call (questions cmd) = 0).
  { unfold count_cmd. generalize (questions cmd) Hq. intros qs Hqs.
    induction qs as [|e qs IH]; [done|]. cbn.
    destruct (Hqs e (or_introl eq_refl)) as [-> _]. apply IH.
    intros e' He'. apply Hqs. by right. }
  revert Hq Hcount. generalize (questions cmd). intros qs Hq Hcount.
  assert (Hwq : forall path data perm, ~ In (CmdWriteFile path data perm) qs).
  { intros path data perm H. by destruct (Hq _ H). }
  assert (Hsq : ~ In (CmdPrint ("Configuration saved to " +:+ configPath
                                 +:+ newline)) qs).
  { intros H. by destruct (Hq _ H). }
  destruct (os_MkdirAll m _ _) as [e1|] eqn:Hmk;
    [|destruct (yaml_Marshal m (newConfig m cmd n)) as [data|e2] eqn:Hma;
      [destruct (os_WriteFile m _ _ _) as [e3|] eqn:Hwr|]];
    cbn [fst snd].
  - split; [|split].
    + intros path data perm [H|H]; [discriminate|].
      apply in_app_or in H as [H|[H|[]]]; [by destruct (Hwq _ _ _ H) | discriminate].
    + discriminate.
    + intros e [= <-]. split.
      * intros [H|H]; [discriminate|].
        apply in_app_or in H as [H|[H|[]]]; [done | discriminate].
      * left. exists e1. repeat split.
        change (?e :: ?l ++ ?l') with ([e] ++ l ++ l').
        rewrite !count_cmd_app, Hcount. reflexivity.
  - split; [|split].
    + intros path data' perm H. apply in_app_or in H as [H|H].
      * destruct H as [H|H]; [discriminate|].
        apply in_app_or in H as [H|[H|[]]];
          [by destruct (Hwq _ _ _ H) | discriminate].
      * destruct H as [H|[H|[]]]; [discriminate|]. injection H as <- <- <-.
        repeat split. exists (newConfig m cmd n). split; [|done].
        apply in_or_app. right. by left.
    + discriminate.
    + intros e [= <-]. split.
      * intros H. apply in_app_or in H as [H|H].
        -- destruct H as [H|H]; [discriminate|].
           apply in_app_or in H as [H|[H|[]]]; [done | discriminate].
        -- destruct H as [H|[H|[]]]; discriminate.
      * right. right. by exists e3, data.
  - split; [|split].
    + intros path data' perm H. apply in_app_or in H as [H|H].
      * destruct H as [H|H]; [discriminate|].
        apply in_app_or in H as [H|[H|[]]];
          [by destruct (Hwq _ _ _ H) | discriminate].
      * destruct H as [H|[H|[H|[]]]]; try discriminate. injection H as <- <- <-.
        repeat split. exists (newConfig m cmd n). split; [|done].
        apply in_or_app. right. by left.
    + intros config [= <-]. exists data, (CmdPrint ("Creating new configuration file..." +:+ newline) :: qs).
      repeat split; try done. cbn [app]. by rewrite <- app_assoc.
    + discriminate.
  - split; [|split].
    + intros path data' perm H. apply in_app_or in H as [H|H].
      * destruct H as [H|H]; [discriminate|].
        apply in_app_or in H as [H|[H|[]]];
          [by destruct (Hwq _ _ _ H) | discriminate].
      * destruct H as [H|[]]; discriminate.
    + discriminate.
    + intros e [= <-]. split.
      * intros H. apply in_app_or in H as [H|H].
        -- destruct H as [H|H]; [discriminate|].
           apply in_app_or in H as [H|[H|[]]]; [done | discriminate].
        -- destruct H as [H|[]]; discriminate.
      * right. left. exists e2, (newConfig m cmd n).
        split; [done|]. split; [done|]. split.
        -- change (?e :: ?l ++ ?l') with ([e] ++ l ++ l').
           rewrite !count_cmd_app, Hcount. reflexivity.
        -- intros path data perm H. apply in_app_or in H as [H|H].
           ++ destruct H as [H|H]; [discriminate|].
              apply in_app_or in H as [H|[H|[]]];
                [by destruct (Hwq _ _ _ H) | discriminate].
           ++ destruct H as [H|[]]; discriminate.
Qed.

(** [getConfig] by the answer of [os.Stat]. *)
Lemma getConfig_run cmd n :
  getConfig m configPath cmd n =
  match os_Stat m configPath with
  | None =>
      (cvalue (loadConfig m configPath) n, n,
       CmdStat configPath :: ccalls (loadConfig m configPath) n)
  | Some _ =>
      (cvalue (createNewConfig m configPath cmd) n,
       cnext (createNewConfig m configPath cmd) n,
       CmdStat configPath :: ccalls (createNewConfig m configPath cmd) n)
  end.
Proof.
  unfold getConfig, fileExists, cbind, cemit, cret. cbn [fst snd app].
  destruct (os_Stat m configPath); cbn [fst snd app]; [reflexivity|].
  unfold cvalue, ccalls. f_equal. f_equal.
  unfold loadConfig, cbind, cemit, cret. cbn [fst snd].
  destruct (viper_ReadInConfig m configPath); [reflexivity|].
  destruct (viper_Unmarshal m configPath); reflexivity.
Qed.

Lemma loadConfig_calls n e :
  In e (ccalls (loadConfig m configPath) n) ->
  e = CmdReadInConfig configPath \/ e = CmdUnmarshal.
Proof.
  unfold loadConfig, ccalls, cbind, cemit, cret. cbn [fst snd].
  destruct (viper_ReadInConfig m configPath); cbn [fst snd app];
    [|destruct (viper_Unmarshal m configPath); cbn [fst snd app]];
    intros H; repeat destruct H as [<-|H]; auto; destruct H.
Qed.

Lemma getEnvironment_flag cmd cmd' config :
  GetString cmd' "environment" = GetString cmd "environment" ->
  getEnvironment m cmd' config = getEnvironment m cmd config.
Proof. intros H. unfold getEnvironment. by rewrite H. Qed.

(** X18: when the configuration file exists, [getConfig] only stats, reads
    and parses it: it asks nothing at the terminal, writes nothing and
    ignores the flags; and the whole run of the command then depends on the
    flags through the environment flag only. *)
Theorem X18_existing_config_is_only_read cmd n :
  os_Stat m configPath = None ->
  (forall e,
      In e (ccalls (getConfig m configPath cmd) n) ->
      e = CmdStat configPath \/ e = CmdReadInConfig configPath \/
      e = CmdUnmarshal) /\
  cnext (getConfig m configPath cmd) n = n /\
  (forall cmd', getConfig m configPath cmd' n = getConfig m configPath cmd n) /\
  (forall cmd',
      GetString cmd' "environment" = GetString cmd "environment" ->
      runTunnel_cmd m host configPath cmd' n =
      runTunnel_cmd m host configPath cmd n).
Proof.
  intros Hstat. split; [|split; [|split]].
  - unfold ccalls. rewrite getConfig_run, Hstat. cbn [snd].
    intros e [<-|H]; [by left|]. right. by eapply loadConfig_calls.
  - unfold cnext. by rewrite getConfig_run, Hstat.
  - intros cmd'. by rewrite !getConfig_run, Hstat.
  - intros cmd' Hflag. unfold runTunnel_cmd, cbind.
    rewrite !getConfig_run, Hstat. cbn [fst snd].
    destruct (cvalue (loadConfig m configPath) n); [|reflexivity].
    by rewrite (getEnvironment_flag _ _ _ Hflag).
Qed.

(** The menu is made of lines printed. *)
Lemma printMenu_prints i environments n e :
  In e (ccalls (printMenu i environments) n) -> exists text, e = CmdPrint text.
Proof.
  intros Hin. apply list_elem_of_In, list_elem_of_lookup_1 in Hin as [k Hk].
  rewrite printMenu_calls in Hk.
  destruct (environments !! k); [|discriminate]. injection Hk as <-. eauto.
Qed.

(** The two environments of a new configuration. *)
Lemma newConfig_environments cmd n :
  length (getEnvironmentKeys (Environments (newConfig m cmd n))) = 2 /\
  forall environment,
    is_Some (Environments (newConfig m cmd n) !! environment) <->
    environment = "staging" \/ environment = "production".
Proof.
  split.
  - rewrite getEnvironmentKeys_length. cbn [Environments newConfig].
    rewrite map_size_insert_None by done. by rewrite map_size_singleton.
  - intros environment. cbn [Environments newConfig].
    destruct (decide (environment = "staging")) as [->|Hs].
    { rewrite lookup_insert_eq. split; [by left | eauto]. }
    rewrite lookup_insert_ne by done.
    destruct (decide (environment = "production")) as [->|Hp].
    { rewrite lookup_singleton_eq. split; [by right | eauto]. }
    rewrite lookup_singleton_ne by done. split; [by intros [? ?] | tauto].
Qed.

(** X19: the bastion host is checked only after the new configuration has
    been saved.  When there is no configuration file and the bastion host
    that was given, by flag or at the terminal, does not hold exactly one
    [@], the configuration is still written to the file and reported as
    saved, and the run then ends with status 1, the exit being its last
    call: on the format error when the environment is staging or
    production, by the flag or by the choice 1 or 2 from the menu; on the
    invalid selection for any other choice from the menu; and on the invalid
    environment for any other flag. *)
Theorem X19_bastion_is_checked_after_saving cmd n config :
  os_Stat m configPath <> None ->
  cvalue (createNewConfig m configPath cmd) n = Ok config ->
  count_char "@" (BastionHost config) <> 1 ->
  cvalue (runTunnel_cmd m host configPath cmd) n = Exited 1 /\
  exists data pre menu msg,
    ccalls (runTunnel_cmd m host configPath cmd) n =
    pre ++ [CmdWriteFile configPath data 420;
            CmdPrint ("Configuration saved to " +:+ configPath +:+ newline)]
    ++ menu ++ [CmdSys (IoLog msg); CmdSys (IoExit 1)] /\
    (forall e, In e menu -> e = CmdScanln \/ exists text, e = CmdPrint text) /\
    (GetString cmd "environment" <> "" -> menu = []) /\
    (GetString cmd "environment" = "staging" \/
     GetString cmd "environment" = "production" \/
     (GetString cmd "environment" = "" /\ (1 <= stdin_Scanln m <= 2)%Z) ->
     msg = "Invalid bastion host format. Expected format: username@hostname") /\
    (GetString cmd "environment" = "" -> ~ (1 <= stdin_Scanln m <= 2)%Z ->
     msg = "Invalid selection") /\
    (GetString cmd "environment" <> "" ->
     GetString cmd "environment" <> "staging" ->
     GetString cmd "environment" <> "production" ->
     msg = "Invalid environment: " +:+ GetString cmd "environment"
           +:+ ". Available environments: "
           +:+ show_strings (getEnvironmentKeys (Environments config))).
Proof.
  intros Hstat Hnew Hbad.
  assert (Hrun : exists data pre,
             ccalls (createNewConfig m configPath cmd) n =
             pre ++ [CmdWriteFile configPath data 420;
                     CmdPrint ("Configuration saved to " +:+ configPath
                               +:+ newline)] /\
                      config = newConfig m cmd n).
  { revert Hnew. unfold cvalue, ccalls. rewrite createNewConfig_run. cbv zeta.
    destruct (os_MkdirAll m _ _); [discriminate|].
    destruct (yaml_Marshal m _) as [data|]; [|discriminate].
    destruct (os_WriteFile m _ _ _); [discriminate|]. cbn [fst snd].
    intros [= <-]. exists data. eexists (_ ++ [_]).
    split; [by rewrite <- app_assoc | done]. }
  destruct Hrun as (data & pre & Hcalls & Hconfig).
  destruct (newConfig_environments cmd n) as [Hlen Hkeys].
  rewrite <- Hconfig in Hlen, Hkeys. clear Hconfig.
  assert (Hhead : forall v k l,
             getEnvironment m cmd config
               (cnext (createNewConfig m configPath cmd) n) = (v, k, l) ->
             runTunnel_cmd m host configPath cmd n =
             (match v with
              | Returns environment => value (runTunnel host config environment)
              | Exits code => Exited code
              | Panics => Exited 2
              end,
              k,
              (CmdStat configPath :: pre)
              ++ [CmdWriteFile configPath data 420;
                  CmdPrint ("Configuration saved to " +:+ configPath +:+ newline)]
              ++ l
              ++ match v with
                 | Returns environment =>
                     map CmdSys (calls (runTunnel host config environment))
                 | _ => []
                 end)).
  { intros v k l Hg. unfold runTunnel_cmd, cbind.
    rewrite !getConfig_run.
    destruct (os_Stat m configPath); [|exfalso; by apply Hstat].
    cbn [fst snd]. rewrite Hnew, Hg. cbn [fst snd]. rewrite Hcalls.
    destruct v; cbn [sys cret fst snd]; f_equal; cbn [app];
      rewrite <- app_assoc; reflexivity. }
  unfold cvalue, ccalls.
  destruct (decide (GetString cmd "environment" = "")) as [Hempty|Hflag].
  - assert (Hne : getEnvironmentKeys (Environments config) <> [])
      by (intros E; rewrite E in Hlen; discriminate).
    pose proof (getEnvironment_menu cmd config
                  (cnext (createNewConfig m configPath cmd) n) Hempty Hne) as Hg.
    cbv zeta in Hg. rewrite Hlen in Hg.
    set (shown := CmdPrint ("Available environments:" +:+ newline)
                  :: ccalls (printMenu 0 (getEnvironmentKeys (Environments config)))
                       (cnext (createNewConfig m configPath cmd) n)
                  ++ [CmdPrint "Select environment (enter number): "; CmdScanln])
      in *.
    assert (Hshown : forall e, In e shown ->
                               e = CmdScanln \/ exists text, e = CmdPrint text).
    { intros e [<-|He]; [eauto|].
      apply in_app_or in He as [He|[<-|[<-|[]]]]; eauto.
      right. by eapply printMenu_prints. }
    destruct (decide (stdin_Scanln m < 1 \/ stdin_Scanln m > Z.of_nat 2)%Z)
      as [Hout|Hin].
    + rewrite (Hhead _ _ _ Hg). cbn [fst snd]. split; [reflexivity|].
      exists data, (CmdStat configPath :: pre), shown, "Invalid selection".
      split; [rewrite app_nil_r; reflexivity|].
      split; [exact Hshown|]. split; [done|].
      split; [|split; [done|done]].
      intros [E|[E|[_ E]]]; [by rewrite Hempty in E ..|lia].
    + destruct (getEnvironmentKeys (Environments config)
                  !! Z.to_nat (stdin_Scanln m - 1)) as [env|] eqn:Hk;
        [|apply lookup_ge_None in Hk; lia].
      destruct (getEnvironmentKeys_lookup _ _ _ Hk) as [envConfig Hlookup].
      rewrite (Hhead _ _ _ Hg). cbn [fst snd].
      rewrite (runTunnel_bad_format host _ _ _ Hlookup Hbad).
      split; [reflexivity|].
      exists data, (CmdStat configPath :: pre), shown,
        "Invalid bastion host format. Expected format: username@hostname".
      split; [reflexivity|].
      split; [exact Hshown|]. split; [done|]. split; [done|].
      split; [intros _ Hno; lia | done].
  - assert (Hg : getEnvironment m cmd config
                   (cnext (createNewConfig m configPath cmd) n) =
                 (Returns (GetString cmd "environment"),
                  cnext (createNewConfig m configPath cmd) n, [])).
    { unfold getEnvironment. by rewrite decide_False. }
    rewrite (Hhead _ _ _ Hg). cbn [fst snd app].
    destruct (Environments config !! GetString cmd "environment")
      as [envConfig|] eqn:Hlookup.
    + rewrite (runTunnel_bad_format host _ _ _ Hlookup Hbad).
      split; [reflexivity|].
      exists data, (CmdStat configPath :: pre), [],
        "Invalid bastion host format. Expected format: username@hostname".
      split; [reflexivity|].
      split; [by intros e []|]. split; [done|]. split; [done|].
      split; [done|]. intros _ Hs Hp.
      destruct (proj1 (Hkeys _) (mk_is_Some _ _ Hlookup)); done.
    + unfold runTunnel. rewrite Hlookup. split; [reflexivity|].
      exists data, (CmdStat configPath :: pre), [].
      eexists. split; [reflexivity|].
      split; [by intros e []|]. split; [done|].
      split; [|split; [done|done]].
      intros [E|[E|[E _]]]; [| |done];
        (assert (His : is_Some (Environments config !! GetString cmd "environment"))
           by (apply Hkeys; rewrite E; tauto));
        rewrite Hlookup in His; by destruct His.
Qed.

(** [openBrowser] by the command it knows and by what starting it
    answers. *)
Lemma openBrowser_run url n :
  openBrowser m url n =
  match browserCommand (runtime_GOOS m) url with
  | Some (name, args) =>
      match exec_Start m name args with
      | None => (tt, n, [CmdExecStart name args])
      | Some e =>
          (tt, n,
           [CmdExecStart name args;
            CmdSys (IoLog ("Failed to open browser: " +:+ error_string e));
            CmdPrint ("Please manually open: " +:+ url +:+ newline)])
      end
  | None =>
      (tt, n,
       [CmdSys (IoLog "Failed to open browser: unsupported platform");
        CmdPrint ("Please manually open: " +:+ url +:+ newline)])
  end.
Proof.
  unfold openBrowser, browserCommand, cbind, cemit, cret.
  destruct (decide (runtime_GOOS m = "linux"));
    [|destruct (decide (runtime_GOOS m = "windows"));
      [|destruct (decide (runtime_GOOS m = "darwin"))]];
    cbn [fst snd app]; try reflexivity;
    by destruct (exec_Start m _ _).
Qed.

Lemma browserCommand_Some goos url name args :
  browserCommand goos url = Some (name, args) ->
  last args = Some url /\
  ((goos = "linux" /\ name = "xdg-open" /\ args = [url]) \/
   (goos = "windows" /\ name = "rundll32" /\
    args = ["url.dll,FileProtocolHandler"; url]) \/
   (goos = "darwin" /\ name = "open" /\ args = [url])).
Proof.
  unfold browserCommand.
  destruct (decide (goos = "linux"));
    [|destruct (decide (goos = "windows"));
      [|destruct (decide (goos = "darwin"))]];
    intros [= <- <-]; split; try reflexivity; tauto.
Qed.

(** X20: [openBrowser] is best effort.  It starts at most one command, the
    one of the operating system, with the URL as its last argument; it
    tells the user to open the URL by hand exactly when no command was
    started without error; it reads nothing and it never ends the
    process. *)
Theorem X20_browser_is_best_effort url n :
  cnext (openBrowser m url) n = n /\
  (forall name args,
      In (CmdExecStart name args) (ccalls (openBrowser m url) n) ->
      last args = Some url /\
      ((runtime_GOOS m = "linux" /\ name = "xdg-open" /\ args = [url]) \/
       (runtime_GOOS m = "windows" /\ name = "rundll32" /\
        args = ["url.dll,FileProtocolHandler"; url]) \/
       (runtime_GOOS m = "darwin" /\ name = "open" /\ args = [url]))) /\
  count_cmd is_exec (ccalls (openBrowser m url) n) <= 1 /\
  (In (CmdPrint ("Please manually open: " +:+ url +:+ newline))
      (ccalls (openBrowser m url) n) <->
   ~ exists name args,
       In (CmdExecStart name args) (ccalls (openBrowser m url) n) /\
       exec_Start m name args = None) /\
  (forall e, In e (ccalls (openBrowser m url) n) ->
             forall code, e <> CmdSys (IoExit code)).
Proof.
  unfold cnext, ccalls. rewrite openBrowser_run.
  destruct (browserCommand (runtime_GOOS m) url) as [[name0 args0]|] eqn:Hcmd.
  - apply browserCommand_Some in Hcmd.
    destruct (exec_Start m name0 args0) as [e0|] eqn:Hstart; cbn [fst snd].
    + split; [reflexivity|]. split; [|split; [|split]].
      * intros name args [H|[H|[H|[]]]]; try discriminate H.
        by injection H as <- <-.
      * cbn. lia.
      * split; [|intros _; cbn; tauto].
        intros _ (name & args & [H|[H|[H|[]]]] & Hok); try discriminate H.
        injection H as <- <-. congruence.
      * intros e [<-|[<-|[<-|[]]]] code; discriminate.
    + split; [reflexivity|]. split; [|split; [|split]].
      * intros name args [H|[]]. by injection H as <- <-.
      * cbn. lia.
      * split; [intros [H|[]]; discriminate|].
        intros H. destruct H. exists name0, args0. split; [by left | done].
      * intros e [<-|[]] code; discriminate.
  - cbn [fst snd]. split; [reflexivity|]. split; [|split; [|split]].
    + intros name args [H|[H|[]]]; discriminate.
    + cbn. lia.
    + split; [|intros _; cbn; tauto].
      intros _ (name & args & [H|[H|[]]] & _); discriminate.
    + intros e [<-|[<-|[]]] code; discriminate.
Qed.

End CommandLineFacts.

(** The properties of the command line at concrete machines. *)

Lemma X14_menu_selects_what_it_shows_witness :
  ccalls (getEnvironment machine_configured cmd_plain config_ok) 0 !! 1 =
  Some (CmdPrint ("1. staging" +:+ newline)) /\
  cvalue (getEnvironment machine_configured cmd_plain config_ok) 0 =
  Returns "staging".
Proof.
  destruct (X14_menu_selects_what_it_shows machine_configured cmd_plain
              config_ok 0 eq_refl) as (H & _).
  destruct (H 0 "staging" eq_refl) as [Hline Hchoice].
  split; [exact Hline | apply Hchoice; reflexivity].
Defined.

Lemma X15_menu_rejects_witness :
  cvalue (getEnvironment machine_fresh cmd_plain config_ok) 0 = Exits 1.
Proof.
  apply (proj1 (X15_menu_rejects machine_fresh cmd_plain config_ok 0 eq_refl)).
  right. right. vm_compute. reflexivity.
Defined.

Lemma X16_new_config_settings_witness :
  BastionHost (newConfig machine_fresh cmd_staging_elsewhere 0) = "root@10.0.0.1" /\
  KeyPath (newConfig machine_fresh cmd_staging_elsewhere 0) = "bastion.example.com" /\
  cnext (createNewConfig machine_fresh path_ok cmd_staging_elsewhere) 0 = 3.
Proof.
  destruct (X16_new_config_settings machine_fresh path_ok
              cmd_staging_elsewhere 0) as (Hset & Hnext & _).
  destruct (Hset (newConfig machine_fresh cmd_staging_elsewhere 0)
              (or_intror eq_refl)) as (Hb & Hk & _).
  split; [exact Hb|]. split; [exact Hk | exact Hnext].
Defined.

Lemma X17_new_config_is_saved_or_reported_witness :
  exists data pre,
    ccalls (createNewConfig machine_fresh path_ok cmd_plain) 0 =
    pre ++ [CmdMkdirAll "/home/u/.config/tf" 493;
            CmdMarshal (newConfig machine_fresh cmd_plain 0);
            CmdWriteFile path_ok data 420;
            CmdPrint ("Configuration saved to " +:+ path_ok +:+ newline)].
Proof.
  destruct (proj1 (proj2 (X17_new_config_is_saved_or_reported machine_fresh
                            path_ok cmd_plain 0))
              (newConfig machine_fresh cmd_plain 0) eq_refl)
    as (data & pre & _ & _ & _ & H).
  exists data, pre. exact H.
Defined.

Lemma X18_existing_config_is_only_read_witness :
  runTunnel_cmd machine_configured host_ok path_ok cmd_staging_elsewhere 0 =
  runTunnel_cmd machine_configured host_ok path_ok cmd_staging 0.
Proof.
  apply (X18_existing_config_is_only_read machine_configured host_ok path_ok
           cmd_staging 0 eq_refl).
  reflexivity.
Defined.

Lemma X19_bastion_is_checked_after_saving_witness :
  cvalue (runTunnel_cmd machine_fresh host_ok path_ok cmd_plain) 0 = Exited 1 /\
  cvalue (runTunnel_cmd machine_fresh host_ok path_ok cmd_staging) 0 = Exited 1.
Proof.
  split.
  - apply (X19_bastion_is_checked_after_saving machine_fresh host_ok path_ok
             cmd_plain 0 (newConfig machine_fresh cmd_plain 0)).
    + discriminate.
    + reflexivity.
    + vm_compute. lia.
  - apply (X19_bastion_is_checked_after_saving machine_fresh host_ok path_ok
             cmd_staging 0 (newConfig machine_fresh cmd_staging 0)).
    + discriminate.
    + reflexivity.
    + vm_compute. lia.
Defined.

Lemma X20_browser_is_best_effort_witness :
  In (CmdPrint ("Please manually open: https://localhost:5602/_dashboards/"
                +:+ newline))
     (ccalls (openBrowser machine_fresh "https://localhost:5602/_dashboards/") 0).
Proof.
  apply (proj1 (proj2 (proj2 (proj2 (X20_browser_is_best_effort machine_fresh
                  "https://localhost:5602/_dashboards/" 0))))).
  intros (name & args & H & _). vm_compute in H. intuition discriminate.
Defined.

Section CommandRuns.

Variable m : Machine.
Variable host : Host.
Variable configPath : string.

Lemma questions_no_end cmd e : In e (questions cmd) -> ends_process e = false.
Proof.
  intros H. by apply questions_In in H as [->|(name & prompt & -> & _)].
Qed.

Lemma createNewConfig_no_end cmd n e :
  In e (ccalls (createNewConfig m configPath cmd) n) -> ends_process e = false.
Proof.
  unfold ccalls. rewrite createNewConfig_run. cbv zeta.
  pose proof (questions_no_end cmd) as Hq. revert Hq.
  generalize (questions cmd). intros qs Hq.
  destruct (os_MkdirAll m _ _); [|destruct (yaml_Marshal m _);
                                   [destruct (os_WriteFile m _ _ _)|]];
    cbn [fst snd]; intros H;
    repeat (apply in_app_or in H as [H|H] || destruct H as [H|H]);
    subst; try reflexivity; try contradiction; by apply Hq.
Qed.

Lemma getConfig_no_end cmd n e :
  In e (ccalls (getConfig m configPath cmd) n) -> ends_process e = false.
Proof.
  unfold ccalls. rewrite getConfig_run.
  destruct (os_Stat m configPath); cbn [snd]; intros [<-|H]; try reflexivity.
  - by eapply createNewConfig_no_end.
  - by apply loadConfig_calls in H as [->| ->].
Qed.

Lemma printMenu_no_end i environments n e :
  In e (ccalls (printMenu i environments) n) -> ends_process e = false.
Proof.
  revert i. induction environments as [|env rest IH]; intros i; [intros []|].
  cbn [printMenu]. rewrite ccalls_bind. intros H.
  apply in_app_or in H as [[<-|[]]|H]; [reflexivity|]. by eapply IH.
Qed.

(** [getEnvironment] returns an environment, or exits with status 1 after
    a log line; it never panics. *)
Lemma getEnvironment_shape cmd config n :
  (exists env l,
      getEnvironment m cmd config n = (Returns env, n, l) /\
      forall e, In e l -> ends_process e = false) \/
  (exists pre msg,
      getEnvironment m cmd config n =
      (Exits 1, n, pre ++ [CmdSys (IoLog msg); CmdSys (IoExit 1)]) /\
      forall e, In e pre -> ends_process e = false).
Proof.
  destruct (decide (GetString cmd "environment" = "")) as [Hflag|Hflag].
  2:{ left. exists (GetString cmd "environment"), []. split; [|intros ? []].
      unfold getEnvironment. by destruct (decide _). }
  destruct (decide (getEnvironmentKeys (Environments config) = [])) as [Hk|Hk].
  { right. eexists [], _. split; [|intros ? []].
    by rewrite (getEnvironment_empty m _ _ _ Hflag Hk). }
  rewrite (getEnvironment_menu m _ _ _ Hflag Hk). cbv zeta.
  assert (Hshown : forall e,
             In e (CmdPrint ("Available environments:" +:+ newline)
                   :: ccalls (printMenu 0 (getEnvironmentKeys (Environments config))) n
                   ++ [CmdPrint "Select environment (enter number): "; CmdScanln]) ->
             ends_process e = false).
  { intros e [<-|H]; [reflexivity|].
    apply in_app_or in H as [H|[<-|[<-|[]]]]; try reflexivity.
    by eapply printMenu_no_end. }
  destruct (decide _) as [Hbad|Hgood].
  - right. eexists _, _. split; [reflexivity | exact Hshown].
  - destruct (_ !! Z.to_nat _) as [env|] eqn:Hl.
    + left. eexists _, _. split; [reflexivity | exact Hshown].
    + exfalso. apply lookup_ge_None_1 in Hl. lia.
Qed.

(** A run of the command, by what [getConfig] and [getEnvironment]
    return. *)
Lemma runTunnel_cmd_run cmd n :
  runTunnel_cmd m host configPath cmd n =
  match cvalue (getConfig m configPath cmd) n with
  | Err e =>
      (Exited 1, cnext (getConfig m configPath cmd) n,
       ccalls (getConfig m configPath cmd) n
       ++ [CmdSys (IoLog ("Error with configuration: " +:+ error_string e));
           CmdSys (IoExit 1)])
  | Ok config =>
      match getEnvironment m cmd config (cnext (getConfig m configPath cmd) n) with
      | (Returns environment, n', l) =>
          (value (runTunnel host config environment), n',
           ccalls (getConfig m configPath cmd) n ++ l
           ++ map CmdSys (calls (runTunnel host config environment)))
      | (Exits code, n', l) =>
          (Exited code, n', ccalls (getConfig m configPath cmd) n ++ l)
      | (Panics, n', l) =>
          (Exited 2, n', ccalls (getConfig m configPath cmd) n ++ l)
      end
  end.
Proof.
  unfold runTunnel_cmd, cbind, cvalue, cnext, ccalls.
  destruct (getConfig m configPath cmd n) as [[[config|e] n1] l1]; cbn [fst snd];
    [|reflexivity].
  destruct (getEnvironment m cmd config n1) as [[[env|code|] n2] l2];
    cbn [fst snd]; unfold sys, cret; cbn [fst snd];
    rewrite ?app_nil_r; reflexivity.
Qed.

(** A run of the command ends in one of two ways: with a log line and the
    exit with status 1 as its last two calls, or with the tunnel in
    service; it never panics. *)
Lemma runTunnel_cmd_shape cmd n :
  (exists pre msg,
      cvalue (runTunnel_cmd m host configPath cmd) n = Exited 1 /\
      ccalls (runTunnel_cmd m host configPath cmd) n =
      pre ++ [CmdSys (IoLog msg); CmdSys (IoExit 1)] /\
      forall e, In e pre -> ends_process e = false) \/
  (cvalue (runTunnel_cmd m host configPath cmd) n = Serving /\
   forall e, In e (ccalls (runTunnel_cmd m host configPath cmd) n) ->
             ends_process e = false).
Proof.
  unfold cvalue at 1 2, ccalls at 1 2. rewrite runTunnel_cmd_run.
  pose proof (getConfig_no_end cmd n) as Hcfg.
  destruct (cvalue (getConfig m configPath cmd) n) as [config|err].
  2:{ left. eexists _, _. split; [reflexivity|]. split; [reflexivity | exact Hcfg]. }
  destruct (getEnvironment_shape cmd config (cnext (getConfig m configPath cmd) n))
    as [(env & l & -> & Hl)|(pre & msg & -> & Hpre)]; cbn [fst snd].
  - destruct (runTunnel_shape host config env)
      as [(pre & msg & -> & Hno)|(l' & -> & Hno)]; cbn [value calls fst snd].
    + left. exists (ccalls (getConfig m configPath cmd) n ++ l ++ map CmdSys pre), msg.
      split; [reflexivity|]. split.
      * rewrite map_app. cbn [map]. by rewrite <- !app_assoc.
      * intros e H. apply in_app_or in H as [H|H]; [by apply Hcfg|].
        apply in_app_or in H as [H|H]; [by apply Hl|].
        apply in_map_iff in H as (e' & <- & H). apply Hno in H. by destruct e'.
    + right. split; [reflexivity|].
      intros e H. apply in_app_or in H as [H|H]; [by apply Hcfg|].
      apply in_app_or in H as [H|H]; [by apply Hl|].
      apply in_map_iff in H as (e' & <- & H). apply Hno in H. by destruct e'.
  - left. exists (ccalls (getConfig m configPath cmd) n ++ pre), msg.
    split; [reflexivity|]. split; [by rewrite <- app_assoc|].
    intros e H. apply in_app_or in H as [H|H]; [by apply Hcfg | by apply Hpre].
Qed.

Lemma cmd_exit_is_last pre0 msg pre e post :
  (forall x, In x pre0 -> ends_process x = false) ->
  ends_process e = true ->
  pre0 ++ [CmdSys (IoLog msg); CmdSys (IoExit 1)] = pre ++ e :: post ->
  post = [] /\ e = CmdSys (IoExit 1) /\ pre = pre0 ++ [CmdSys (IoLog msg)].
Proof.
  revert pre. induction pre0 as [|x pre0 IH]; intros pre Hno He Heq.
  - destruct pre as [|a [|b pre]]; cbn in Heq.
    + injection Heq as <- _. discriminate He.
    + by injection Heq as <- <- <-.
    + injection Heq as _ _ Heq. by destruct pre.
  - destruct pre as [|a pre]; cbn in Heq.
    + injection Heq as -> _. rewrite (Hno e) in He by (by left). discriminate.
    + injection Heq as <- Heq.
      destruct (IH pre) as (? & ? & ->); try done.
      intros y Hy. apply Hno. by right.
Qed.

(** X23: a run of the whole command never panics, and ends with the tunnel
    in service or with the exit with status 1; an exit is its last call,
    and the call before it the log line that says why. *)
Theorem X23_command_exit_discipline cmd n :
  (cvalue (runTunnel_cmd m host configPath cmd) n = Serving \/
   cvalue (runTunnel_cmd m host configPath cmd) n = Exited 1) /\
  ~ In CmdIndexOutOfRange (ccalls (runTunnel_cmd m host configPath cmd) n) /\
  (forall code,
      cvalue (runTunnel_cmd m host configPath cmd) n = Exited code ->
      exists pre msg,
        ccalls (runTunnel_cmd m host configPath cmd) n =
        pre ++ [CmdSys (IoLog msg); CmdSys (IoExit 1)]) /\
  (forall pre code post,
      ccalls (runTunnel_cmd m host configPath cmd) n =
      pre ++ CmdSys (IoExit code) :: post ->
      post = [] /\ code = 1%Z /\
      cvalue (runTunnel_cmd m host configPath cmd) n = Exited 1 /\
      exists pre' msg, pre = pre' ++ [CmdSys (IoLog msg)]).
Proof.
  destruct (runTunnel_cmd_shape cmd n)
    as [(pre0 & msg & Hv & Hc & Hno)|(Hv & Hno)]; rewrite Hv.
  - split; [by right|]. rewrite Hc. split; [|split].
    + intros H. apply in_app_or in H as [H|[H|[H|[]]]]; try discriminate H.
      by apply Hno in H.
    + intros code _. by exists pre0, msg.
    + intros pre code post Heq.
      destruct (cmd_exit_is_last _ _ _ (CmdSys (IoExit code)) _ Hno eq_refl Heq)
        as (-> & [= ->] & ->).
      repeat split. by exists pre0, msg.
  - split; [by left|]. split; [|split].
    + intros H. by apply Hno in H.
    + discriminate.
    + intros pre code post Heq.
      assert (Hin : In (CmdSys (IoExit code))
                       (ccalls (runTunnel_cmd m host configPath cmd) n))
        by (rewrite Heq; apply in_elt).
      by apply Hno in Hin.
Qed.

End CommandRuns.

Lemma X23_command_exit_discipline_witness :
  exists pre msg,
    ccalls (runTunnel_cmd machine_fresh host_ok path_ok cmd_staging) 0 =
    pre ++ [CmdSys (IoLog msg); CmdSys (IoExit 1)].
Proof.
  apply (proj1 (proj2 (proj2 (X23_command_exit_discipline machine_fresh host_ok
                                path_ok cmd_staging 0))) 1%Z).
  reflexivity.
Defined.
